(** * fileStorage: the browser-side upload and delete flows

    A shallow embedding of [static/js/file-browser.js] (the [FileBrowser]
    object, with the [ModalManager] and [ConfirmDialog] it calls), of
    [static/js/theme.js], and of the two server-side components the
    specification describes (the protection registry and the delete
    orchestrator).

    Conventions.
    - JavaScript strings are [string], a character being a code unit
      below 256; the empty string is the only falsy one.  A DOM element
      that is absent reads as the empty string, [false] or the empty file
      list, which is what the optional chaining of the source
      ([el?.value], [el?.checked], [el?.files]) makes of it once the value
      reaches a truthiness test.
    - [File.size], [ProgressEvent.loaded], [ProgressEvent.total] and
      [XMLHttpRequest.status] are unsigned integers in the DOM interfaces;
      they are [N] here.  Byte counters are added exactly: the batch is
      taken to stay below 2^53 bytes, where the additions of doubles are
      exact.
    - The two operations on doubles that leave the integers, the division
      and the multiplication in [updateProgressUI], are rounded by a
      function [fl : Q -> Q], a parameter of the development.  IEEE 754
      round-to-nearest is one such function; the identity is another.
    - Effects (HTTP requests, DOM writes, console output, timers) are
      recorded in order in a trace; an [async] function is the sequential
      composition of its awaited steps.  What the network answers is an
      input of the model. *)

From Stdlib Require Import QArith Qround Ascii.
From stdpp Require Import gmap strings list fin_maps sorting.

(** ** JavaScript string primitives used by the source *)

Module Js.

(** Truthiness of a string: [!!s]. *)
Definition truthy (s : string) : bool :=
  match s with
  | EmptyString => false
  | String _ _ => true
  end.

(** [a || b] on strings. *)
Definition or_else (a b : string) : string :=
  if truthy a then a else b.

(** Truthiness of a string or [null] ([None]). *)
Definition truthy_opt (o : option string) : bool :=
  match o with
  | Some s => truthy s
  | None => false
  end.

(** The backslash, character 92. *)
Definition backslash : ascii := Eval cbv in ascii_of_N 92.

(** [s.replace(/\\/g, '/')]: every backslash becomes a slash. *)
Fixpoint replaceBackslashes (s : string) : string :=
  match s with
  | EmptyString => EmptyString
  | String c s' =>
      String (if Ascii.eqb c backslash then "/"%char else c) (replaceBackslashes s')
  end.

(** [s.split(sep)] for a one-character separator: never empty. *)
Fixpoint split (sep : ascii) (s : string) : list string :=
  match s with
  | EmptyString => [EmptyString]
  | String c s' =>
      if Ascii.eqb c sep then EmptyString :: split sep s'
      else match split sep s' with
           | [] => [String c EmptyString]
           | h :: t => String c h :: t
           end
  end.

(** [xs[0]] on an array of strings that has a first element. *)
Definition first (xs : list string) : string := default EmptyString (head xs).

Fixpoint dropLeading (c : ascii) (s : string) : string :=
  match s with
  | EmptyString => EmptyString
  | String c' s' => if Ascii.eqb c' c then dropLeading c s' else s
  end.

Fixpoint dropTrailing (c : ascii) (s : string) : string :=
  match s with
  | EmptyString => EmptyString
  | String c' s' =>
      let r := dropTrailing c s' in
      if Ascii.eqb c' c && negb (truthy r) then EmptyString else String c' r
  end.

(** [s.replace(/^\/+|\/+$/g, '')]: the leading and the trailing run of
    slashes are removed. *)
Definition stripSlashes (s : string) : string :=
  dropTrailing "/" (dropLeading "/" s).

(** White space and line terminators of [String.prototype.trim] among
    the code units below 256: TAB, LF, VT, FF, CR, SPACE and the
    no-break space U+00A0. *)
Definition isWhiteSpace (c : ascii) : bool :=
  let n := N_of_ascii c in
  (N.leb 9 n && N.leb n 13) || N.eqb n 32 || N.eqb n 160.

Fixpoint trimStart (s : string) : string :=
  match s with
  | EmptyString => EmptyString
  | String c s' => if isWhiteSpace c then trimStart s' else s
  end.

Fixpoint trimEnd (s : string) : string :=
  match s with
  | EmptyString => EmptyString
  | String c s' =>
      let r := trimEnd s' in
      if isWhiteSpace c && negb (truthy r) then EmptyString else String c r
  end.

(** [s.trim()]. *)
Definition trim (s : string) : string := trimEnd (trimStart s).

(** A settled promise. *)
Inductive settled (A : Type) : Type :=
| Fulfilled (a : A)
| Rejected (message : string).
Arguments Fulfilled {A} a.
Arguments Rejected {A} message.

(** [Math.round]: the nearest integer, halves towards plus infinity. *)
Definition Math_round (x : Q) : Z := Qfloor (x + (1 # 2)).

(** A non-negative integer as a number. *)
Definition num (n : N) : Q := inject_Z (Z.of_N n).

End Js.

(** ** The effects of the page, as a trace *)

(** A [File] of the file input: the three attributes the source reads. *)
Record File : Type := mkFile {
  name : string;
  size : N;
  webkitRelativePath : string
}.

(** Bodies of the requests the page sends. *)
Inductive http_body : Type :=
| FileBody (file : File)
    (* xhr.send(file) *)
| SetProtectionBody (path password : option string) (key : string)
    (* JSON.stringify({ path, password, key }); [None] is null *)
| DeleteItemsBody (items_to_delete : list string).
    (* JSON.stringify({ items_to_delete }) *)

(** Texts written to [uploadFileError]. *)
Inductive upload_text : Type :=
| TxtSelectFolder                       (* 'Select a folder.' *)
| TxtSelectFile                         (* 'Select at least one file.' *)
| TxtPasswordRequired                   (* 'Password required.' *)
| TxtProtectionPasswordRequired         (* 'Protection password required.' *)
| TxtCleared                            (* '' *)
| TxtUploadComplete (uploaded : nat)    (* `Upload complete! ${n} file(s) uploaded.` *)
| TxtUploadSuccessful (uploaded : nat)  (* `Upload successful! ${n} file(s) uploaded.` *)
| TxtUploadedFailed (uploaded failed : nat).
                                        (* `Uploaded ${s}, failed ${f}.` *)

(** What [updateProgressUI] writes: the percentage of the bar and of the
    percent text, the label and the file counter.  (The byte text goes
    through [formatBytes], which no property here observes.) *)
Record progress_display : Type := mkDisplay {
  overallPercent : Z;         (* progressBar.style.width, progressPercent *)
  shownLoaded : N;            (* totalLoaded, as passed *)
  shownGrandTotal : N;        (* grandTotal, as passed *)
  labelFile : string;         (* `Uploading: ${fileName}` *)
  currentFile : nat;          (* `File ${currentFile} of ${totalFiles}` *)
  totalFiles : nat
}.

Inductive event : Type :=
| HttpPost (url : string) (headers : list (string * string)) (body : http_body)
| ProgressUI (d : progress_display)
| UploadText (t : upload_text)
| ConsoleWarn (message : string)
| ReloadAfter (ms : nat)                (* setTimeout(() => location.reload(), ms) *)
| HideModalAfter (id : string) (ms : nat)
| LocationReload.                       (* location.reload() *)

(** Computations that append to the trace. *)
Definition Eff (A : Type) : Type := (A * list event)%type.

Definition ret {A : Type} (a : A) : Eff A := (a, []).

Definition bind {A B : Type} (m : Eff A) (k : A -> Eff B) : Eff B :=
  let '(a, t1) := m in
  let '(b, t2) := k a in
  (b, t1 ++ t2).

Definition emit (e : event) : Eff unit := (tt, [e]).

Definition result_of {A : Type} (m : Eff A) : A := fst m.
Definition trace_of {A : Type} (m : Eff A) : list event := snd m.

Declare Scope eff_scope.
Delimit Scope eff_scope with eff.
Notation "'let!' x ':=' m 'in' k" := (bind m (fun x => k))
  (at level 10, x name, m at level 100, k at level 200) : eff_scope.
Notation "m ';;' k" := (bind m (fun _ => k))
  (at level 100, k at level 200, right associativity) : eff_scope.

(** [xs.forEach(f)] and plain [for] loops over a list. *)
Fixpoint forEach {A : Type} (f : A -> Eff unit) (xs : list A) : Eff unit :=
  match xs with
  | [] => ret tt
  | x :: xs' => bind (f x) (fun _ => forEach f xs')
  end.

(** The page configuration handed to [FileBrowser.init]: the fields the
    source reads.  It holds no key, only whether one is configured. *)
Record config : Type := mkConfig {
  currentPath : string;
  deleteKeyConfigured : bool;
  hiddenKeyConfigured : bool;
  semanticSearchEnabled : bool;
  isCurrentPathHidden : bool
}.

(** ** Uploading: [uploadFileWithProgress], [updateProgressUI], [performUpload] *)

Module Upload.

(** What [performUpload] reads from the upload modal. *)
Record upload_form : Type := mkForm {
  files : list File;                 (* uploadFileInput?.files *)
  uploadFileKey : string;            (* uploadFileKey?.value *)
  uploadTargetFolder : string;       (* uploadTargetFolder?.value *)
  uploadModeFolder : bool;           (* uploadModeFolder?.checked *)
  enableProtection : bool;           (* enableProtection?.checked *)
  protectionPassword : string        (* protectionPassword?.value *)
}.

(** One upload progress event of the request. *)
Record progress_event : Type := mkProgress {
  lengthComputable : bool;
  loaded : N;
  total : N
}.

(** How a request ends: exactly one of the three listeners fires. *)
Inductive xhr_end : Type :=
| XhrLoad (status : N)
| XhrError
| XhrAbort.

(** What the network does to one request. *)
Record xhr_run : Type := mkRun {
  progress : list progress_event;
  finish : xhr_end
}.

(** What [fetch] does: it resolves with a response, whatever its status,
    or rejects. *)
Inductive fetch_outcome : Type :=
| FetchResponse (status : N)
| FetchRejects.

(** The value [uploadFileWithProgress] resolves with. *)
Record upload_response : Type := mkResponse {
  ok : bool;
  status : N
}.

(** The counters of the loop of [performUpload]. *)
Record counters : Type := mkCounters {
  successCount : nat;
  failCount : nat;
  totalLoaded : N
}.

Section WithRounding.

(** Rounding of a real result to a double. *)
Variable fl : Q -> Q.

(** [uploadFileWithProgress(file, url, key, onProgress)]. *)
Definition uploadFileWithProgress (run : xhr_run) (file : File)
    (url key : string) (onProgress : option (N -> N -> Eff unit))
  : Eff (Js.settled upload_response) :=
  (emit (HttpPost url [("X-Upload-Key"%string, key)] (FileBody file)) ;;
   forEach (fun e =>
              match onProgress with
              | Some callback =>
                  if lengthComputable e then callback (loaded e) (total e)
                  else ret tt
              | None => ret tt
              end) (progress run) ;;
   match finish run with
   | XhrLoad st =>
       if N.leb 200 st && N.ltb st 300
       then ret (Js.Fulfilled {| ok := true; status := st |})
       else ret (Js.Fulfilled {| ok := false; status := st |})
   | XhrError => ret (Js.Rejected "Network error")
   | XhrAbort => ret (Js.Rejected "Upload aborted")
   end)%eff.

(** The overall percentage of [updateProgressUI]:
    [grandTotal > 0 ? Math.round((totalLoaded / grandTotal) * 100) : 0]. *)
Definition percent (totalLoaded grandTotal : N) : Z :=
  if N.ltb 0 grandTotal
  then Js.Math_round (fl (fl (Js.num totalLoaded / Js.num grandTotal) * 100))
  else 0%Z.

(** [updateProgressUI(currentFile, totalFiles, fileName, loaded, total,
    totalLoaded, grandTotal)]. *)
Definition updateProgressUI (currentFile totalFiles : nat)
    (fileName : string) (loaded total totalLoaded grandTotal : N)
  : Eff unit :=
  let overallPercent := percent totalLoaded grandTotal in
  emit (ProgressUI {| overallPercent := overallPercent;
                      shownLoaded := totalLoaded;
                      shownGrandTotal := grandTotal;
                      labelFile := fileName;
                      currentFile := currentFile;
                      totalFiles := totalFiles |}).

(** The upload target of one file, [relPath] in the loop. *)
Definition relPathOf (targetPath : string) (isFolderMode : bool)
    (file : File) : string :=
  if isFolderMode && Js.truthy (webkitRelativePath file) then
    let relativePath := Js.replaceBackslashes (webkitRelativePath file) in
    if Js.truthy targetPath then targetPath +:+ "/" +:+ relativePath
    else relativePath
  else
    if Js.truthy targetPath then targetPath +:+ "/" +:+ name file
    else name file.

(** [folderBasePath], [null] unless the first file of a folder-mode
    batch declares a relative path. *)
Definition folderBasePathOf (targetPath : string) (isFolderMode : bool)
    (files : list File) : option string :=
  match files with
  | file0 :: _ =>
      if isFolderMode && Js.truthy (webkitRelativePath file0) then
        let firstPath := Js.replaceBackslashes (webkitRelativePath file0) in
        let folderName := Js.first (Js.split "/" firstPath) in
        Some (if Js.truthy targetPath then targetPath +:+ "/" +:+ folderName
              else folderName)
      else None
  | [] => None
  end.

(** [grandTotal]: the sizes added up in order. *)
Definition grandTotalOf (files : list File) : N :=
  fold_left (fun acc file => (acc + size file)%N) files 0%N.

Section Loop.

(** What the loop body captures. *)
Variable net : nat -> xhr_run.
Variables (targetPath : string) (isFolderMode : bool) (key : string).
Variables (files_length : nat) (grandTotal : N).

(** One iteration of the [for] loop, for [files[i]]. *)
Definition uploadStep (i : nat) (file : File) (st : counters)
  : Eff counters :=
  let relPath := relPathOf targetPath isFolderMode file in
  let fileStartLoaded := totalLoaded st in
  (let! result :=
     uploadFileWithProgress (net i) file ("/upload/" +:+ relPath) key
       (Some (fun loaded total =>
                let currentTotalLoaded := (fileStartLoaded + loaded)%N in
                updateProgressUI (i + 1) files_length (name file)
                  loaded total currentTotalLoaded grandTotal)) in
   let st1 :=
     match result with
     | Js.Fulfilled result =>
         if ok result
         then {| successCount := successCount st + 1;
                 failCount := failCount st;
                 totalLoaded := totalLoaded st |}
         else {| successCount := successCount st;
                 failCount := failCount st + 1;
                 totalLoaded := totalLoaded st |}
     | Js.Rejected _ =>
         {| successCount := successCount st;
            failCount := failCount st + 1;
            totalLoaded := totalLoaded st |}
     end in
   ret {| successCount := successCount st1;
          failCount := failCount st1;
          totalLoaded := (totalLoaded st1 + size file)%N |})%eff.

(** The loop from index [i] on, over the files that remain. *)
Fixpoint uploadLoop (i : nat) (rest : list File) (st : counters)
  : Eff counters :=
  match rest with
  | [] => ret st
  | file :: rest' =>
      bind (uploadStep i file st) (fun st' => uploadLoop (S i) rest' st')
  end.

End Loop.

(** [performUpload()].  The model returns the counters the function
    holds when it ends, [None] when it returns before the batch starts.
    [net i] is what the network does to the request of [files[i]], and
    [protection] what it does to the call that sets the protection.
    Of the writes to the document, the texts of [uploadFileError], the
    progress display and the two timers are recorded; the enabling of the
    buttons and the showing of the progress container are not. *)
Definition performUpload (cfg : config) (form : upload_form)
    (net : nat -> xhr_run) (protection : fetch_outcome)
  : Eff (option counters) :=
  let files := files form in
  let key := uploadFileKey form in
  let targetPath :=
    Js.or_else (Js.trim (uploadTargetFolder form)) (currentPath cfg) in
  let isFolderMode := uploadModeFolder form in
  let targetPath := Js.stripSlashes targetPath in
  if Nat.eqb (length files) 0 then
    (emit (UploadText (if isFolderMode then TxtSelectFolder
                       else TxtSelectFile)) ;;
     ret None)%eff
  else if negb (Js.truthy key) then
    (emit (UploadText TxtPasswordRequired) ;; ret None)%eff
  else
    let protectFolder := isFolderMode && enableProtection form in
    let protectionPwd :=
      if protectFolder then Some (protectionPassword form) else None in
    if protectFolder && negb (Js.truthy_opt protectionPwd) then
      (emit (UploadText TxtProtectionPasswordRequired) ;; ret None)%eff
    else
      let grandTotal := grandTotalOf files in
      let folderBasePath := folderBasePathOf targetPath isFolderMode files in
      (emit (UploadText TxtCleared) ;;
       let! st :=
         uploadLoop net targetPath isFolderMode key (length files)
           grandTotal 0 files
           {| successCount := 0; failCount := 0; totalLoaded := 0 |} in
       updateProgressUI (length files) (length files) "Complete"
         grandTotal grandTotal grandTotal grandTotal ;;
       (if protectFolder && Nat.ltb 0 (successCount st)
           && Js.truthy_opt folderBasePath
        then
          emit (HttpPost "/api/set-path-protection"
                  [("Content-Type"%string, "application/json"%string)]
                  (SetProtectionBody folderBasePath protectionPwd key)) ;;
          match protection with
          | FetchResponse _ => ret tt
          | FetchRejects =>
              emit (ConsoleWarn "Failed to set folder protection")
          end
        else ret tt) ;;
       (if Nat.eqb (failCount st) 0 then
          let normInitial := Js.stripSlashes (currentPath cfg) in
          if String.eqb targetPath normInitial then
            emit (UploadText (TxtUploadComplete (successCount st))) ;;
            emit (ReloadAfter 1000)
          else
            emit (UploadText (TxtUploadSuccessful (successCount st))) ;;
            emit (HideModalAfter "uploadFileModal" 2000)
        else
          emit (UploadText (TxtUploadedFailed (successCount st)
                              (failCount st)))) ;;
       ret (Some st))%eff.

End WithRounding.

End Upload.

(** ** Delete mode: [setupDeleteMode], [performDelete], [ConfirmDialog] *)

Module DeleteMode.

(** The JSON answer of [/api/delete-items]; a field may be missing. *)
Record delete_json : Type := mkDeleteJson {
  success_count : option nat;
  fail_count : option nat;
  errors : option (list (string * string))     (* path, error *)
}.

(** What [fetch] and [response.json()] do for the delete request. *)
Inductive delete_fetch : Type :=
| DeleteAnswer (result : delete_json)
| DeleteThrows (message : string).

(** The content of [deleteResultMessage]. *)
Inductive result_message : Type :=
| NoMessage
| ResultCounts (success failed : nat) (errors : list (string * string))
    (* `Success: ${s}, Failed: ${f}` followed by the error list *)
| ResultError (message : string).
    (* `Error: ${error.message}` *)

(** The variable [enteredDeleteKey] of the closure of [setupDeleteMode],
    the parts of the document its listeners read and write, and the
    callback [ConfirmDialog.show] has installed on the confirm button:
    the items its closure captured, the key being the variable, which
    the callback reads when it runs. *)
Record state : Type := mkState {
  enteredDeleteKey : option string;        (* null is None *)
  deleteModeClass : bool;                  (* body has class 'delete-mode' *)
  deleteModalError : string;
  checkboxes : list (string * bool);       (* value, checked *)
  deleteSelectedDisabled : bool;
  activeModals : gset string;              (* modals with class 'active' *)
  onConfirm : option (list string);
  deleteResultTitle : string;
  deleteResultMessage : result_message
}.

(** The user actions the listeners of [setupDeleteMode] and of
    [ConfirmDialog] answer to. *)
Inductive action : Type :=
| ClickDeleteModeBtn
| ClickDeleteModalCancelBtn
| ClickDeleteModalSubmitBtn (keyInput : string)  (* deleteModalKeyInput?.value *)
| ClickCancelDeleteModeBtn
| ChangeCheckbox (index : nat) (checked : bool)
| ClickDeleteSelectedBtn
| ClickConfirmBtn (network : delete_fetch)
| ClickConfirmCancelBtn
| ClickDeleteResultCloseBtn.

(** [ModalManager.show(id)] and [ModalManager.hide(id)] for the modals
    of this flow, which are registered without an [onClose]. *)
Definition show (id : string) (st : state) : state :=
  {| enteredDeleteKey := enteredDeleteKey st;
     deleteModeClass := deleteModeClass st;
     deleteModalError := deleteModalError st;
     checkboxes := checkboxes st;
     deleteSelectedDisabled := deleteSelectedDisabled st;
     activeModals := activeModals st ∪ {[ id ]};
     onConfirm := onConfirm st;
     deleteResultTitle := deleteResultTitle st;
     deleteResultMessage := deleteResultMessage st |}.

Definition hide (id : string) (st : state) : state :=
  {| enteredDeleteKey := enteredDeleteKey st;
     deleteModeClass := deleteModeClass st;
     deleteModalError := deleteModalError st;
     checkboxes := checkboxes st;
     deleteSelectedDisabled := deleteSelectedDisabled st;
     activeModals := activeModals st ∖ {[ id ]};
     onConfirm := onConfirm st;
     deleteResultTitle := deleteResultTitle st;
     deleteResultMessage := deleteResultMessage st |}.

(** [checkAnyCheckboxSelected()]. *)
Definition checkAnyCheckboxSelected (st : state) : state :=
  let anyChecked := existsb snd (checkboxes st) in
  {| enteredDeleteKey := enteredDeleteKey st;
     deleteModeClass := deleteModeClass st;
     deleteModalError := deleteModalError st;
     checkboxes := checkboxes st;
     deleteSelectedDisabled := negb anyChecked;
     activeModals := activeModals st;
     onConfirm := onConfirm st;
     deleteResultTitle := deleteResultTitle st;
     deleteResultMessage := deleteResultMessage st |}.

(** [enterDeleteMode(validKey)]. *)
Definition enterDeleteMode (validKey : string) (st : state) : state :=
  let st1 :=
    {| enteredDeleteKey := Some validKey;
       deleteModeClass := true;
       deleteModalError := deleteModalError st;
       checkboxes := checkboxes st;
       deleteSelectedDisabled := deleteSelectedDisabled st;
       activeModals := activeModals st;
       onConfirm := onConfirm st;
       deleteResultTitle := deleteResultTitle st;
       deleteResultMessage := deleteResultMessage st |} in
  checkAnyCheckboxSelected (hide "deleteKeyModal" st1).

(** [exitDeleteMode()]. *)
Definition exitDeleteMode (st : state) : state :=
  {| enteredDeleteKey := None;
     deleteModeClass := false;
     deleteModalError := deleteModalError st;
     checkboxes := (fun cb => (fst cb, false)) <$> checkboxes st;
     deleteSelectedDisabled := deleteSelectedDisabled st;
     activeModals := activeModals st;
     onConfirm := onConfirm st;
     deleteResultTitle := deleteResultTitle st;
     deleteResultMessage := deleteResultMessage st |}.

Definition setModalError (text : string) (st : state) : state :=
  {| enteredDeleteKey := enteredDeleteKey st;
     deleteModeClass := deleteModeClass st;
     deleteModalError := text;
     checkboxes := checkboxes st;
     deleteSelectedDisabled := deleteSelectedDisabled st;
     activeModals := activeModals st;
     onConfirm := onConfirm st;
     deleteResultTitle := deleteResultTitle st;
     deleteResultMessage := deleteResultMessage st |}.

Definition setCheckboxes (cbs : list (string * bool)) (st : state) : state :=
  {| enteredDeleteKey := enteredDeleteKey st;
     deleteModeClass := deleteModeClass st;
     deleteModalError := deleteModalError st;
     checkboxes := cbs;
     deleteSelectedDisabled := deleteSelectedDisabled st;
     activeModals := activeModals st;
     onConfirm := onConfirm st;
     deleteResultTitle := deleteResultTitle st;
     deleteResultMessage := deleteResultMessage st |}.

Definition setOnConfirm (cb : option (list string)) (st : state)
  : state :=
  {| enteredDeleteKey := enteredDeleteKey st;
     deleteModeClass := deleteModeClass st;
     deleteModalError := deleteModalError st;
     checkboxes := checkboxes st;
     deleteSelectedDisabled := deleteSelectedDisabled st;
     activeModals := activeModals st;
     onConfirm := cb;
     deleteResultTitle := deleteResultTitle st;
     deleteResultMessage := deleteResultMessage st |}.

Definition setResult (title : string) (message : result_message)
    (st : state) : state :=
  {| enteredDeleteKey := enteredDeleteKey st;
     deleteModeClass := deleteModeClass st;
     deleteModalError := deleteModalError st;
     checkboxes := checkboxes st;
     deleteSelectedDisabled := deleteSelectedDisabled st;
     activeModals := activeModals st;
     onConfirm := onConfirm st;
     deleteResultTitle := title;
     deleteResultMessage := message |}.

(** The text of a header value: a string as it is, and [null] as the
    four letters the conversion to a byte string makes of it. *)
Definition header_text (value : option string) : string :=
  match value with
  | Some text => text
  | None => "null"
  end.

(** [performDelete(itemsToDelete, deleteKey)]. *)
Definition performDelete (itemsToDelete : list string)
    (deleteKey : option string) (network : delete_fetch) (st : state)
  : Eff state :=
  (emit (HttpPost "/api/delete-items"
           [("Content-Type"%string, "application/json"%string);
            ("X-Delete-Key"%string, header_text deleteKey)]
           (DeleteItemsBody itemsToDelete)) ;;
   match network with
   | DeleteAnswer result =>
       let message :=
         ResultCounts (default 0 (success_count result))
           (default 0 (fail_count result))
           (default [] (errors result)) in
       let title :=
         if Nat.ltb 0 (default 0 (fail_count result))
         then "Deletion Complete (with errors)"%string
         else "Deletion Successful"%string in
       ret (show "deleteResultModal" (setResult title message st))
   | DeleteThrows message =>
       ret (show "deleteResultModal"
              (setResult "Deletion Error" (ResultError message) st))
   end)%eff.

(** The listeners.  [setupDeleteMode] installs none of its own when
    [config.deleteKeyConfigured] is false, and a disabled button does
    not click. *)
Definition handle (cfg : config) (a : action) (st : state) : Eff state :=
  match a with
  | ClickConfirmBtn network =>
      (* installed by ConfirmDialog.show; the callback is
         () => this.performDelete(itemsToDelete, enteredDeleteKey) *)
      match onConfirm st with
      | Some itemsToDelete =>
          let st := hide "confirmDeleteModal" st in
          performDelete itemsToDelete (enteredDeleteKey st) network st
      | None => ret st
      end
  | ClickConfirmCancelBtn =>
      match onConfirm st with
      | Some _ => ret (hide "confirmDeleteModal" st)
      | None => ret st
      end
  | _ =>
      if negb (deleteKeyConfigured cfg) then ret st else
      match a with
      | ClickDeleteModeBtn => ret (show "deleteKeyModal" st)
      | ClickDeleteModalCancelBtn => ret (hide "deleteKeyModal" st)
      | ClickDeleteModalSubmitBtn keyAttempt =>
          let st := setModalError "" st in
          if Js.truthy keyAttempt && Nat.ltb 0 (String.length keyAttempt)
          then ret (enterDeleteMode keyAttempt st)
          else ret (setModalError "Key cannot be empty." st)
      | ClickCancelDeleteModeBtn => ret (exitDeleteMode st)
      | ChangeCheckbox index checked =>
          let cbs :=
            match checkboxes st !! index with
            | Some cb => <[ index := (fst cb, checked) ]> (checkboxes st)
            | None => checkboxes st
            end in
          ret (checkAnyCheckboxSelected (setCheckboxes cbs st))
      | ClickDeleteSelectedBtn =>
          if deleteSelectedDisabled st then ret st else
          let itemsToDelete := fst <$> filter (fun cb => snd cb = true)
                                          (checkboxes st) in
          if Nat.eqb (length itemsToDelete) 0 then ret st
          else
            match enteredDeleteKey st with
            | Some key =>
                if Js.truthy key
                then ret (show "confirmDeleteModal"
                            (setOnConfirm (Some itemsToDelete) st))
                else ret st
            | None => ret st
            end
      | ClickDeleteResultCloseBtn =>
          (emit LocationReload ;; ret (hide "deleteResultModal" st))%eff
      | _ => ret st
      end
  end.

(** The values of the checked boxes, [itemsToDelete] of the listener. *)
Definition selected (st : state) : list string :=
  fst <$> filter (fun cb => snd cb = true) (checkboxes st).

(** The user ticks or unticks a box. *)
Definition selecting (a : action) : Prop :=
  exists index checked, a = ChangeCheckbox index checked.

(** A sequence of user actions, handled one after the other. *)
Fixpoint handleAll (cfg : config) (actions : list action) (st : state)
  : Eff state :=
  match actions with
  | [] => ret st
  | a :: rest => bind (handle cfg a st) (fun st' => handleAll cfg rest st')
  end.

End DeleteMode.

(** ** The server side, as the specification describes it *)

Module Server.

(** Modelled from the spec: the normalized [Path] of the data model, "a
    normalized, slash-separated relative identifier" with no empty
    segment.  The server source that defines it is not among the client
    scripts; a path is the list of its segments, the served root being
    the empty list. *)
Definition Path : Type := list string.

(** Modelled from the spec: [ProtectionRegistry.isProtected], absent from
    the client scripts.  "Returns the key of the nearest ancestor
    (inclusive) with a [ProtectionEntry], or none"; the registry maps a
    path to its key, "at most one entry per exact path".  The lookup
    walks down from the root one segment at a time, as over a trie keyed
    by path segment, and remembers the key of the last entry met: the
    candidates for ["a/b/c"] are [a], [a/b] and [a/b/c]. *)
Fixpoint descend (reg : gmap (list string) string) (above below : Path)
    (nearest : option string) : option string :=
  match below with
  | [] => nearest
  | segment :: below' =>
      let here := above ++ [segment] in
      descend reg here below'
        (match reg !! here with
         | Some key => Some key
         | None => nearest
         end)
  end.

Definition isProtected (reg : gmap (list string) string) (path : Path)
  : option string :=
  descend reg [] path None.

(** Modelled from the spec: [setProtection], "inserts/overwrites the
    entry for [path]". *)
Definition setProtection (path : Path) (key : string)
    (reg : gmap (list string) string) : gmap (list string) string :=
  <[ path := key ]> reg.

(** Modelled from the spec: the storage backend behind the delete
    orchestrator, with the record of the mutations asked of it that a
    spy backend keeps.  Absent from the client scripts. *)
Record storage : Type := mkStorage {
  stored : gset (list string);
  mutations : list Path
}.

Inductive error : Type :=
| AuthDenied
| NotFound.

(** Modelled from the spec: [removeRecursive(path) -> ok|error];
    "directory removal must be recursive". *)
Definition removeRecursive (path : Path) (s : storage) : error + storage :=
  if decide (path ∈ stored s)
  then inr {| stored := filter (fun q => ¬ path `prefix_of` q) (stored s);
              mutations := mutations s ++ [path] |}
  else inl NotFound.

(** The result record [{successCount, failCount, errors}]. *)
Record delete_result : Type := mkResult {
  successCount : nat;
  failCount : nat;
  errors : list (Path * error)
}.

(** Modelled from the spec: the per-item part of the delete
    orchestrator; "attempt removal of each path independently; a failure
    on one path does not block attempting the rest", errors "preserving
    input order". *)
Fixpoint removeEach (items : list Path) (s : storage)
  : delete_result * storage :=
  match items with
  | [] => ({| successCount := 0; failCount := 0; errors := [] |}, s)
  | path :: rest =>
      match removeRecursive path s with
      | inr s1 =>
          let '(r, s2) := removeEach rest s1 in
          ({| successCount := S (successCount r);
              failCount := failCount r;
              errors := errors r |}, s2)
      | inl e =>
          let '(r, s2) := removeEach rest s in
          ({| successCount := successCount r;
              failCount := S (failCount r);
              errors := (path, e) :: errors r |}, s2)
      end
  end.

(** Modelled from the spec: the delete orchestrator, absent from the
    client scripts.  "Validate the key once (global delete key, not
    per-folder), then attempt removal of each path"; "a mismatched key
    fails the whole batch before any filesystem mutation".  The answer
    to a mismatch has "the same shape with errors populated": every item
    is reported as denied.  [configured] is the optional delete key of
    the configuration. *)
Definition deleteItems (configured : option string) (supplied : string)
    (items : list Path) (s : storage) : delete_result * storage :=
  if decide (configured = Some supplied)
  then removeEach items s
  else ({| successCount := 0;
           failCount := length items;
           errors := (fun path => (path, AuthDenied)) <$> items |}, s).

End Server.

(** ** Reading traces *)

Module Observe.

Import Upload.

(** The requests of a trace. *)
Definition is_request (e : event) : bool :=
  match e with
  | HttpPost _ _ _ => true
  | _ => false
  end.

(** The single-file uploads of a trace. *)
Definition is_upload (e : event) : bool :=
  match e with
  | HttpPost _ _ (FileBody _) => true
  | _ => false
  end.

(** The protection-set calls of a trace. *)
Definition is_protection_call (e : event) : bool :=
  match e with
  | HttpPost _ _ (SetProtectionBody _ _ _) => true
  | _ => false
  end.

Definition requests (tr : list event) : list event := List.filter is_request tr.
Definition uploads (tr : list event) : list event := List.filter is_upload tr.
Definition protection_calls (tr : list event) : list event :=
  List.filter is_protection_call tr.

(** The progress displays of a trace, in order. *)
Definition display_of (e : event) : option progress_display :=
  match e with
  | ProgressUI d => Some d
  | _ => None
  end.

Definition displays (tr : list event) : list progress_display :=
  omap display_of tr.

(** The percentages shown, in order. *)
Definition percents (tr : list event) : list Z :=
  overallPercent <$> displays tr.

(** A transfer that ends with a status from 200 to 299. *)
Definition succeeded (run : xhr_run) : bool :=
  match finish run with
  | XhrLoad st => N.leb 200 st && N.leb st 299
  | XhrError | XhrAbort => false
  end.

(** The [loaded] values the progress callback receives for one request. *)
Definition reported (run : xhr_run) : list N :=
  loaded <$> List.filter lengthComputable (progress run).

(** The request [performUpload] sends for one file. *)
Definition upload_request (targetPath : string) (isFolderMode : bool)
    (key : string) (file : File) : event :=
  HttpPost ("/upload/" +:+ relPathOf targetPath isFolderMode file)
    [("X-Upload-Key"%string, key)] (FileBody file).

(** What the progress callback of [files[i]] shows for [loaded = l],
    [base] bytes being accounted to the files before it. *)
Definition shown (fl : Q -> Q) (files_length : nat) (grandTotal : N)
    (i : nat) (file : File) (base l : N) : progress_display :=
  {| overallPercent := percent fl (base + l) grandTotal;
     shownLoaded := (base + l)%N;
     shownGrandTotal := grandTotal;
     labelFile := name file;
     currentFile := i + 1;
     totalFiles := files_length |}.

(** The events of the loop from index [i] on: for each file its request,
    then one display per [loaded] value reported. *)
Fixpoint loop_trace (fl : Q -> Q) (net : nat -> xhr_run)
    (targetPath : string) (isFolderMode : bool) (key : string)
    (files_length : nat) (grandTotal : N)
    (i : nat) (rest : list File) (base : N) : list event :=
  match rest with
  | [] => []
  | file :: rest' =>
      upload_request targetPath isFolderMode key file
      :: (ProgressUI <$> (shown fl files_length grandTotal i file base
                            <$> reported (net i)))
      ++ loop_trace fl net targetPath isFolderMode key files_length
           grandTotal (S i) rest' (base + size file)%N
  end.

(** The runs of [n] requests numbered from [i]. *)
Definition runs (net : nat -> xhr_run) (i n : nat) : list xhr_run :=
  net <$> seq i n.

(** The target root of a batch: the trimmed target folder, or the
    current path when that is empty, without its outer slashes. *)
Definition targetRoot (cfg : config) (form : upload_form) : string :=
  Js.stripSlashes
    (Js.or_else (Js.trim (uploadTargetFolder form)) (currentPath cfg)).

(** The batch passes the three checks at the head of [performUpload]. *)
Definition starts (form : upload_form) : bool :=
  negb (Nat.eqb (length (files form)) 0)
  && Js.truthy (uploadFileKey form)
  && negb (uploadModeFolder form && enableProtection form
           && negb (Js.truthy (protectionPassword form))).

(** A path under the target root: the root, a slash and the path, or
    the path alone when the root is the empty string. *)
Definition under (root path : string) : string :=
  if Js.truthy root then root +:+ "/" +:+ path else path.

(** The string holds the character. *)
Fixpoint has_char (c : ascii) (s : string) : bool :=
  match s with
  | EmptyString => false
  | String c' s' => Ascii.eqb c' c || has_char c s'
  end.

(** The protection-set call for a folder root. *)
Definition protection_call (path password key : string) : event :=
  HttpPost "/api/set-path-protection"
    [("Content-Type"%string, "application/json"%string)]
    (SetProtectionBody (Some path) (Some password) key).

(** The counters of one iteration: [files[i]] counted as a success, or
    as a failure. *)
Definition counted_success (st st' : counters) : Prop :=
  successCount st' = S (successCount st) /\ failCount st' = failCount st.

Definition counted_failure (st st' : counters) : Prop :=
  successCount st' = successCount st /\ failCount st' = S (failCount st).

(** The counters a batch ends with. *)
Definition wins (net : nat -> xhr_run) (files : list File) : nat :=
  length (List.filter succeeded (runs net 0 (length files))).

Definition losses (net : nat -> xhr_run) (files : list File) : nat :=
  length (List.filter (fun r => negb (succeeded r))
            (runs net 0 (length files))).

(** The display of the final progress update. *)
Definition final_display (fl : Q -> Q) (files : list File)
  : progress_display :=
  {| overallPercent := percent fl (grandTotalOf files) (grandTotalOf files);
     shownLoaded := grandTotalOf files;
     shownGrandTotal := grandTotalOf files;
     labelFile := "Complete";
     currentFile := length files;
     totalFiles := length files |}.

(** The deferred protection-set call of a batch. *)
Definition protection_request (cfg : config) (form : upload_form) : event :=
  HttpPost "/api/set-path-protection"
    [("Content-Type"%string, "application/json"%string)]
    (SetProtectionBody
       (folderBasePathOf (targetRoot cfg form) (uploadModeFolder form)
          (files form))
       (Some (protectionPassword form))
       (uploadFileKey form)).

(** What follows the final progress update: the protection call, if
    any, with the warning when it rejects. *)
Definition protection_trace (cfg : config) (form : upload_form)
    (net : nat -> xhr_run) (protection : fetch_outcome) : list event :=
  if uploadModeFolder form && enableProtection form
     && Nat.ltb 0 (wins net (files form))
     && Js.truthy_opt (folderBasePathOf (targetRoot cfg form)
                         (uploadModeFolder form) (files form))
  then protection_request cfg form
       :: match protection with
          | FetchResponse _ => []
          | FetchRejects => [ConsoleWarn "Failed to set folder protection"]
          end
  else [].

(** The closing message and timer. *)
Definition closing_trace (cfg : config) (form : upload_form)
    (net : nat -> xhr_run) : list event :=
  if Nat.eqb (losses net (files form)) 0 then
    if String.eqb (targetRoot cfg form) (Js.stripSlashes (currentPath cfg))
    then [UploadText (TxtUploadComplete (wins net (files form)));
          ReloadAfter 1000]
    else [UploadText (TxtUploadSuccessful (wins net (files form)));
          HideModalAfter "uploadFileModal" 2000]
  else [UploadText (TxtUploadedFailed (wins net (files form))
                      (losses net (files form)))].

(** The cumulative byte counts the progress callbacks pass to
    [updateProgressUI] during the loop, from index [i] on. *)
Fixpoint loop_loadeds (net : nat -> xhr_run) (i : nat) (rest : list File)
    (base : N) : list N :=
  match rest with
  | [] => []
  | file :: rest' =>
      ((fun l => (base + l)%N) <$> reported (net i))
      ++ loop_loadeds net (S i) rest' (base + size file)%N
  end.

(** The progress events of every file report byte counts that do not
    decrease and do not exceed the size of the file. *)
Definition well_behaved (files : list File) (net : nat -> xhr_run) : Prop :=
  forall i file,
    files !! i = Some file ->
    Sorted N.le (reported (net i))
    /\ Forall (fun l => (l <= size file)%N) (reported (net i)).

(** *** Statements of the specification that the code does not meet *)

(** The protection call as the specification has it: in a batch with
    protection asked for, one call for the folder root exactly when a
    file succeeded. *)
Definition protects_iff_a_file_succeeded (fl : Q -> Q) (cfg : config)
    (form : upload_form) (net : nat -> xhr_run)
    (protection : fetch_outcome) : Prop :=
  starts form = true ->
  uploadModeFolder form = true ->
  enableProtection form = true ->
  let run := performUpload fl cfg form net protection in
  exists st,
    result_of run = Some st
    /\ (0 < successCount st ->
        exists path,
          protection_calls (trace_of run)
          = [protection_call path (protectionPassword form)
               (uploadFileKey form)])
    /\ (successCount st = 0 -> protection_calls (trace_of run) = []).

(** The upload targets as the specification has them: the target root,
    a slash and the declared relative path as it is. *)
Definition targets_keep_declared_path (fl : Q -> Q) (cfg : config)
    (form : upload_form) (net : nat -> xhr_run)
    (protection : fetch_outcome) : Prop :=
  starts form = true ->
  uploadModeFolder form = true ->
  forall i file,
    files form !! i = Some file ->
    webkitRelativePath file <> EmptyString ->
    uploads (trace_of (performUpload fl cfg form net protection)) !! i
    = Some (HttpPost
              ("/upload/" +:+ targetRoot cfg form +:+ "/"
                 +:+ webkitRelativePath file)
              [("X-Upload-Key"%string, uploadFileKey form)]
              (FileBody file)).

(** The final progress update as the specification has it: 100% for
    every batch. *)
Definition final_update_shows_100 (fl : Q -> Q) (cfg : config)
    (form : upload_form) (net : nat -> xhr_run)
    (protection : fetch_outcome) : Prop :=
  starts form = true ->
  exists d,
    last (displays (trace_of (performUpload fl cfg form net protection)))
    = Some d
    /\ overallPercent d = 100%Z.

End Observe.

(** ** A sample batch

    The scenario of the specification: three files of a folder [2024]
    uploaded under [photos] with protection asked for and password [x];
    two transfers succeed and one fails. *)

Module Sample.

Import Upload.

(** Doubles taken as exact: the rounding that changes nothing. *)
Definition exact (q : Q) : Q := q.

Definition cfg : config :=
  {| currentPath := "/photos/";
     deleteKeyConfigured := true;
     hiddenKeyConfigured := false;
     semanticSearchEnabled := false;
     isCurrentPathHidden := false |}.

Definition a_jpg : File := mkFile "a.jpg" 10 "2024/a.jpg".
Definition b_jpg : File := mkFile "b.jpg" 30 "2024/trip/b.jpg".
Definition c_jpg : File := mkFile "c.jpg" 0 "2024/c.jpg".

Definition form : upload_form :=
  {| files := [a_jpg; b_jpg; c_jpg];
     uploadFileKey := "k";
     uploadTargetFolder := "  ";
     uploadModeFolder := true;
     enableProtection := true;
     protectionPassword := "x" |}.

Definition net (i : nat) : xhr_run :=
  match i with
  | 0 => mkRun [mkProgress true 5 10; mkProgress true 10 10] (XhrLoad 200)
  | 1 => mkRun [mkProgress true 15 30; mkProgress false 20 0] XhrError
  | _ => mkRun [] (XhrLoad 201)
  end.

(** The same folder picked while the page shows the root, with a file
    whose name holds a backslash. *)
Definition root_cfg : config :=
  {| currentPath := "";
     deleteKeyConfigured := true;
     hiddenKeyConfigured := false;
     semanticSearchEnabled := false;
     isCurrentPathHidden := false |}.

Definition odd_jpg : File :=
  mkFile ("a" +:+ String Js.backslash "b.jpg") 7
         ("2024/a" +:+ String Js.backslash "b.jpg").

Definition odd_form : upload_form :=
  {| files := [odd_jpg];
     uploadFileKey := "k";
     uploadTargetFolder := "photos";
     uploadModeFolder := true;
     enableProtection := true;
     protectionPassword := "x" |}.

(** Files that declare no relative path, in a batch sent in folder mode
    with protection asked for. *)
Definition plain_txt : File := mkFile "plain.txt" 4 "".

Definition plain_form : upload_form :=
  {| files := [plain_txt];
     uploadFileKey := "k";
     uploadTargetFolder := "photos";
     uploadModeFolder := true;
     enableProtection := true;
     protectionPassword := "x" |}.

(** A network on which every transfer succeeds. *)
Definition fine (i : nat) : xhr_run := mkRun [] (XhrLoad 200).

(** A network on which every transfer fails. *)
Definition down (i : nat) : xhr_run := mkRun [] XhrError.

(** A batch of one empty file. *)
Definition empty_txt : File := mkFile "empty.txt" 0 "".

Definition empty_form : upload_form :=
  {| files := [empty_txt];
     uploadFileKey := "k";
     uploadTargetFolder := "";
     uploadModeFolder := false;
     enableProtection := false;
     protectionPassword := "" |}.

(** The listing page before delete mode: two boxes, none ticked. *)
Definition page : DeleteMode.state :=
  {| DeleteMode.enteredDeleteKey := None;
     DeleteMode.deleteModeClass := false;
     DeleteMode.deleteModalError := "";
     DeleteMode.checkboxes := [("a.txt"%string, false);
                               ("missing.txt"%string, false)];
     DeleteMode.deleteSelectedDisabled := true;
     DeleteMode.activeModals := {[ "deleteKeyModal"%string ]};
     DeleteMode.onConfirm := None;
     DeleteMode.deleteResultTitle := "";
     DeleteMode.deleteResultMessage := DeleteMode.NoMessage |}.

(** A served tree and a registry of protected folders. *)
Definition tree : Server.storage :=
  {| Server.stored := {[ ["a.txt"%string];
                         ["docs"%string];
                         ["docs"%string; "report.pdf"%string] ]};
     Server.mutations := [] |}.

Definition registry : gmap (list string) string :=
  <[ ["a"%string] := "outer"%string ]>
    (<[ ["a"%string; "b"%string] := "inner"%string ]> ∅).

End Sample.

(** ** Further readings of a batch *)

Module Batch.

Import Upload.

(** The timers of a trace. *)
Definition is_timer (e : event) : bool :=
  match e with
  | ReloadAfter _ | HideModalAfter _ _ => true
  | _ => false
  end.

Definition timers (tr : list event) : list event := List.filter is_timer tr.

(** The texts written to [uploadFileError], in order. *)
Definition text_of (e : event) : option upload_text :=
  match e with
  | UploadText t => Some t
  | _ => None
  end.

Definition texts (tr : list event) : list upload_text := omap text_of tr.

(** The first and the last character of a string. *)
Definition first_char (s : string) : option ascii :=
  match s with
  | EmptyString => None
  | String c _ => Some c
  end.

Fixpoint last_char (s : string) : option ascii :=
  match s with
  | EmptyString => None
  | String c EmptyString => Some c
  | String _ s' => last_char s'
  end.

End Batch.

(** ** More sample inputs *)

Module Cases.

Import Upload.

(** The sample batch with the key left empty. *)
Definition keyless_form : upload_form :=
  {| files := [Sample.a_jpg];
     uploadFileKey := "";
     uploadTargetFolder := "";
     uploadModeFolder := true;
     enableProtection := true;
     protectionPassword := "" |}.

(** Two files sent in files mode, one of which declares a relative path,
    with the protection box left ticked. *)
Definition loose_form : upload_form :=
  {| files := [Sample.a_jpg; Sample.plain_txt];
     uploadFileKey := "k";
     uploadTargetFolder := "/inbox//";
     uploadModeFolder := false;
     enableProtection := true;
     protectionPassword := "x" |}.

(** A page for which no delete key is configured. *)
Definition open_cfg : config :=
  {| currentPath := "";
     deleteKeyConfigured := false;
     hiddenKeyConfigured := false;
     semanticSearchEnabled := false;
     isCurrentPathHidden := false |}.

(** The listing page in delete mode, with the second box ticked. *)
Definition armed_page : DeleteMode.state :=
  {| DeleteMode.enteredDeleteKey := Some "wrong"%string;
     DeleteMode.deleteModeClass := true;
     DeleteMode.deleteModalError := "";
     DeleteMode.checkboxes := [("a.txt"%string, false);
                               ("missing.txt"%string, true)];
     DeleteMode.deleteSelectedDisabled := false;
     DeleteMode.activeModals := ∅;
     DeleteMode.onConfirm := None;
     DeleteMode.deleteResultTitle := "";
     DeleteMode.deleteResultMessage := DeleteMode.NoMessage |}.

End Cases.
(** ** Readings of the delete flow *)

Module DeleteView.

Import DeleteMode.

(** The request [performDelete] sends for a key that may be [null]. *)
Definition delete_request (items : list string) (key : option string)
  : event :=
  HttpPost "/api/delete-items"
    [("Content-Type"%string, "application/json"%string);
     ("X-Delete-Key"%string, header_text key)]
    (DeleteItemsBody items).

(** Nothing empty is held: the entered key, and the items the confirm
    button is armed with. *)
Definition sound (st : state) : Prop :=
  enteredDeleteKey st <> Some EmptyString
  /\ onConfirm st <> Some [].

(** Actions that neither open the confirm dialog nor answer it nor
    reload the page. *)
Definition aside (a : action) : Prop :=
  match a with
  | ClickDeleteSelectedBtn | ClickConfirmBtn _ | ClickDeleteResultCloseBtn =>
      False
  | _ => True
  end.

End DeleteView.
(** ** [ModalManager]

    The registry [this.modals] is kept in the order of its keys, which for
    the ids the page uses (none is an array index) is the order in which
    they were first registered.  The class [active] of the modal elements
    is a set of ids, an element being found by its id.  The [onClose]
    callbacks act on the variables of the page they close over; none of
    them calls back into [ModalManager]. *)

Module Modal.

Section Manager.

(** What the [onClose] callbacks act on. *)
Variable S : Type.

(** The [options] of [register]; a field left out is [None]. *)
Record options : Type := mkOptions {
  opt_onClose : option (S -> S);
  opt_closeOnEscape : option bool;
  opt_closeOnOverlay : option bool
}.

(** An entry of [this.modals]; its [element] is the one with the id. *)
Record modal : Type := mkModal {
  onClose : option (S -> S);
  closeOnEscape : bool;
  closeOnOverlay : bool
}.

Record manager : Type := mkManager {
  elements : gset string;          (* ids [getElementById] finds *)
  modals : list (string * modal);  (* [this.modals] *)
  active : gset string;            (* elements with class 'active' *)
  overlay : list string            (* click listeners added by [register] *)
}.

(** [x !== false]. *)
Definition not_false (o : option bool) : bool :=
  match o with
  | Some false => false
  | Some true | None => true
  end.

(** [this.modals[id]]. *)
Fixpoint get (id : string) (ms : list (string * modal)) : option modal :=
  match ms with
  | [] => None
  | (k, c) :: rest => if String.eqb k id then Some c else get id rest
  end.

(** [this.modals[id] = config]. *)
Fixpoint assign (id : string) (c : modal) (ms : list (string * modal))
  : list (string * modal) :=
  match ms with
  | [] => [(id, c)]
  | (k, c') :: rest =>
      if String.eqb k id then (k, c) :: rest
      else (k, c') :: assign id c rest
  end.

(** [Object.keys(this.modals)]. *)
Definition keys (m : manager) : list string := fst <$> modals m.

(** [register(id, options)]: the new entry and the manager, or [null]
    and the manager as it was when the document has no such element. *)
Definition register (id : string) (o : options) (m : manager)
  : option modal * manager :=
  if decide (id ∈ elements m) then
    let config :=
      {| onClose := opt_onClose o;
         closeOnEscape := not_false (opt_closeOnEscape o);
         closeOnOverlay := not_false (opt_closeOnOverlay o) |} in
    (Some config,
     {| elements := elements m;
        modals := assign id config (modals m);
        active := active m;
        overlay := if closeOnOverlay config then overlay m ++ [id]
                   else overlay m |})
  else (None, m).

(** [show(id)]. *)
Definition show (id : string) (m : manager) : manager :=
  match get id (modals m) with
  | Some _ =>
      {| elements := elements m;
         modals := modals m;
         active := active m ∪ {[ id ]};
         overlay := overlay m |}
  | None => m
  end.

(** [hide(id)]. *)
Definition hide (id : string) (w : manager * S) : manager * S :=
  let '(m, s) := w in
  match get id (modals m) with
  | Some config =>
      ({| elements := elements m;
          modals := modals m;
          active := active m ∖ {[ id ]};
          overlay := overlay m |},
       match onClose config with
       | Some callback => callback s
       | None => s
       end)
  | None => (m, s)
  end.

(** A click on the overlay of the modal [id] (the target is the modal
    element itself): every listener [register] added for it runs. *)
Definition overlayClick (id : string) (w : manager * S) : manager * S :=
  fold_left (fun w _ => hide id w)
    (List.filter (String.eqb id) (overlay (fst w))) w.

(** The [keydown] listener of [setupEscapeHandler], for the Escape key. *)
Definition escape (w : manager * S) : manager * S :=
  fold_left
    (fun w id =>
       match get id (modals (fst w)) with
       | Some config =>
           if closeOnEscape config && bool_decide (id ∈ active (fst w))
           then hide id w
           else w
       | None => w
       end)
    (keys (fst w)) w.

(** The manager of a page whose document has the elements [els] and
    none of them shown. *)
Definition start (els : gset string) : manager :=
  {| elements := els; modals := []; active := ∅; overlay := [] |}.

(** Calls and events, and a sequence of them. *)
Inductive op : Type :=
| Register (id : string) (o : options)
| Show (id : string)
| Hide (id : string)
| OverlayClick (id : string)
| Escape.

Definition step (o : op) (w : manager * S) : manager * S :=
  match o with
  | Register id opts => (snd (register id opts (fst w)), snd w)
  | Show id => (show id (fst w), snd w)
  | Hide id => hide id w
  | OverlayClick id => overlayClick id w
  | Escape => escape w
  end.

Definition run (ops : list op) (w : manager * S) : manager * S :=
  fold_left (fun w o => step o w) ops w.

(** Escape closes this modal: it is registered with [closeOnEscape] and
    shown. *)
Definition closes (m : manager) (id : string) : bool :=
  match get id (modals m) with
  | Some config => closeOnEscape config && bool_decide (id ∈ active m)
  | None => false
  end.

(** The [onClose] of the modal [id], applied. *)
Definition closed (m : manager) (s : S) (id : string) : S :=
  match get id (modals m) with
  | Some config =>
      match onClose config with
      | Some callback => callback s
      | None => s
      end
  | None => s
  end.

(** The registry is well formed: its ids are distinct and name elements
    of the document, and only registered modals are shown or have an
    overlay listener. *)
Definition well_formed (m : manager) : Prop :=
  NoDup (keys m)
  /\ (forall id, id ∈ keys m -> id ∈ elements m)
  /\ (forall id, id ∈ active m -> id ∈ keys m)
  /\ (forall id, id ∈ overlay m -> id ∈ keys m).

(** No modal of the registry has an [onClose]. *)
Definition quiet (m : manager) : Prop :=
  forall id config, get id (modals m) = Some config -> onClose config = None.

End Manager.

Arguments mkOptions {S} _ _ _.
Arguments opt_onClose {S} _.
Arguments opt_closeOnEscape {S} _.
Arguments opt_closeOnOverlay {S} _.
Arguments mkModal {S} _ _ _.
Arguments onClose {S} _.
Arguments closeOnEscape {S} _.
Arguments closeOnOverlay {S} _.
Arguments mkManager {S} _ _ _ _.
Arguments elements {S} _.
Arguments modals {S} _.
Arguments active {S} _.
Arguments overlay {S} _.
Arguments get {S} _ _.
Arguments assign {S} _ _ _.
Arguments keys {S} _.
Arguments register {S} _ _ _.
Arguments show {S} _ _.
Arguments hide {S} _ _.
Arguments overlayClick {S} _ _.
Arguments escape {S} _.
Arguments start {S} _.
Arguments Register {S} _ _.
Arguments Show {S} _.
Arguments Hide {S} _.
Arguments OverlayClick {S} _.
Arguments Escape {S}.
Arguments step {S} _ _.
Arguments run {S} _ _.
Arguments closes {S} _ _.
Arguments closed {S} _ _ _.
Arguments well_formed {S} _.
Arguments quiet {S} _.

End Modal.
(** ** The key modals of the page

    [setupAccessKeyModal], [setupHiddenToggle], [setupViewHiddenModal] and
    [setupCreateFolderModal].  The elements these functions look up are
    taken to be in the document, a text field that is read being a
    string; what is modelled of the document is what the listeners read
    back or what decides a request.  Each modal has its own state and its
    own part of the [ModalManager] registry. *)

Module Web.

(** The JSON values the page sends. *)
Inductive json : Type :=
| JNull
| JBool (b : bool)
| JString (s : string).

(** What a listener does to the world outside the document. *)
Inductive effect : Type :=
| Post (url : string) (headers : list (string * string))
       (body : list (string * json))
    (* fetch(url, { method: 'POST', headers, body: JSON.stringify(body) }) *)
| SetHref (href : option string)
    (* window.location.href = href; [None] is null *)
| Reload.
    (* location.reload() *)

(** [{ 'Content-Type': 'application/json' }]. *)
Definition json_headers : list (string * string) :=
  [("Content-Type"%string, "application/json"%string)].

(** The fields of the parsed answer the page reads; a field that is
    missing is [None]. *)
Record result : Type := mkResult {
  error : option string;
  message : option string;
  status : option string
}.

(** What [await fetch(...)] followed by [await response.json()] gives:
    the answer with [response.ok], or an exception with its message. *)
Inductive reply : Type :=
| Answers (ok : bool) (result : result)
| Throws (message : string).

(** [field || fallback] for a field of the answer. *)
Definition field_or (field : option string) (fallback : string) : string :=
  match field with
  | Some text => Js.or_else text fallback
  | None => fallback
  end.

(** The requests among the effects. *)
Definition is_post (e : effect) : bool :=
  match e with
  | Post _ _ _ => true
  | _ => false
  end.

Definition posts (es : list effect) : list effect := List.filter is_post es.

(** The configuration fields the key modals read besides those of
    [config]. *)
Record site : Type := mkSite {
  base : config;
  parentUrl : option string;     (* config.parentUrl *)
  showHiddenFiles : bool         (* config.showHiddenFiles *)
}.

(** A sequence of user actions handled one after the other, with the
    effects in order. *)
Definition run {W A : Type} (handle : A -> W -> W * list effect)
    (actions : list A) (w : W) : W * list effect :=
  fold_left
    (fun acc a =>
       let '(w', es) := handle a (fst acc) in (w', snd acc ++ es))
    actions (w, []).

End Web.

(** *** [setupHiddenToggle] *)

Module HiddenToggle.

Import Web.

Record state : Type := mkState {
  hiddenToggle : bool;                 (* hiddenToggle.checked *)
  hiddenModalKeyInput : string;        (* .value *)
  hiddenModalError : string;           (* .textContent *)
  hiddenModalActionText : string;      (* .textContent *)
  hiddenModalConfirmBtn : bool         (* .disabled *)
}.

Definition setToggle (checked : bool) (st : state) : state :=
  {| hiddenToggle := checked;
     hiddenModalKeyInput := hiddenModalKeyInput st;
     hiddenModalError := hiddenModalError st;
     hiddenModalActionText := hiddenModalActionText st;
     hiddenModalConfirmBtn := hiddenModalConfirmBtn st |}.

Definition setKeyInput (value : string) (st : state) : state :=
  {| hiddenToggle := hiddenToggle st;
     hiddenModalKeyInput := value;
     hiddenModalError := hiddenModalError st;
     hiddenModalActionText := hiddenModalActionText st;
     hiddenModalConfirmBtn := hiddenModalConfirmBtn st |}.

Definition setError (text : string) (st : state) : state :=
  {| hiddenToggle := hiddenToggle st;
     hiddenModalKeyInput := hiddenModalKeyInput st;
     hiddenModalError := text;
     hiddenModalActionText := hiddenModalActionText st;
     hiddenModalConfirmBtn := hiddenModalConfirmBtn st |}.

Definition setActionText (text : string) (st : state) : state :=
  {| hiddenToggle := hiddenToggle st;
     hiddenModalKeyInput := hiddenModalKeyInput st;
     hiddenModalError := hiddenModalError st;
     hiddenModalActionText := text;
     hiddenModalConfirmBtn := hiddenModalConfirmBtn st |}.

Definition setDisabled (disabled : bool) (st : state) : state :=
  {| hiddenToggle := hiddenToggle st;
     hiddenModalKeyInput := hiddenModalKeyInput st;
     hiddenModalError := hiddenModalError st;
     hiddenModalActionText := hiddenModalActionText st;
     hiddenModalConfirmBtn := disabled |}.

(** The world of the listeners: the manager and the document. *)
Definition world : Type := (Modal.manager state * state)%type.

(** What [setupHiddenToggle] registers: the modal, with an [onClose]
    that puts the checkbox back to what the server said. *)
Definition setup (cfg : site) (m : Modal.manager state) : Modal.manager state :=
  if negb (hiddenKeyConfigured (base cfg)) then m
  else
    snd (Modal.register "hiddenKeyModal"
           {| Modal.opt_onClose :=
                Some (setToggle (isCurrentPathHidden (base cfg)));
              Modal.opt_closeOnEscape := None;
              Modal.opt_closeOnOverlay := None |} m).

Inductive action : Type :=
| ChangeToggle (checked : bool)     (* the user flips the checkbox *)
| TypeKey (value : string)          (* the user edits the key field *)
| ClickCancel
| ClickConfirm (network : reply)
| PressEnter (network : reply)      (* Enter in the key field *)
| PressEscape
| ClickOverlay.

(** The click listener of [hiddenModalConfirmBtn]. *)
Definition confirm (cfg : site) (network : reply) (w : world)
  : world * list effect :=
  let '(m, st) := w in
  let key := hiddenModalKeyInput st in
  let shouldHide := hiddenToggle st in
  if negb (Js.truthy key) then ((m, setError "Key required." st), [])
  else
    let st := setDisabled true st in
    let request :=
      Post "/api/toggle-hidden" json_headers
        [("path"%string, JString (currentPath (base cfg)));
         ("key"%string, JString key);
         ("hide"%string, JBool shouldHide)] in
    match network with
    | Answers ok result =>
        if negb ok then
          (* throw new Error(result.error || 'Request failed') *)
          ((m, setDisabled false
                 (setError (field_or (error result) "Request failed") st)),
           [request])
        else
          ((m, st),
           [request;
            SetHref (Some (field_or (parentUrl cfg) "/"))])
    | Throws message =>
        ((m, setDisabled false (setError message st)), [request])
    end.

(** The request of the confirm listener. *)
Definition toggle_request (path key : string) (hide : bool) : effect :=
  Post "/api/toggle-hidden" json_headers
    [("path"%string, JString path); ("key"%string, JString key);
     ("hide"%string, JBool hide)].

(** The actions that close the modal without confirming. *)
Definition dismisses (a : action) : Prop :=
  a = ClickCancel \/ a = PressEscape \/ a = ClickOverlay.

(** The listeners; none is installed when no hidden key is configured,
    and a disabled button does not click. *)
Definition handle (cfg : site) (a : action) (w : world)
  : world * list effect :=
  let '(m, st) := w in
  match a with
  | PressEscape => (Modal.escape w, [])
  | ClickOverlay => (Modal.overlayClick "hiddenKeyModal" w, [])
  | TypeKey value => ((m, setKeyInput value st), [])
  | _ =>
      if negb (hiddenKeyConfigured (base cfg)) then
        match a with
        | ChangeToggle checked => ((m, setToggle checked st), [])
        | _ => (w, [])
        end
      else
        match a with
        | ChangeToggle isChecked =>
            let st := setToggle isChecked st in
            let actionText :=
              if isChecked
              then "This will hide the folder '/"
                     +:+ currentPath (base cfg) +:+ "' from listings."
              else "This will make the folder '/"
                     +:+ currentPath (base cfg) +:+ "' visible again." in
            let st := setActionText (actionText +:+ " Enter the key to confirm.") st in
            let st := setKeyInput "" st in
            let st := setError "" st in
            ((Modal.show "hiddenKeyModal" m, st), [])
        | ClickCancel => (Modal.hide "hiddenKeyModal" w, [])
        | ClickConfirm network =>
            if hiddenModalConfirmBtn st then (w, []) else confirm cfg network w
        | PressEnter network =>
            if negb (hiddenModalConfirmBtn st) then confirm cfg network w
            else (w, [])
        | _ => (w, [])
        end
  end.

End HiddenToggle.

(** *** [setupViewHiddenModal] *)

Module ViewHidden.

Import Web.

Record state : Type := mkState {
  viewHiddenKeyInput : string;
  viewHiddenError : string;
  viewHiddenTitle : string;
  viewHiddenText : string;
  viewHiddenConfirmBtn : bool          (* .disabled *)
}.

Definition setKeyInput (value : string) (st : state) : state :=
  {| viewHiddenKeyInput := value;
     viewHiddenError := viewHiddenError st;
     viewHiddenTitle := viewHiddenTitle st;
     viewHiddenText := viewHiddenText st;
     viewHiddenConfirmBtn := viewHiddenConfirmBtn st |}.

Definition setError (text : string) (st : state) : state :=
  {| viewHiddenKeyInput := viewHiddenKeyInput st;
     viewHiddenError := text;
     viewHiddenTitle := viewHiddenTitle st;
     viewHiddenText := viewHiddenText st;
     viewHiddenConfirmBtn := viewHiddenConfirmBtn st |}.

Definition setTitle (title text : string) (st : state) : state :=
  {| viewHiddenKeyInput := viewHiddenKeyInput st;
     viewHiddenError := viewHiddenError st;
     viewHiddenTitle := title;
     viewHiddenText := text;
     viewHiddenConfirmBtn := viewHiddenConfirmBtn st |}.

Definition setDisabled (disabled : bool) (st : state) : state :=
  {| viewHiddenKeyInput := viewHiddenKeyInput st;
     viewHiddenError := viewHiddenError st;
     viewHiddenTitle := viewHiddenTitle st;
     viewHiddenText := viewHiddenText st;
     viewHiddenConfirmBtn := disabled |}.

Definition world : Type := (Modal.manager state * state)%type.

Definition setup (cfg : site) (m : Modal.manager state) : Modal.manager state :=
  if negb (hiddenKeyConfigured (base cfg)) then m
  else snd (Modal.register "viewHiddenModal" (Modal.mkOptions None None None) m).

Inductive action : Type :=
| ClickViewHiddenBtn
| TypeKey (value : string)
| ClickCancel
| ClickConfirm (network : reply)
| PressEnter (network : reply)
| PressEscape
| ClickOverlay.

(** The click listener of [viewHiddenConfirmBtn]. *)
Definition confirm (network : reply) (w : world) : world * list effect :=
  let '(m, st) := w in
  let key := viewHiddenKeyInput st in
  if negb (Js.truthy key) then ((m, setError "Password required." st), [])
  else
    let request :=
      Post "/api/toggle-view-hidden" json_headers
        [("key"%string, JString key)] in
    (* disabled = true ... finally disabled = false *)
    match network with
    | Answers ok result =>
        if ok then ((m, setDisabled false st), [request; Reload])
        else
          ((m, setDisabled false
                 (setError (field_or (error result) "Failed.") st)),
           [request])
    | Throws _ =>
        ((m, setDisabled false (setError "Network error." st)), [request])
    end.

Definition handle (cfg : site) (a : action) (w : world)
  : world * list effect :=
  let '(m, st) := w in
  match a with
  | PressEscape => (Modal.escape w, [])
  | ClickOverlay => (Modal.overlayClick "viewHiddenModal" w, [])
  | TypeKey value => ((m, setKeyInput value st), [])
  | _ =>
      if negb (hiddenKeyConfigured (base cfg)) then (w, [])
      else
        match a with
        | ClickViewHiddenBtn =>
            let st :=
              if showHiddenFiles cfg
              then setTitle "Hide Hidden Folders"
                     "Enter password to hide hidden folders again." st
              else setTitle "View Hidden Folders"
                     "Enter password to see all hidden folders." st in
            let st := setKeyInput "" st in
            let st := setError "" st in
            ((Modal.show "viewHiddenModal" m, st), [])
        | ClickCancel => (Modal.hide "viewHiddenModal" w, [])
        | ClickConfirm network =>
            if viewHiddenConfirmBtn st then (w, []) else confirm network w
        | PressEnter network =>
            if negb (viewHiddenConfirmBtn st) then confirm network w
            else (w, [])
        | _ => (w, [])
        end
  end.

End ViewHidden.

(** *** [setupCreateFolderModal] *)

Module CreateFolder.

Import Web.

Record state : Type := mkState {
  newFolderName : string;
  createFolderKey : string;
  createFolderError : string;
  enableFolderProtection : bool;                  (* .checked *)
  folderProtectionPassword : string;
  folderProtectionPasswordContainer : bool;       (* has class 'hidden' *)
  createFolderConfirmBtn : bool                   (* .disabled *)
}.

Definition setName (value : string) (st : state) : state :=
  {| newFolderName := value;
     createFolderKey := createFolderKey st;
     createFolderError := createFolderError st;
     enableFolderProtection := enableFolderProtection st;
     folderProtectionPassword := folderProtectionPassword st;
     folderProtectionPasswordContainer := folderProtectionPasswordContainer st;
     createFolderConfirmBtn := createFolderConfirmBtn st |}.

Definition setKey (value : string) (st : state) : state :=
  {| newFolderName := newFolderName st;
     createFolderKey := value;
     createFolderError := createFolderError st;
     enableFolderProtection := enableFolderProtection st;
     folderProtectionPassword := folderProtectionPassword st;
     folderProtectionPasswordContainer := folderProtectionPasswordContainer st;
     createFolderConfirmBtn := createFolderConfirmBtn st |}.

Definition setError (text : string) (st : state) : state :=
  {| newFolderName := newFolderName st;
     createFolderKey := createFolderKey st;
     createFolderError := text;
     enableFolderProtection := enableFolderProtection st;
     folderProtectionPassword := folderProtectionPassword st;
     folderProtectionPasswordContainer := folderProtectionPasswordContainer st;
     createFolderConfirmBtn := createFolderConfirmBtn st |}.

Definition setProtection (checked : bool) (st : state) : state :=
  {| newFolderName := newFolderName st;
     createFolderKey := createFolderKey st;
     createFolderError := createFolderError st;
     enableFolderProtection := checked;
     folderProtectionPassword := folderProtectionPassword st;
     folderProtectionPasswordContainer := folderProtectionPasswordContainer st;
     createFolderConfirmBtn := createFolderConfirmBtn st |}.

Definition setPassword (value : string) (st : state) : state :=
  {| newFolderName := newFolderName st;
     createFolderKey := createFolderKey st;
     createFolderError := createFolderError st;
     enableFolderProtection := enableFolderProtection st;
     folderProtectionPassword := value;
     folderProtectionPasswordContainer := folderProtectionPasswordContainer st;
     createFolderConfirmBtn := createFolderConfirmBtn st |}.

Definition setContainerHidden (hidden : bool) (st : state) : state :=
  {| newFolderName := newFolderName st;
     createFolderKey := createFolderKey st;
     createFolderError := createFolderError st;
     enableFolderProtection := enableFolderProtection st;
     folderProtectionPassword := folderProtectionPassword st;
     folderProtectionPasswordContainer := hidden;
     createFolderConfirmBtn := createFolderConfirmBtn st |}.

Definition setDisabled (disabled : bool) (st : state) : state :=
  {| newFolderName := newFolderName st;
     createFolderKey := createFolderKey st;
     createFolderError := createFolderError st;
     enableFolderProtection := enableFolderProtection st;
     folderProtectionPassword := folderProtectionPassword st;
     folderProtectionPasswordContainer := folderProtectionPasswordContainer st;
     createFolderConfirmBtn := disabled |}.

Definition world : Type := (Modal.manager state * state)%type.

Definition setup (m : Modal.manager state) : Modal.manager state :=
  snd (Modal.register "createFolderModal" (Modal.mkOptions None None None) m).

Inductive action : Type :=
| ClickCreateFolderBtn
| TypeName (value : string)
| TypeKey (value : string)
| TypePassword (value : string)
| ChangeProtection (checked : bool)   (* the user flips the checkbox *)
| ClickCancel
| ClickConfirm (network : reply)
| PressEnter (network : reply)        (* Enter in the key or password field *)
| PressEscape
| ClickOverlay.

(** The request of the confirm listener. *)
Definition create_request (parent name key : string)
    (protectionPwd : option string) : effect :=
  Post "/api/create-folder" json_headers
    [("parent_path"%string, JString parent);
     ("folder_name"%string, JString name);
     ("key"%string, JString key);
     ("protection_password"%string,
      match protectionPwd with
      | Some password => JString password
      | None => JNull
      end)].

(** The click listener of [createFolderConfirmBtn]. *)
Definition confirm (cfg : site) (network : reply) (w : world)
  : world * list effect :=
  let '(m, st) := w in
  let name := Js.trim (newFolderName st) in
  let key := createFolderKey st in
  if negb (Js.truthy name) || negb (Js.truthy key) then
    ((m, setError "Name and Password required." st), [])
  else
    let protectFolder := enableFolderProtection st in
    let protectionPwd :=
      if protectFolder then Some (folderProtectionPassword st) else None in
    if protectFolder && negb (Js.truthy_opt protectionPwd) then
      ((m, setError "Protection password required." st), [])
    else
      let st := setError "" st in
      let request :=
        create_request (currentPath (base cfg)) name key protectionPwd in
      (* disabled = true ... finally disabled = false *)
      match network with
      | Answers ok result =>
          if ok then ((m, setDisabled false st), [request; Reload])
          else
            ((m, setDisabled false
                   (setError (field_or (error result) "Failed.") st)),
             [request])
      | Throws _ =>
          ((m, setDisabled false (setError "Network error." st)), [request])
      end.

Definition handle (cfg : site) (a : action) (w : world)
  : world * list effect :=
  let '(m, st) := w in
  match a with
  | ClickCreateFolderBtn =>
      let st := setName "" st in
      let st := setKey "" st in
      let st := setError "" st in
      let st := setProtection false st in
      let st := setPassword "" st in
      let st := setContainerHidden true st in
      ((Modal.show "createFolderModal" m, st), [])
  | TypeName value => ((m, setName value st), [])
  | TypeKey value => ((m, setKey value st), [])
  | TypePassword value => ((m, setPassword value st), [])
  | ChangeProtection checked =>
      let st := setProtection checked st in
      if checked then ((m, setContainerHidden false st), [])
      else ((m, setPassword "" (setContainerHidden true st)), [])
  | ClickCancel => (Modal.hide "createFolderModal" w, [])
  | ClickConfirm network =>
      if createFolderConfirmBtn st then (w, []) else confirm cfg network w
  | PressEnter network =>
      if negb (createFolderConfirmBtn st) then confirm cfg network w
      else (w, [])
  | PressEscape => (Modal.escape w, [])
  | ClickOverlay => (Modal.overlayClick "createFolderModal" w, [])
  end.

End CreateFolder.

(** *** [setupAccessKeyModal] *)

Module AccessKey.

Import Web.

Record state : Type := mkState {
  targetPathForModal : option string;   (* the closure variable; null is None *)
  modalKeyInput : string;
  modalError : string;
  modalSubmitBtn : bool                 (* .disabled *)
}.

Definition setTarget (target : option string) (st : state) : state :=
  {| targetPathForModal := target;
     modalKeyInput := modalKeyInput st;
     modalError := modalError st;
     modalSubmitBtn := modalSubmitBtn st |}.

Definition setKeyInput (value : string) (st : state) : state :=
  {| targetPathForModal := targetPathForModal st;
     modalKeyInput := value;
     modalError := modalError st;
     modalSubmitBtn := modalSubmitBtn st |}.

Definition setError (text : string) (st : state) : state :=
  {| targetPathForModal := targetPathForModal st;
     modalKeyInput := modalKeyInput st;
     modalError := text;
     modalSubmitBtn := modalSubmitBtn st |}.

Definition setDisabled (disabled : bool) (st : state) : state :=
  {| targetPathForModal := targetPathForModal st;
     modalKeyInput := modalKeyInput st;
     modalError := modalError st;
     modalSubmitBtn := disabled |}.

Definition world : Type := (Modal.manager state * state)%type.

(** [ModalManager.register('accessKeyModal', { onClose: ... })]. *)
Definition setup (m : Modal.manager state) : Modal.manager state :=
  snd (Modal.register "accessKeyModal"
         {| Modal.opt_onClose := Some (setTarget None);
            Modal.opt_closeOnEscape := None;
            Modal.opt_closeOnOverlay := None |} m).

Inductive action : Type :=
| ClickProtectedLink (href : option string)
    (* a click on a protected folder link; link.getAttribute('href') *)
| TypeKey (value : string)
| ClickCancel
| ClickSubmit (network : reply)
| PressEnter (network : reply)
| PressEscape
| ClickOverlay.

(** [showModal(targetPath, folderName)], the label of the folder apart. *)
Definition showModal (targetPath : option string) (w : world) : world :=
  let '(m, st) := w in
  let st := setTarget targetPath st in
  let st := setKeyInput "" st in
  let st := setError "" st in
  (Modal.show "accessKeyModal" m, st).

(** [hideModal()]. *)
Definition hideModal (w : world) : world :=
  let '(m, st) := Modal.hide "accessKeyModal" w in
  (m, setTarget None st).

(** The request of the submit listener. *)
Definition validate_request (path key : string) : effect :=
  Post "/validate-key" json_headers
    [("path"%string, JString path); ("key"%string, JString key)].

(** The click listener of [modalSubmitBtn]. *)
Definition submit (network : reply) (w : world) : world * list effect :=
  let '(m, st) := w in
  let enteredKey := modalKeyInput st in
  match targetPathForModal st with
  | None => (w, [])
  | Some target =>
      if negb (Js.truthy target) || negb (Js.truthy enteredKey) then (w, [])
      else
        let st := setError "" st in
        let request := validate_request target enteredKey in
        (* disabled = true ... finally disabled = false *)
        match network with
        | Answers ok result =>
            if ok && bool_decide (status result = Some "success"%string) then
              let '(m', st') := hideModal (m, st) in
              (* window.location.href = targetPathForModal, read after
                 hideModal() *)
              ((m', setDisabled false st'),
               [request; SetHref (targetPathForModal st')])
            else
              ((m, setDisabled false
                     (setError (field_or (message result) "Invalid key.") st)),
               [request])
        | Throws _ =>
            ((m, setDisabled false (setError "Network error." st)), [request])
        end
  end.

Definition handle (a : action) (w : world) : world * list effect :=
  let '(m, st) := w in
  match a with
  | ClickProtectedLink href => (showModal href w, [])
  | TypeKey value => ((m, setKeyInput value st), [])
  | ClickCancel => (hideModal w, [])
  | ClickSubmit network =>
      if modalSubmitBtn st then (w, []) else submit network w
  | PressEnter network =>
      if negb (modalSubmitBtn st) then submit network w else (w, [])
  | PressEscape => (Modal.escape w, [])
  | ClickOverlay => (Modal.overlayClick "accessKeyModal" w, [])
  end.

(** What the access-key modal may do to the world: ask the server to
    validate a key for a path, neither empty, and assign null to the
    address. *)
Definition harmless (e : effect) : Prop :=
  match e with
  | Post _ _ _ =>
      exists path key,
        path <> EmptyString /\ key <> EmptyString
        /\ e = validate_request path key
  | SetHref None => True
  | SetHref (Some _) => False
  | Reload => False
  end.

(** The actions that close the modal without submitting. *)
Definition dismisses (a : action) : Prop :=
  a = ClickCancel \/ a = PressEscape \/ a = ClickOverlay.

End AccessKey.
(** ** [setupSearchForm]

    [URLSearchParams] percent-encodes the UTF-8 bytes of the text: a
    code unit below 128 is one byte, a code unit from 128 to 255 is
    two. *)

Module Search.

(** The application/x-www-form-urlencoded serializer of
    [URLSearchParams.prototype.toString]. *)
Definition is_alnum (n : N) : bool :=
  (N.leb 48 n && N.leb n 57) || (N.leb 65 n && N.leb n 90)
  || (N.leb 97 n && N.leb n 122).

(** The bytes left as they are: letters, digits, [*], [-], [.] and [_]. *)
Definition unreserved (n : N) : bool :=
  is_alnum n || N.eqb n 42 || N.eqb n 45 || N.eqb n 46 || N.eqb n 95.

(** An upper-case hexadecimal digit. *)
Definition hex (n : N) : ascii :=
  if N.ltb n 10 then ascii_of_N (48 + n) else ascii_of_N (55 + n).

(** The UTF-8 bytes of a code unit below 256. *)
Definition utf8 (c : ascii) : list N :=
  let n := N_of_ascii c in
  if N.ltb n 128 then [n] else [(192 + n / 64)%N; (128 + n mod 64)%N].

Definition encode_byte (n : N) : string :=
  if unreserved n then String (ascii_of_N n) EmptyString
  else if N.eqb n 32 then "+"
  else String "%" (String (hex (n / 16)) (String (hex (n mod 16)) EmptyString)).

Definition encode_unit (c : ascii) : string :=
  fold_right (fun byte rest => encode_byte byte +:+ rest) EmptyString (utf8 c).

Fixpoint urlencode (s : string) : string :=
  match s with
  | EmptyString => EmptyString
  | String c s' => encode_unit c +:+ urlencode s'
  end.

(** [params.toString()]. *)
Fixpoint serialize (params : list (string * string)) : string :=
  match params with
  | [] => EmptyString
  | [(name, value)] => urlencode name +:+ "=" +:+ urlencode value
  | (name, value) :: rest =>
      urlencode name +:+ "=" +:+ urlencode value +:+ "&" +:+ serialize rest
  end.

(** [s.replace(/\/$/, '')]: one slash at the end is removed. *)
Fixpoint dropFinalSlash (s : string) : string :=
  match s with
  | EmptyString => EmptyString
  | String c EmptyString =>
      if Ascii.eqb c "/" then EmptyString else String c EmptyString
  | String c s' => String c (dropFinalSlash s')
  end.

(** What the submit listener reads. *)
Record submission : Type := mkSubmission {
  searchInput : string;             (* searchInput?.value *)
  smartSearchInput : string;        (* smartSearchInput?.value *)
  recursiveCheckbox : bool;         (* recursiveCheckbox?.checked *)
  submitter : option string;        (* event.submitter?.name *)
  pathname : string                 (* window.location.pathname *)
}.

(** The parameters the listener sets. *)
Definition parameters (cfg : config) (ev : submission)
  : list (string * string) :=
  let isSmartSubmit := bool_decide (submitter ev = Some "submit_smart"%string) in
  let isFilterSubmit := bool_decide (submitter ev = Some "submit_filter"%string) in
  let filenameTerm := Js.or_else (Js.trim (searchInput ev)) "" in
  let smartTerm := Js.or_else (Js.trim (smartSearchInput ev)) "" in
  if semanticSearchEnabled cfg && Js.truthy smartTerm
     && (isSmartSubmit || negb isFilterSubmit)
  then [("smart_query"%string, smartTerm)]
  else
    (if Js.truthy filenameTerm then [("search"%string, filenameTerm)] else [])
    ++ [("recursive"%string,
         if recursiveCheckbox ev then "true"%string else "false"%string)].

(** The submit listener of the search form: the address it assigns to
    [window.location.href]. *)
Definition submit (cfg : config) (ev : submission) : string :=
  let isSmartSubmit := bool_decide (submitter ev = Some "submit_smart"%string) in
  let isFilterSubmit := bool_decide (submitter ev = Some "submit_filter"%string) in
  let filenameTerm := Js.or_else (Js.trim (searchInput ev)) "" in
  let smartTerm := Js.or_else (Js.trim (smartSearchInput ev)) "" in
  let params := parameters cfg ev in
  let navigationTarget := pathname ev in
  if negb (Js.truthy filenameTerm) && negb (Js.truthy smartTerm)
     && negb isSmartSubmit && negb isFilterSubmit
  then navigationTarget
  else
    let paramString := serialize params in
    dropFinalSlash navigationTarget +:+ "/"
      +:+ (if Js.truthy paramString then "?" +:+ paramString else "").

(** The characters of a query that is safe to append: those left as they
    are, and the four the serializer writes itself. *)
Definition query_char (c : ascii) : bool :=
  unreserved (N_of_ascii c) || Ascii.eqb c "+" || Ascii.eqb c "%"
  || Ascii.eqb c "=" || Ascii.eqb c "&".

Fixpoint all_chars (p : ascii -> bool) (s : string) : bool :=
  match s with
  | EmptyString => true
  | String c s' => p c && all_chars p s'
  end.

Fixpoint count_char (c : ascii) (s : string) : nat :=
  match s with
  | EmptyString => 0
  | String c' s' => (if Ascii.eqb c' c then 1 else 0) + count_char c s'
  end.

End Search.

(** ** [ThemeManager] *)

Module Theme.

(** The two texts of the theme icon: the sun shown in the dark theme
    and the crescent moon shown in the light one. *)
Inductive glyph : Type :=
| Sun
| Moon.

Record state : Type := mkState {
  dark : bool;                  (* documentElement has class 'dark' *)
  themeIcon : option (option glyph);
    (* the element 'theme-icon', if the document has one, and the text
       the script wrote to it, if any yet *)
  theme : option string         (* localStorage.getItem('theme') *)
}.

(** [if (this.themeIcon) this.themeIcon.textContent = text]. *)
Definition write (text : glyph) (icon : option (option glyph))
  : option (option glyph) :=
  match icon with
  | Some _ => Some (Some text)
  | None => None
  end.

(** [setTheme(isDark)]. *)
Definition setTheme (isDark : bool) (st : state) : state :=
  if isDark
  then {| dark := true; themeIcon := write Sun (themeIcon st);
          theme := Some "dark"%string |}
  else {| dark := false; themeIcon := write Moon (themeIcon st);
          theme := Some "light"%string |}.

(** The theme [init] chooses:
    [savedTheme === 'dark' || (!savedTheme && prefersDark)]. *)
Definition initial (savedTheme : option string) (prefersDark : bool) : bool :=
  bool_decide (savedTheme = Some "dark"%string)
  || (negb (Js.truthy_opt savedTheme) && prefersDark).

(** [init()], [prefersDark] being what the media query matches. *)
Definition init (prefersDark : bool) (st : state) : state :=
  let savedTheme := theme st in
  setTheme (initial savedTheme prefersDark) st.

(** The click listener of the theme toggle. *)
Definition toggle (st : state) : state := setTheme (negb (dark st)) st.

(** A page load: the document is new, with the class [markup] gives it
    and an icon without text from the script if it has an icon at all;
    the storage is what it was, and [init] runs. *)
Definition load (prefersDark : bool) (markup : bool) (st : state) : state :=
  init prefersDark
    {| dark := markup;
       themeIcon := match themeIcon st with
                    | Some _ => Some None
                    | None => None
                    end;
       theme := theme st |}.

(** The storage, and the icon when there is one, say what the document
    shows. *)
Definition settled (st : state) : Prop :=
  theme st = Some (if dark st then "dark" else "light")%string
  /\ (forall text,
        themeIcon st = Some text ->
        text = Some (if dark st then Sun else Moon)).

Inductive op : Type :=
| Load (prefersDark markup : bool)
| Toggle.

Definition step (o : op) (st : state) : state :=
  match o with
  | Load prefersDark markup => load prefersDark markup st
  | Toggle => toggle st
  end.

Definition run (ops : list op) (st : state) : state :=
  fold_left (fun st o => step o st) ops st.

End Theme.
(** ** [setupUploadFileModal]

    The form of the upload modal is the [upload_form] that
    [performUpload] reads; the elements are taken to be in the document.
    The text of [uploadFileError], which only the user reads, is left to
    the trace of [performUpload]. *)

Module UploadModal.

Import Upload.

Record state : Type := mkState {
  form : upload_form;
  uploadModeFiles : bool;               (* uploadModeFiles.checked *)
  multiple : bool;                      (* attributes of uploadFileInput *)
  webkitdirectory : bool;
  directory : bool;
  uploadFileInputLabel : string;        (* .textContent *)
  folderProtectionContainer : bool;     (* has class 'hidden' *)
  protectionPasswordContainer : bool    (* has class 'hidden' *)
}.

Definition setForm (f : upload_form) (st : state) : state :=
  {| form := f;
     uploadModeFiles := uploadModeFiles st;
     multiple := multiple st;
     webkitdirectory := webkitdirectory st;
     directory := directory st;
     uploadFileInputLabel := uploadFileInputLabel st;
     folderProtectionContainer := folderProtectionContainer st;
     protectionPasswordContainer := protectionPasswordContainer st |}.

Definition setFiles (fs : list File) (f : upload_form) : upload_form :=
  {| files := fs;
     uploadFileKey := uploadFileKey f;
     uploadTargetFolder := uploadTargetFolder f;
     uploadModeFolder := uploadModeFolder f;
     enableProtection := enableProtection f;
     protectionPassword := protectionPassword f |}.

Definition setKey (value : string) (f : upload_form) : upload_form :=
  {| files := files f;
     uploadFileKey := value;
     uploadTargetFolder := uploadTargetFolder f;
     uploadModeFolder := uploadModeFolder f;
     enableProtection := enableProtection f;
     protectionPassword := protectionPassword f |}.

Definition setTarget (value : string) (f : upload_form) : upload_form :=
  {| files := files f;
     uploadFileKey := uploadFileKey f;
     uploadTargetFolder := value;
     uploadModeFolder := uploadModeFolder f;
     enableProtection := enableProtection f;
     protectionPassword := protectionPassword f |}.

Definition setModeFolder (checked : bool) (f : upload_form) : upload_form :=
  {| files := files f;
     uploadFileKey := uploadFileKey f;
     uploadTargetFolder := uploadTargetFolder f;
     uploadModeFolder := checked;
     enableProtection := enableProtection f;
     protectionPassword := protectionPassword f |}.

Definition setProtection (checked : bool) (f : upload_form) : upload_form :=
  {| files := files f;
     uploadFileKey := uploadFileKey f;
     uploadTargetFolder := uploadTargetFolder f;
     uploadModeFolder := uploadModeFolder f;
     enableProtection := checked;
     protectionPassword := protectionPassword f |}.

Definition setPassword (value : string) (f : upload_form) : upload_form :=
  {| files := files f;
     uploadFileKey := uploadFileKey f;
     uploadTargetFolder := uploadTargetFolder f;
     uploadModeFolder := uploadModeFolder f;
     enableProtection := enableProtection f;
     protectionPassword := value |}.

Definition setModeFiles (checked : bool) (st : state) : state :=
  {| form := form st;
     uploadModeFiles := checked;
     multiple := multiple st;
     webkitdirectory := webkitdirectory st;
     directory := directory st;
     uploadFileInputLabel := uploadFileInputLabel st;
     folderProtectionContainer := folderProtectionContainer st;
     protectionPasswordContainer := protectionPasswordContainer st |}.

(** The three attributes of the file input, set or removed together. *)
Definition setPicker (folder : bool) (st : state) : state :=
  {| form := form st;
     uploadModeFiles := uploadModeFiles st;
     multiple := negb folder;
     webkitdirectory := folder;
     directory := folder;
     uploadFileInputLabel := uploadFileInputLabel st;
     folderProtectionContainer := folderProtectionContainer st;
     protectionPasswordContainer := protectionPasswordContainer st |}.

Definition setLabel (text : string) (st : state) : state :=
  {| form := form st;
     uploadModeFiles := uploadModeFiles st;
     multiple := multiple st;
     webkitdirectory := webkitdirectory st;
     directory := directory st;
     uploadFileInputLabel := text;
     folderProtectionContainer := folderProtectionContainer st;
     protectionPasswordContainer := protectionPasswordContainer st |}.

Definition setFolderContainerHidden (hidden : bool) (st : state) : state :=
  {| form := form st;
     uploadModeFiles := uploadModeFiles st;
     multiple := multiple st;
     webkitdirectory := webkitdirectory st;
     directory := directory st;
     uploadFileInputLabel := uploadFileInputLabel st;
     folderProtectionContainer := hidden;
     protectionPasswordContainer := protectionPasswordContainer st |}.

Definition setPasswordContainerHidden (hidden : bool) (st : state) : state :=
  {| form := form st;
     uploadModeFiles := uploadModeFiles st;
     multiple := multiple st;
     webkitdirectory := webkitdirectory st;
     directory := directory st;
     uploadFileInputLabel := uploadFileInputLabel st;
     folderProtectionContainer := folderProtectionContainer st;
     protectionPasswordContainer := hidden |}.

(** [toggleUploadMode()]. *)
Definition toggleUploadMode (st : state) : state :=
  let isFolderMode := uploadModeFolder (form st) in
  let st := setPicker isFolderMode st in
  let st :=
    setLabel (if isFolderMode then "Select Folder" else "Select File(s)") st in
  if isFolderMode then setFolderContainerHidden false st
  else
    let st := setFolderContainerHidden true st in
    let st := setForm (setProtection false (form st)) st in
    let st := setPasswordContainerHidden true st in
    setForm (setPassword "" (form st)) st.

Definition world : Type := (Modal.manager state * state)%type.

Definition setup (m : Modal.manager state) : Modal.manager state :=
  snd (Modal.register "uploadFileModal" (Modal.mkOptions None None None) m).

Inductive action : Type :=
| ClickUploadFileBtn
| ChangeMode (filesChecked folderChecked : bool)
    (* a change of either radio button, which leaves them checked so *)
| ChangeProtection (checked : bool)    (* the user flips the checkbox *)
| ChooseFiles (chosen : list File)     (* the user picks in the file input *)
| TypeKey (value : string)
| TypeTarget (value : string)
| TypePassword (value : string)
| ClickCancel
| PressEscape
| ClickOverlay.

(** The listeners of the form. *)
Definition handle (cfg : config) (a : action) (w : world) : world :=
  let '(m, st) := w in
  match a with
  | ClickUploadFileBtn =>
      let st := setForm (setFiles [] (form st)) st in
      let st := setForm (setKey "" (form st)) st in
      let st := setForm (setProtection false (form st)) st in
      let st := setPasswordContainerHidden true st in
      let st := setForm (setPassword "" (form st)) st in
      let st := setModeFiles true st in
      let st := setForm (setModeFolder false (form st)) st in
      let st := toggleUploadMode st in
      let st := setForm (setTarget (currentPath cfg) (form st)) st in
      (Modal.show "uploadFileModal" m, st)
  | ChangeMode filesChecked folderChecked =>
      let st := setModeFiles filesChecked st in
      let st := setForm (setModeFolder folderChecked (form st)) st in
      (m, toggleUploadMode st)
  | ChangeProtection checked =>
      let st := setForm (setProtection checked (form st)) st in
      if checked then (m, setPasswordContainerHidden false st)
      else
        let st := setPasswordContainerHidden true st in
        (m, setForm (setPassword "" (form st)) st)
  | ChooseFiles chosen => (m, setForm (setFiles chosen (form st)) st)
  | TypeKey value => (m, setForm (setKey value (form st)) st)
  | TypeTarget value => (m, setForm (setTarget value (form st)) st)
  | TypePassword value => (m, setForm (setPassword value (form st)) st)
  | ClickCancel => Modal.hide "uploadFileModal" w
  | PressEscape => Modal.escape w
  | ClickOverlay => Modal.overlayClick "uploadFileModal" w
  end.

Definition run (cfg : config) (actions : list action) (w : world) : world :=
  fold_left (fun w a => handle cfg a w) actions w.

(** The click listener of [uploadFileConfirmBtn]: [this.performUpload()]. *)
Definition confirm (fl : Q -> Q) (cfg : config) (net : nat -> xhr_run)
    (protection : fetch_outcome) (w : world) : Eff (option counters) :=
  performUpload fl cfg (form (snd w)) net protection.

(** What unticks the protection box: opening the modal and a change to
    files mode. *)
Definition unticks (a : action) : Prop :=
  a = ClickUploadFileBtn \/ exists filesChecked, a = ChangeMode filesChecked false.

End UploadModal.
(** ** Sample pages for the modals *)

Module Scenes.

(** A hidden folder shown to a session that sees hidden folders. *)
Definition hidden_cfg : config :=
  {| currentPath := "docs/internal";
     deleteKeyConfigured := false;
     hiddenKeyConfigured := true;
     semanticSearchEnabled := true;
     isCurrentPathHidden := true |}.

Definition hidden_site : Web.site :=
  {| Web.base := hidden_cfg; Web.parentUrl := None; Web.showHiddenFiles := true |}.

(** Three modals, of which [a] and [b] are shown and [b] does not close
    on Escape; each [onClose] writes its id down. *)
Definition three_modals : Modal.manager (list string) :=
  {| Modal.elements := {[ "a"%string; "b"%string; "c"%string ]};
     Modal.modals :=
       [("a"%string, Modal.mkModal (Some (cons "a"%string)) true true);
        ("b"%string, Modal.mkModal (Some (cons "b"%string)) false true);
        ("c"%string, Modal.mkModal (Some (cons "c"%string)) true true)];
     Modal.active := {[ "a"%string; "b"%string ]};
     Modal.overlay := ["a"%string; "b"%string; "c"%string] |}.

Definition toggle_page : HiddenToggle.state :=
  {| HiddenToggle.hiddenToggle := true;
     HiddenToggle.hiddenModalKeyInput := "left over";
     HiddenToggle.hiddenModalError := "";
     HiddenToggle.hiddenModalActionText := "";
     HiddenToggle.hiddenModalConfirmBtn := false |}.

Definition toggle_world : HiddenToggle.world :=
  (HiddenToggle.setup hidden_site
     (Modal.start {[ "hiddenKeyModal"%string ]}), toggle_page).

Definition view_world : ViewHidden.world :=
  (ViewHidden.setup hidden_site (Modal.start {[ "viewHiddenModal"%string ]}),
   {| ViewHidden.viewHiddenKeyInput := "left over";
      ViewHidden.viewHiddenError := "";
      ViewHidden.viewHiddenTitle := "";
      ViewHidden.viewHiddenText := "";
      ViewHidden.viewHiddenConfirmBtn := false |}).

Definition folder_world : CreateFolder.world :=
  (CreateFolder.setup (Modal.start {[ "createFolderModal"%string ]}),
   {| CreateFolder.newFolderName := "  reports ";
      CreateFolder.createFolderKey := "k";
      CreateFolder.createFolderError := "";
      CreateFolder.enableFolderProtection := false;
      CreateFolder.folderProtectionPassword := "stale";
      CreateFolder.folderProtectionPasswordContainer := true;
      CreateFolder.createFolderConfirmBtn := false |}).

Definition access_page : AccessKey.state :=
  {| AccessKey.targetPathForModal := None;
     AccessKey.modalKeyInput := "";
     AccessKey.modalError := "";
     AccessKey.modalSubmitBtn := false |}.

Definition access_world : AccessKey.world :=
  (AccessKey.setup (Modal.start {[ "accessKeyModal"%string ]}), access_page).

(** The upload modal with the sample folder batch filled in. *)
Definition upload_world : UploadModal.world :=
  (UploadModal.setup (Modal.start {[ "uploadFileModal"%string ]}),
   {| UploadModal.form := Sample.form;
      UploadModal.uploadModeFiles := false;
      UploadModal.multiple := false;
      UploadModal.webkitdirectory := true;
      UploadModal.directory := true;
      UploadModal.uploadFileInputLabel := "Select Folder";
      UploadModal.folderProtectionContainer := false;
      UploadModal.protectionPasswordContainer := false |}).

(** The answer of the server to a valid key. *)
Definition success : Web.result :=
  {| Web.error := None; Web.message := None;
     Web.status := Some "success"%string |}.

(** A visitor who last chose the dark theme. *)
Definition dark_visitor : Theme.state :=
  {| Theme.dark := false; Theme.themeIcon := Some None;
     Theme.theme := Some "dark"%string |}.

End Scenes.

(** * Properties *)

(** ** The trace monad *)

Lemma trace_bind {A B : Type} (m : Eff A) (k : A -> Eff B) :
  trace_of (bind m k) = trace_of m ++ trace_of (k (result_of m)).
Proof.
  unfold bind, trace_of, result_of.
  destruct m as [a t1]; simpl. destruct (k a) as [b t2]; reflexivity.
Qed.

Lemma result_bind {A B : Type} (m : Eff A) (k : A -> Eff B) :
  result_of (bind m k) = result_of (k (result_of m)).
Proof.
  unfold bind, result_of.
  destruct m as [a t1]; simpl. destruct (k a) as [b t2]; reflexivity.
Qed.

Lemma trace_ret {A : Type} (a : A) : trace_of (ret a) = [].
Proof. reflexivity. Qed.

Lemma result_ret {A : Type} (a : A) : result_of (ret a) = a.
Proof. reflexivity. Qed.

Lemma trace_emit (e : event) : trace_of (emit e) = [e].
Proof. reflexivity. Qed.

Lemma trace_forEach {A : Type} (f : A -> Eff unit) (xs : list A) :
  trace_of (forEach f xs) = concat ((fun x => trace_of (f x)) <$> xs).
Proof.
  induction xs as [|x xs IH]; [reflexivity|].
  simpl forEach. rewrite trace_bind, IH. reflexivity.
Qed.

#[local] Ltac eff_simpl :=
  repeat first
    [ rewrite trace_bind | rewrite result_bind | rewrite trace_ret
    | rewrite result_ret | rewrite trace_emit ].


Section UploadFacts.

Import Upload Observe.

Variable fl : Q -> Q.

Lemma uploadFileWithProgress_result run file url key cb :
  result_of (uploadFileWithProgress run file url key cb) =
  match finish run with
  | XhrLoad st =>
      Js.Fulfilled {| ok := N.leb 200 st && N.ltb st 300; status := st |}
  | XhrError => Js.Rejected "Network error"
  | XhrAbort => Js.Rejected "Upload aborted"
  end.
Proof.
  unfold uploadFileWithProgress. eff_simpl.
  destruct (finish run) as [st| |]; try reflexivity.
  destruct (N.leb 200 st && N.ltb st 300); reflexivity.
Qed.

Lemma uploadFileWithProgress_trace run file url key cb :
  trace_of (uploadFileWithProgress run file url key (Some cb)) =
  HttpPost url [("X-Upload-Key"%string, key)] (FileBody file)
  :: concat ((fun e => trace_of (cb (loaded e) (total e)))
               <$> List.filter lengthComputable (progress run)).
Proof.
  unfold uploadFileWithProgress. eff_simpl. simpl. f_equal.
  rewrite trace_forEach.
  replace (trace_of match finish run with
                    | XhrLoad st =>
                        if N.leb 200 st && N.ltb st 300
                        then ret (Js.Fulfilled {| ok := true; status := st |})
                        else ret (Js.Fulfilled {| ok := false; status := st |})
                    | XhrError => ret (Js.Rejected "Network error")
                    | XhrAbort => ret (Js.Rejected "Upload aborted")
                    end) with (@nil event).
  2:{ destruct (finish run) as [st| |]; try reflexivity.
      destruct (N.leb 200 st && N.ltb st 300); reflexivity. }
  rewrite app_nil_r.
  induction (progress run) as [|e es IH]; [reflexivity|].
  rewrite fmap_cons. simpl concat. rewrite IH.
  simpl List.filter. destruct (lengthComputable e); reflexivity.
Qed.

Lemma succeeded_iff run :
  succeeded run = true <->
  exists st, finish run = XhrLoad st /\ (200 <= st <= 299)%N.
Proof.
  unfold succeeded. destruct (finish run) as [st| |].
  - rewrite andb_true_iff, !N.leb_le. split.
    + intros H. exists st. split; [reflexivity | lia].
    + intros (st' & [= <-] & H). lia.
  - split; [discriminate | intros (? & [=] & _)].
  - split; [discriminate | intros (? & [=] & _)].
Qed.

Lemma ok_succeeded run file url key cb :
  match result_of (uploadFileWithProgress run file url key cb) with
  | Js.Fulfilled r => ok r
  | Js.Rejected _ => false
  end = succeeded run.
Proof.
  rewrite uploadFileWithProgress_result. unfold succeeded.
  destruct (finish run) as [st| |]; try reflexivity. simpl.
  f_equal. apply eq_true_iff_eq.
  rewrite N.ltb_lt, N.leb_le. lia.
Qed.

Section LoopFacts.

Variable net : nat -> xhr_run.
Variables (targetPath : string) (isFolderMode : bool) (key : string).
Variables (files_length : nat) (grandTotal : N).

Let step := uploadStep fl net targetPath isFolderMode key files_length grandTotal.
Let loop := uploadLoop fl net targetPath isFolderMode key files_length grandTotal.

Lemma uploadStep_result i file st :
  result_of (step i file st) =
  {| successCount := successCount st + (if succeeded (net i) then 1 else 0);
     failCount := failCount st + (if succeeded (net i) then 0 else 1);
     totalLoaded := (totalLoaded st + size file)%N |}.
Proof.
  unfold step, uploadStep. eff_simpl.
  pose proof (ok_succeeded (net i) file
                ("/upload/" +:+ relPathOf targetPath isFolderMode file) key
                (Some (fun loaded total =>
                         updateProgressUI fl (i + 1) files_length (name file)
                           loaded total (totalLoaded st + loaded)%N grandTotal)))
    as Hok.
  cbv zeta.
  destruct (result_of (uploadFileWithProgress _ _ _ _ _)) as [r|msg];
    rewrite <- Hok.
  - destruct (ok r); simpl; f_equal; lia.
  - simpl; f_equal; lia.
Qed.

Lemma uploadStep_trace i file st :
  trace_of (step i file st) =
  upload_request targetPath isFolderMode key file
  :: (ProgressUI <$> (shown fl files_length grandTotal i file (totalLoaded st)
                        <$> reported (net i))).
Proof.
  unfold step, uploadStep. cbv zeta. eff_simpl.
  rewrite uploadFileWithProgress_trace, app_nil_r.
  unfold upload_request. f_equal.
  unfold reported. induction (List.filter lengthComputable (progress (net i)))
    as [|e es IH]; [reflexivity|].
  rewrite !fmap_cons. change (concat (?x :: ?xs)) with (x ++ concat xs).
  rewrite IH. reflexivity.
Qed.

Lemma uploadLoop_result rest : forall i st,
  result_of (loop i rest st) =
  {| successCount :=
       successCount st + length (List.filter succeeded (runs net i (length rest)));
     failCount :=
       failCount st
       + length (List.filter (fun r => negb (succeeded r))
                   (runs net i (length rest)));
     totalLoaded := fold_left (fun acc file => (acc + size file)%N) rest
                      (totalLoaded st) |}.
Proof.
  induction rest as [|file rest IH]; intros i st.
  - destruct st; simpl. f_equal; lia.
  - unfold loop. simpl uploadLoop. rewrite result_bind.
    fold loop. rewrite IH. fold step. rewrite uploadStep_result.
    change (runs net i (length (file :: rest)))
      with (net i :: runs net (S i) (length rest)).
    cbn [List.filter successCount failCount totalLoaded fold_left].
    destruct (succeeded (net i)); cbn [negb length]; f_equal; lia.
Qed.

Lemma uploadLoop_trace rest : forall i st,
  trace_of (loop i rest st) =
  loop_trace fl net targetPath isFolderMode key files_length grandTotal
    i rest (totalLoaded st).
Proof.
  induction rest as [|file rest IH]; intros i st; [reflexivity|].
  unfold loop. simpl uploadLoop. rewrite trace_bind.
  fold loop. fold step. rewrite IH, uploadStep_trace, uploadStep_result.
  reflexivity.
Qed.

End LoopFacts.

(** A batch that passes the checks: its counters and its whole trace. *)
Lemma performUpload_starts cfg form net protection :
  starts form = true ->
  performUpload fl cfg form net protection =
  (Some {| successCount := wins net (files form);
           failCount := losses net (files form);
           totalLoaded := grandTotalOf (files form) |},
   UploadText TxtCleared
   :: loop_trace fl net (targetRoot cfg form) (uploadModeFolder form)
        (uploadFileKey form) (length (files form))
        (grandTotalOf (files form)) 0 (files form) 0
   ++ ProgressUI (final_display fl (files form))
   :: protection_trace cfg form net protection
   ++ closing_trace cfg form net).
Proof.
  unfold starts. rewrite !andb_true_iff, !negb_true_iff.
  intros [[Hfiles Hkey] Hpwd].
  rewrite (surjective_pairing (performUpload fl cfg form net protection)).
  change (fst ?m) with (result_of m). change (snd ?m) with (trace_of m).
  unfold performUpload. rewrite Hfiles, Hkey. cbn [negb].
  replace (uploadModeFolder form && enableProtection form
           && negb (Js.truthy_opt
                      (if uploadModeFolder form && enableProtection form
                       then Some (protectionPassword form) else None)))
    with false.
  2:{ destruct (uploadModeFolder form && enableProtection form);
        [simpl in *; congruence | reflexivity]. }
  fold (targetRoot cfg form). cbv zeta.
  eff_simpl. rewrite uploadLoop_result, uploadLoop_trace.
  cbn [successCount failCount totalLoaded Nat.add].
  fold (wins net (files form)). fold (losses net (files form)).
  f_equal.
  cbn [app]. f_equal. f_equal.
  rewrite app_nil_r.
  change (trace_of (updateProgressUI _ _ _ _ _ _ _ _))
    with [ProgressUI (final_display fl (files form))].
  cbn [app]. f_equal. f_equal.
  - unfold protection_trace, protection_request.
    destruct (uploadModeFolder form && enableProtection form); cbn [andb];
      [|reflexivity].
    destruct (Nat.ltb 0 (wins net (files form))); cbn [andb]; [|reflexivity].
    destruct (Js.truthy_opt _); [|reflexivity].
    destruct protection; reflexivity.
  - unfold closing_trace.
    destruct (Nat.eqb (losses net (files form)) 0); [|reflexivity].
    destruct (String.eqb _ _); reflexivity.
Qed.

(** A batch that fails a check sends nothing and shows no progress. *)
Lemma performUpload_rejected cfg form net protection :
  starts form = false ->
  result_of (performUpload fl cfg form net protection) = None
  /\ exists t, trace_of (performUpload fl cfg form net protection)
               = [UploadText t].
Proof.
  unfold starts, performUpload. intros H.
  destruct (Nat.eqb (length (files form)) 0); [split; eauto|].
  destruct (Js.truthy (uploadFileKey form)); [|split; eauto].
  cbn [negb andb] in H |- *.
  destruct (uploadModeFolder form && enableProtection form);
    cbn [andb negb Js.truthy_opt] in H |- *; [|discriminate].
  apply negb_false_iff in H. rewrite H. split; eauto.
Qed.

End UploadFacts.

Section TraceFacts.

Import Upload Observe.

Variable fl : Q -> Q.

Lemma filter_displays (p : event -> bool) (ds : list progress_display) :
  (forall d, p (ProgressUI d) = false) ->
  List.filter p (ProgressUI <$> ds) = [].
Proof.
  intros Hp. induction ds as [|d ds IH]; [reflexivity|].
  rewrite fmap_cons. cbn [List.filter]. rewrite Hp. exact IH.
Qed.

Lemma uploads_loop_trace net tp fm key n g rest : forall i base,
  uploads (loop_trace fl net tp fm key n g i rest base) =
  upload_request tp fm key <$> rest.
Proof.
  unfold uploads.
  induction rest as [|file rest IH]; intros i base; [reflexivity|].
  cbn [loop_trace List.filter upload_request is_upload].
  rewrite List.filter_app, filter_displays by reflexivity.
  rewrite fmap_cons. cbn [app]. f_equal. apply IH.
Qed.

Lemma protection_calls_loop_trace net tp fm key n g rest : forall i base,
  protection_calls (loop_trace fl net tp fm key n g i rest base) = [].
Proof.
  unfold protection_calls.
  induction rest as [|file rest IH]; intros i base; [reflexivity|].
  cbn [loop_trace List.filter upload_request is_protection_call].
  rewrite List.filter_app, filter_displays by reflexivity.
  cbn [app]. apply IH.
Qed.

Lemma requests_loop_trace net tp fm key n g rest : forall i base,
  requests (loop_trace fl net tp fm key n g i rest base) =
  upload_request tp fm key <$> rest.
Proof.
  unfold requests.
  induction rest as [|file rest IH]; intros i base; [reflexivity|].
  cbn [loop_trace List.filter upload_request is_request].
  rewrite List.filter_app, filter_displays by reflexivity.
  rewrite fmap_cons. cbn [app]. f_equal. apply IH.
Qed.

Lemma requests_closing cfg form net :
  requests (closing_trace cfg form net) = [].
Proof.
  unfold closing_trace.
  destruct (Nat.eqb _ 0); [destruct (String.eqb _ _)|]; reflexivity.
Qed.

Lemma protection_calls_closing cfg form net :
  protection_calls (closing_trace cfg form net) = [].
Proof.
  unfold closing_trace.
  destruct (Nat.eqb _ 0); [destruct (String.eqb _ _)|]; reflexivity.
Qed.

Lemma uploads_closing cfg form net :
  uploads (closing_trace cfg form net) = [].
Proof.
  unfold closing_trace.
  destruct (Nat.eqb _ 0); [destruct (String.eqb _ _)|]; reflexivity.
Qed.

Lemma uploads_protection cfg form net protection :
  uploads (protection_trace cfg form net protection) = [].
Proof.
  unfold protection_trace.
  destruct (_ && _); [destruct protection|]; reflexivity.
Qed.

Lemma wins_losses net files :
  wins net files + losses net files = length files.
Proof.
  assert (Hsplit : forall rs : list xhr_run,
             length (List.filter succeeded rs)
             + length (List.filter (fun r => negb (succeeded r)) rs)
             = length rs).
  { induction rs as [|r rs IH]; [reflexivity|].
    cbn [List.filter]. destruct (succeeded r); cbn [negb length]; lia. }
  unfold wins, losses, runs.
  rewrite Hsplit, length_fmap, length_seq. reflexivity.
Qed.

(** The uploads of a whole batch. *)
Lemma uploads_performUpload cfg form net protection :
  starts form = true ->
  uploads (trace_of (performUpload fl cfg form net protection)) =
  upload_request (targetRoot cfg form) (uploadModeFolder form)
    (uploadFileKey form) <$> files form.
Proof.
  intros Hs. rewrite (performUpload_starts fl) by exact Hs.
  unfold trace_of, uploads. cbn [snd List.filter is_upload].
  rewrite List.filter_app. cbn [List.filter is_upload].
  rewrite List.filter_app.
  fold (uploads (protection_trace cfg form net protection)).
  fold (uploads (closing_trace cfg form net)).
  rewrite uploads_protection, uploads_closing, !app_nil_r.
  apply uploads_loop_trace.
Qed.

End TraceFacts.

(** ** Counting and classifying the transfers *)

Section Batches.

Import Upload Observe.

Variable fl : Q -> Q.

(** C2. A batch that starts attempts every file of the input list
    exactly once, in order, and counts each attempt as a success or as
    a failure and never as both: when it ends, [successCount + failCount]
    is the number of files. *)
Theorem upload_counts_add_up cfg form net protection :
  starts form = true ->
  exists st,
    result_of (performUpload fl cfg form net protection) = Some st
    /\ successCount st + failCount st = length (files form)
    /\ successCount st
       = length (List.filter succeeded (runs net 0 (length (files form))))
    /\ failCount st
       = length (List.filter (fun r => negb (succeeded r))
                   (runs net 0 (length (files form))))
    /\ uploads (trace_of (performUpload fl cfg form net protection))
       = upload_request (targetRoot cfg form) (uploadModeFolder form)
           (uploadFileKey form) <$> files form.
Proof.
  intros Hs. eexists. split; [|split; [|split; [|split]]].
  - rewrite (performUpload_starts fl) by exact Hs. reflexivity.
  - apply wins_losses.
  - reflexivity.
  - reflexivity.
  - apply uploads_performUpload, Hs.
Qed.

(** C4. A transfer counts as a success exactly when it completes with a
    status from 200 to 299; any other status, a network error and an
    abort count as a failure.  Whatever the network does, the batch goes
    on: one request per file is sent, in the order of the list. *)
Theorem transfer_classified_and_batch_continues cfg form net protection :
  starts form = true ->
  (forall i file st,
      let st' :=
        result_of (uploadStep fl net (targetRoot cfg form)
                     (uploadModeFolder form) (uploadFileKey form)
                     (length (files form)) (grandTotalOf (files form))
                     i file st) in
      match finish (net i) with
      | XhrLoad status =>
          if decide (200 <= status <= 299)%N
          then counted_success st st'
          else counted_failure st st'
      | XhrError | XhrAbort => counted_failure st st'
      end)
  /\ uploads (trace_of (performUpload fl cfg form net protection))
     = upload_request (targetRoot cfg form) (uploadModeFolder form)
         (uploadFileKey form) <$> files form.
Proof.
  intros Hs. split; [|apply uploads_performUpload, Hs].
  intros i file st st'. subst st'. rewrite uploadStep_result.
  unfold succeeded, counted_success, counted_failure.
  destruct (finish (net i)) as [status| |];
    cbn [successCount failCount]; try (split; lia).
  destruct (decide (200 <= status <= 299)%N) as [Hin|Hout].
  - replace (N.leb 200 status && N.leb status 299) with true; [split; lia|].
    symmetry. apply andb_true_iff. rewrite !N.leb_le. exact Hin.
  - replace (N.leb 200 status && N.leb status 299) with false; [split; lia|].
    symmetry. apply andb_false_iff. rewrite !N.leb_gt. lia.
Qed.

End Batches.

Lemma upload_counts_add_up_witness :
  Observe.starts Sample.form = true /\
  exists st,
    result_of (Upload.performUpload Sample.exact Sample.cfg Sample.form
                 Sample.net Upload.FetchRejects) = Some st
    /\ Upload.successCount st + Upload.failCount st = 3
    /\ Upload.successCount st = 2
    /\ Upload.failCount st = 1
    /\ Observe.uploads
         (trace_of (Upload.performUpload Sample.exact Sample.cfg Sample.form
                      Sample.net Upload.FetchRejects))
       = [ HttpPost "/upload/photos/2024/a.jpg" [("X-Upload-Key"%string, "k"%string)]
             (FileBody Sample.a_jpg);
           HttpPost "/upload/photos/2024/trip/b.jpg" [("X-Upload-Key"%string, "k"%string)]
             (FileBody Sample.b_jpg);
           HttpPost "/upload/photos/2024/c.jpg" [("X-Upload-Key"%string, "k"%string)]
             (FileBody Sample.c_jpg) ].
Proof.
  split; [reflexivity|].
  apply (upload_counts_add_up Sample.exact Sample.cfg Sample.form Sample.net
           Upload.FetchRejects).
  reflexivity.
Defined.

Lemma transfer_classified_and_batch_continues_witness :
  Observe.starts Sample.form = true /\
  (forall i file st,
      let st' :=
        result_of (Upload.uploadStep Sample.exact Sample.net "photos" true "k"
                     3 40 i file st) in
      match Upload.finish (Sample.net i) with
      | Upload.XhrLoad status =>
          if decide (200 <= status <= 299)%N
          then Observe.counted_success st st'
          else Observe.counted_failure st st'
      | Upload.XhrError | Upload.XhrAbort => Observe.counted_failure st st'
      end)
  /\ Observe.uploads
       (trace_of (Upload.performUpload Sample.exact Sample.cfg Sample.form
                    Sample.net Upload.FetchRejects))
     = Observe.upload_request "photos" true "k" <$> Upload.files Sample.form.
Proof.
  split; [reflexivity|].
  apply (transfer_classified_and_batch_continues Sample.exact Sample.cfg
           Sample.form Sample.net Upload.FetchRejects).
  reflexivity.
Defined.

(** ** The deferred protection call and the upload targets *)

Section Protection.

Import Upload Observe.

Variable fl : Q -> Q.

Lemma protection_calls_performUpload cfg form net protection :
  starts form = true ->
  protection_calls (trace_of (performUpload fl cfg form net protection)) =
  if uploadModeFolder form && enableProtection form
     && Nat.ltb 0 (wins net (files form))
     && Js.truthy_opt (folderBasePathOf (targetRoot cfg form)
                         (uploadModeFolder form) (files form))
  then [protection_request cfg form]
  else [].
Proof.
  intros Hs. rewrite (performUpload_starts fl) by exact Hs.
  unfold trace_of, protection_calls.
  cbn [snd List.filter is_protection_call].
  rewrite List.filter_app. cbn [List.filter is_protection_call].
  rewrite List.filter_app.
  fold (protection_calls (closing_trace cfg form net)).
  fold (protection_calls
          (loop_trace fl net (targetRoot cfg form) (uploadModeFolder form)
             (uploadFileKey form) (length (files form))
             (grandTotalOf (files form)) 0 (files form) 0)).
  rewrite protection_calls_loop_trace, protection_calls_closing, app_nil_r.
  cbn [app]. unfold protection_trace.
  destruct (_ && _); [destruct protection|]; reflexivity.
Qed.

(** The folder root of a folder-mode batch, read off its first file. *)
Lemma folderBasePathOf_first tp (fs : list File) :
  folderBasePathOf tp true fs
  = match fs with
    | file0 :: _ =>
        if Js.truthy (webkitRelativePath file0)
        then Some (under tp
                     (Js.first
                        (Js.split "/"
                           (Js.replaceBackslashes (webkitRelativePath file0)))))
        else None
    | [] => None
    end.
Proof. destruct fs as [|file0 rest]; reflexivity. Qed.

(** C1, as the code has it.  In a batch sent in folder mode with
    protection asked for, every file is attempted first, one upload
    request each.  Then, after the final progress update, one
    protection-set call is issued when a file succeeded and a folder
    root was derived, that is when the first file declares a relative
    path that is not empty and the root built from its first segment is
    not the empty string; it is the last request of the batch and names
    that folder root, the key of the uploads and the protection
    password.  No call is issued otherwise, in particular when no file
    succeeded or the first file declares no relative path: the requests
    of the batch are then its uploads.  Whether the call resolves or
    rejects, the counters of the batch are the same. *)
Theorem protection_call_when_success_and_root cfg form net protection :
  starts form = true ->
  uploadModeFolder form = true ->
  enableProtection form = true ->
  let run := performUpload fl cfg form net protection in
  let declared :=
    match files form with
    | file0 :: _ => webkitRelativePath file0
    | [] => EmptyString
    end in
  let root :=
    under (targetRoot cfg form)
      (Js.first (Js.split "/" (Js.replaceBackslashes declared))) in
  let call :=
    protection_call root (protectionPassword form) (uploadFileKey form) in
  exists st,
    result_of run = Some st
    /\ successCount st = wins net (files form)
    /\ length (uploads (trace_of run)) = length (files form)
    /\ (0 < successCount st ->
        declared <> EmptyString ->
        root <> EmptyString ->
        protection_calls (trace_of run) = [call]
        /\ requests (trace_of run) = uploads (trace_of run) ++ [call]
        /\ exists before after,
             trace_of run
             = before ++ ProgressUI (final_display fl (files form))
                 :: call :: after
             /\ requests before = uploads (trace_of run)
             /\ requests after = [])
    /\ (successCount st = 0 \/ declared = EmptyString \/ root = EmptyString ->
        protection_calls (trace_of run) = []
        /\ requests (trace_of run) = uploads (trace_of run))
    /\ (forall protection',
          result_of (performUpload fl cfg form net protection') = Some st).
Proof.
  intros Hs Hfm Hep run declared root call.
  assert (Huploads :
    uploads (trace_of run)
    = upload_request (targetRoot cfg form) (uploadModeFolder form)
        (uploadFileKey form) <$> files form).
  { apply uploads_performUpload. exact Hs. }
  assert (Hbase :
    folderBasePathOf (targetRoot cfg form) (uploadModeFolder form) (files form)
    = if Js.truthy declared then Some root else None).
  { rewrite Hfm, folderBasePathOf_first. subst root declared.
    destruct (files form) as [|file0 rest]; reflexivity. }
  assert (Hissued :
    0 < wins net (files form) -> declared <> EmptyString ->
    root <> EmptyString ->
    protection_trace cfg form net protection
    = call :: match protection with
              | FetchResponse _ => []
              | FetchRejects => [ConsoleWarn "Failed to set folder protection"]
              end).
  { intros Hwin Hdeclared Hroot. unfold protection_trace, protection_request.
    rewrite Hbase, Hfm, Hep. apply Nat.ltb_lt in Hwin. rewrite Hwin.
    destruct declared as [|c declared']; [congruence|].
    cbn [Js.truthy andb Js.truthy_opt].
    destruct root as [|c' root']; [congruence|]. reflexivity. }
  assert (Hnone :
    wins net (files form) = 0 \/ declared = EmptyString
    \/ root = EmptyString ->
    protection_trace cfg form net protection = []).
  { intros Hno. unfold protection_trace. rewrite Hbase, Hfm, Hep.
    destruct Hno as [Hno|[Hno|Hno]].
    - rewrite Hno. reflexivity.
    - rewrite Hno, andb_false_r. reflexivity.
    - rewrite Hno. destruct (Js.truthy declared); rewrite andb_false_r;
        reflexivity. }
  rewrite Huploads. subst run.
  rewrite (performUpload_starts fl) by exact Hs.
  cbn [result_of trace_of fst snd successCount].
  eexists. split; [reflexivity|]. cbn [successCount].
  split; [reflexivity|]. split; [apply length_fmap|].
  assert (Hrequests : forall tail,
    requests tail = protection_calls tail ->
    requests
      (UploadText TxtCleared
       :: loop_trace fl net (targetRoot cfg form) (uploadModeFolder form)
            (uploadFileKey form) (length (files form))
            (grandTotalOf (files form)) 0 (files form) 0
       ++ ProgressUI (final_display fl (files form))
       :: tail ++ closing_trace cfg form net)
    = (upload_request (targetRoot cfg form) (uploadModeFolder form)
         (uploadFileKey form) <$> files form) ++ protection_calls tail
    /\ protection_calls
         (UploadText TxtCleared
          :: loop_trace fl net (targetRoot cfg form) (uploadModeFolder form)
               (uploadFileKey form) (length (files form))
               (grandTotalOf (files form)) 0 (files form) 0
          ++ ProgressUI (final_display fl (files form))
          :: tail ++ closing_trace cfg form net)
       = protection_calls tail).
  { intros tail Htail. split.
    - change (requests (UploadText TxtCleared :: ?t)) with (requests t).
      unfold requests at 1. rewrite List.filter_app.
      cbn [List.filter is_request]. rewrite List.filter_app.
      fold (requests tail). fold (requests (closing_trace cfg form net)).
      fold (requests
              (loop_trace fl net (targetRoot cfg form) (uploadModeFolder form)
                 (uploadFileKey form) (length (files form))
                 (grandTotalOf (files form)) 0 (files form) 0)).
      rewrite requests_loop_trace, requests_closing, app_nil_r, Htail.
      reflexivity.
    - change (protection_calls (UploadText TxtCleared :: ?t))
        with (protection_calls t).
      unfold protection_calls at 1. rewrite List.filter_app.
      cbn [List.filter is_protection_call]. rewrite List.filter_app.
      fold (protection_calls tail).
      fold (protection_calls (closing_trace cfg form net)).
      fold (protection_calls
              (loop_trace fl net (targetRoot cfg form) (uploadModeFolder form)
                 (uploadFileKey form) (length (files form))
                 (grandTotalOf (files form)) 0 (files form) 0)).
      rewrite protection_calls_loop_trace, protection_calls_closing,
        app_nil_r.
      reflexivity. }
  split; [|split].
  - intros Hwin Hdeclared Hroot.
    rewrite (Hissued Hwin Hdeclared Hroot).
    assert (Htail :
      requests (call :: match protection with
                        | FetchResponse _ => []
                        | FetchRejects =>
                            [ConsoleWarn "Failed to set folder protection"]
                        end)
      = protection_calls
          (call :: match protection with
                   | FetchResponse _ => []
                   | FetchRejects =>
                       [ConsoleWarn "Failed to set folder protection"]
                   end)
      /\ protection_calls
           (call :: match protection with
                    | FetchResponse _ => []
                    | FetchRejects =>
                        [ConsoleWarn "Failed to set folder protection"]
                    end) = [call]).
    { destruct protection; split; reflexivity. }
    destruct Htail as [Htail Hcalls].
    destruct (Hrequests _ Htail) as [Hreq Hprot].
    rewrite Hreq, Hprot, Hcalls.
    split; [reflexivity|]. split; [reflexivity|].
    eexists (UploadText TxtCleared :: _), _. split; [reflexivity|]. split.
    + change (requests (UploadText TxtCleared :: ?t)) with (requests t).
      apply requests_loop_trace.
    + unfold requests. rewrite List.filter_app.
      fold (requests (closing_trace cfg form net)).
      rewrite requests_closing, app_nil_r.
      destruct protection; reflexivity.
  - intros Hno. rewrite (Hnone Hno).
    destruct (Hrequests [] eq_refl) as [Hreq Hprot].
    rewrite Hreq, Hprot, app_nil_r. split; reflexivity.
  - intros protection'. rewrite (performUpload_starts fl) by exact Hs.
    reflexivity.
Qed.

End Protection.

Lemma protection_call_when_success_and_root_witness :
  Observe.starts Sample.form = true /\
  Upload.uploadModeFolder Sample.form = true /\
  Upload.enableProtection Sample.form = true /\
  let run := Upload.performUpload Sample.exact Sample.cfg Sample.form
               Sample.net Upload.FetchRejects in
  let declared := "2024/a.jpg"%string in
  let root := "photos/2024"%string in
  let call := Observe.protection_call root "x" "k" in
  exists st,
    result_of run = Some st
    /\ Upload.successCount st
       = Observe.wins Sample.net (Upload.files Sample.form)
    /\ length (Observe.uploads (trace_of run)) = 3
    /\ (0 < Upload.successCount st ->
        declared <> EmptyString ->
        root <> EmptyString ->
        Observe.protection_calls (trace_of run) = [call]
        /\ Observe.requests (trace_of run)
           = Observe.uploads (trace_of run) ++ [call]
        /\ exists before after,
             trace_of run
             = before
               ++ ProgressUI
                    (Observe.final_display Sample.exact
                       (Upload.files Sample.form))
               :: call :: after
             /\ Observe.requests before = Observe.uploads (trace_of run)
             /\ Observe.requests after = [])
    /\ (Upload.successCount st = 0 \/ declared = EmptyString
        \/ root = EmptyString ->
        Observe.protection_calls (trace_of run) = []
        /\ Observe.requests (trace_of run) = Observe.uploads (trace_of run))
    /\ (forall protection',
          result_of (Upload.performUpload Sample.exact Sample.cfg Sample.form
                       Sample.net protection') = Some st).
Proof.
  split; [reflexivity|]. split; [reflexivity|]. split; [reflexivity|].
  apply (protection_call_when_success_and_root Sample.exact Sample.cfg
           Sample.form Sample.net Upload.FetchRejects); reflexivity.
Defined.

(** C1, as the specification states it, fails on a batch sent in folder
    mode with protection asked for whose files declare no relative path:
    the file is uploaded, and no protection call is issued. *)
Lemma protection_without_folder_root_counterexample :
  ~ Observe.protects_iff_a_file_succeeded Sample.exact Sample.cfg
      Sample.plain_form Sample.fine (Upload.FetchResponse 200).
Proof.
  unfold Observe.protects_iff_a_file_succeeded. intros H.
  destruct (H eq_refl eq_refl eq_refl) as (st & Hst & Hcall & _).
  vm_compute in Hst. injection Hst as <-.
  destruct (Hcall ltac:(cbn; lia)) as (path & Hpath).
  vm_compute in Hpath. discriminate Hpath.
Qed.

Section Targets.

Import Upload Observe.

Variable fl : Q -> Q.

Lemma replaceBackslashes_id (s : string) :
  has_char Js.backslash s = false -> Js.replaceBackslashes s = s.
Proof.
  induction s as [|c s IH]; [reflexivity|].
  cbn [has_char Js.replaceBackslashes]. intros H.
  apply orb_false_iff in H as [Hc Hs]. rewrite Hc, IH by exact Hs.
  reflexivity.
Qed.

(** The first element of [s.split('/')] is what precedes the first
    slash of [s]. *)
Lemma first_split_spec (s : string) :
  let top := Js.first (Js.split "/" s) in
  has_char "/" top = false
  /\ (s = top \/ exists tail, s = top +:+ "/" +:+ tail).
Proof.
  induction s as [|c s [IHno IHcut]]; cbn zeta.
  - split; [reflexivity | left; reflexivity].
  - cbn [Js.split]. destruct (Ascii.eqb c "/") eqn:Hc.
    + apply Ascii.eqb_eq in Hc as ->. cbn. split; [reflexivity|].
      right. exists s. reflexivity.
    + unfold Js.first in *.
      destruct (Js.split "/" s) as [|h t]; cbn in *.
      * rewrite Hc. split; [reflexivity|].
        destruct IHcut as [->|(tail & ->)]; [left; reflexivity|].
        right. exists tail. reflexivity.
      * rewrite Hc, IHno. split; [reflexivity|].
        destruct IHcut as [->|(tail & ->)]; [left; reflexivity|].
        right. exists tail. reflexivity.
Qed.

(** C5, as the code has it.  In a folder-mode batch the target of a file
    that declares a relative path is that path, whole and with every
    backslash turned into a slash, under the target root (after the
    root and a slash, or alone when the root is empty); a declared path
    without backslashes is kept as it is.  The path of the protection
    call is, under the target root in the same way, the first segment of
    the first file's declared path, read after the same replacement. *)
Theorem folder_mode_targets cfg form net protection :
  starts form = true ->
  uploadModeFolder form = true ->
  let root := targetRoot cfg form in
  let run := performUpload fl cfg form net protection in
  (forall i file,
      files form !! i = Some file ->
      webkitRelativePath file <> EmptyString ->
      uploads (trace_of run) !! i
      = Some (HttpPost
                ("/upload/"
                   +:+ under root
                         (Js.replaceBackslashes (webkitRelativePath file)))
                [("X-Upload-Key"%string, uploadFileKey form)]
                (FileBody file)))
  /\ (forall file,
        has_char Js.backslash (webkitRelativePath file) = false ->
        Js.replaceBackslashes (webkitRelativePath file)
        = webkitRelativePath file)
  /\ (forall file0 rest e,
        files form = file0 :: rest ->
        webkitRelativePath file0 <> EmptyString ->
        e ∈ protection_calls (trace_of run) ->
        let declared := Js.replaceBackslashes (webkitRelativePath file0) in
        let top := Js.first (Js.split "/" declared) in
        e = protection_call (under root top) (protectionPassword form)
              (uploadFileKey form)
        /\ has_char "/" top = false
        /\ (declared = top \/ exists tail, declared = top +:+ "/" +:+ tail)).
Proof.
  intros Hs Hfm root run. subst root run. split; [|split].
  - intros i file Hi Hdecl.
    rewrite uploads_performUpload by exact Hs.
    rewrite list_lookup_fmap, Hi. cbn [fmap option_fmap option_map].
    unfold upload_request, relPathOf, under. rewrite Hfm.
    destruct (webkitRelativePath file) as [|c w]; [congruence|].
    reflexivity.
  - intros file. apply replaceBackslashes_id.
  - intros file0 rest e Hfiles Hdecl He declared top.
    split; [|apply first_split_spec].
    rewrite protection_calls_performUpload in He by exact Hs.
    destruct (_ && _); [|inversion He].
    apply list_elem_of_singleton in He as ->.
    unfold protection_request, protection_call, folderBasePathOf, under.
    rewrite Hfiles, Hfm.
    destruct (webkitRelativePath file0) as [|c w] eqn:Hw; [congruence|].
    subst declared top. reflexivity.
Qed.

End Targets.

Lemma folder_mode_targets_witness :
  Observe.starts Sample.odd_form = true /\
  Upload.uploadModeFolder Sample.odd_form = true /\
  let run := Upload.performUpload Sample.exact Sample.cfg Sample.odd_form
               Sample.fine Upload.FetchRejects in
  (forall i file,
      Upload.files Sample.odd_form !! i = Some file ->
      webkitRelativePath file <> EmptyString ->
      Observe.uploads (trace_of run) !! i
      = Some (HttpPost
                ("/upload/"
                   +:+ Observe.under "photos"
                         (Js.replaceBackslashes (webkitRelativePath file)))
                [("X-Upload-Key"%string, "k"%string)]
                (FileBody file)))
  /\ (forall file,
        Observe.has_char Js.backslash (webkitRelativePath file) = false ->
        Js.replaceBackslashes (webkitRelativePath file)
        = webkitRelativePath file)
  /\ (forall file0 rest e,
        Upload.files Sample.odd_form = file0 :: rest ->
        webkitRelativePath file0 <> EmptyString ->
        e ∈ Observe.protection_calls (trace_of run) ->
        let declared := Js.replaceBackslashes (webkitRelativePath file0) in
        let top := Js.first (Js.split "/" declared) in
        e = Observe.protection_call (Observe.under "photos" top) "x" "k"
        /\ Observe.has_char "/" top = false
        /\ (declared = top \/ exists tail, declared = top +:+ "/" +:+ tail)).
Proof.
  split; [reflexivity|]. split; [reflexivity|].
  apply (folder_mode_targets Sample.exact Sample.cfg Sample.odd_form
           Sample.fine Upload.FetchRejects); reflexivity.
Defined.

(** C5, as the specification states it, fails on a folder whose file has
    a backslash in its name: the declared path [2024/a\b.jpg] is uploaded
    to [photos/2024/a/b.jpg]. *)
Lemma declared_path_not_kept_counterexample :
  ~ Observe.targets_keep_declared_path Sample.exact Sample.cfg
      Sample.odd_form Sample.fine Upload.FetchRejects.
Proof.
  unfold Observe.targets_keep_declared_path. intros H.
  specialize (H eq_refl eq_refl 0 Sample.odd_jpg eq_refl).
  vm_compute in H. specialize (H ltac:(discriminate)). discriminate H.
Qed.

(** ** Progress *)

Section Progress.

Import Upload Observe.

Variable fl : Q -> Q.

(** Rounding to a double is monotone, and exact on the integers that a
    double holds exactly. *)
Hypothesis fl_monotone : forall x y : Q, (x <= y)%Q -> (fl x <= fl y)%Q.
Hypothesis fl_integer :
  forall z : Z, (Z.abs z <= 2 ^ 53)%Z -> (fl (inject_Z z) == inject_Z z)%Q.

Lemma fl_proper (x y : Q) : (x == y)%Q -> (fl x == fl y)%Q.
Proof.
  intros Hxy. apply Qle_antisym; apply fl_monotone; rewrite Hxy; apply Qle_refl.
Qed.

Lemma num_nonneg (n : N) : (0 <= Js.num n)%Q.
Proof.
  unfold Js.num. change 0%Q with (inject_Z 0). rewrite <- Zle_Qle. lia.
Qed.

Lemma num_le (a b : N) : (a <= b)%N -> (Js.num a <= Js.num b)%Q.
Proof. intros H. unfold Js.num. rewrite <- Zle_Qle. lia. Qed.

Lemma Math_round_le (x y : Q) :
  (x <= y)%Q -> (Js.Math_round x <= Js.Math_round y)%Z.
Proof.
  intros H. unfold Js.Math_round. apply Qfloor_resp_le.
  apply Qplus_le_l. exact H.
Qed.

(** The percentage grows with the bytes loaded. *)
Lemma percent_monotone (a b g : N) :
  (a <= b)%N -> (percent fl a g <= percent fl b g)%Z.
Proof.
  intros Hab. unfold percent. destruct (N.ltb 0 g); [|lia].
  apply Math_round_le, fl_monotone.
  apply Qmult_le_compat_r; [|discriminate].
  apply fl_monotone. unfold Qdiv.
  apply Qmult_le_compat_r; [apply num_le, Hab|].
  apply Qinv_le_0_compat, num_nonneg.
Qed.

(** All the bytes of a batch that has some are 100%. *)
Lemma percent_full (g : N) : (0 < g)%N -> percent fl g g = 100%Z.
Proof.
  intros Hg. unfold percent.
  rewrite (proj2 (N.ltb_lt 0 g) Hg).
  assert (Hone : (Js.num g / Js.num g == inject_Z 1)%Q).
  { unfold Qdiv. rewrite Qmult_inv_r; [reflexivity|].
    unfold Js.num, Qeq. cbn [Qnum Qden inject_Z]. lia. }
  assert (Hhundred : (fl (fl (Js.num g / Js.num g) * 100) == inject_Z 100)%Q).
  { rewrite <- (fl_integer 100) by (vm_compute; discriminate).
    apply fl_proper. rewrite (fl_proper _ _ Hone).
    rewrite fl_integer by (vm_compute; discriminate). reflexivity. }
  unfold Js.Math_round. rewrite Hhundred. reflexivity.
Qed.

Lemma displays_app (t1 t2 : list event) :
  displays (t1 ++ t2) = displays t1 ++ displays t2.
Proof. apply omap_app. Qed.

Lemma displays_ProgressUI (ds : list progress_display) :
  displays (ProgressUI <$> ds) = ds.
Proof.
  induction ds as [|d ds IH]; [reflexivity|].
  rewrite fmap_cons. unfold displays in *. cbn [omap list_omap display_of].
  f_equal. exact IH.
Qed.

Lemma percents_loop_trace net tp fm key n g rest : forall i base,
  percents (loop_trace fl net tp fm key n g i rest base) =
  (fun tl => percent fl tl g) <$> loop_loadeds net i rest base.
Proof.
  unfold percents.
  induction rest as [|file rest IH]; intros i base; [reflexivity|].
  cbn [loop_trace loop_loadeds].
  change (displays (?e :: ?t)) with (displays ([e] ++ t)).
  rewrite !displays_app, displays_ProgressUI, !fmap_app, IH.
  cbn [displays omap list_omap upload_request display_of app fmap list_fmap].
  f_equal. rewrite <- !list_fmap_compose. reflexivity.
Qed.

Lemma displays_performUpload cfg form net protection :
  starts form = true ->
  displays (trace_of (performUpload fl cfg form net protection)) =
  displays (loop_trace fl net (targetRoot cfg form) (uploadModeFolder form)
              (uploadFileKey form) (length (files form))
              (grandTotalOf (files form)) 0 (files form) 0)
  ++ [final_display fl (files form)].
Proof.
  intros Hs. rewrite (performUpload_starts fl) by exact Hs.
  unfold trace_of. cbn [snd].
  change (displays (?e :: ?t)) with (displays ([e] ++ t)).
  rewrite !displays_app.
  change (ProgressUI ?d :: ?t) with ([ProgressUI d] ++ t).
  rewrite !displays_app.
  replace (displays (protection_trace cfg form net protection))
    with (@nil progress_display).
  2:{ unfold protection_trace.
      destruct (_ && _); [destruct protection|]; reflexivity. }
  replace (displays (closing_trace cfg form net))
    with (@nil progress_display).
  2:{ unfold closing_trace.
      destruct (Nat.eqb _ 0); [destruct (String.eqb _ _)|]; reflexivity. }
  reflexivity.
Qed.

Lemma fold_sizes_ge (rest : list File) : forall base : N,
  (base <= fold_left (fun acc file => (acc + size file)%N) rest base)%N.
Proof.
  induction rest as [|file rest IH]; intros base; cbn [fold_left]; [lia|].
  specialize (IH (base + size file)%N). lia.
Qed.

(** During the loop the byte counts shown never decrease, and stay
    between what the earlier files account for and the grand total. *)
Lemma loop_loadeds_sorted net rest : forall i base,
  (forall j file,
      rest !! j = Some file ->
      Sorted N.le (reported (net (i + j)))
      /\ Forall (fun l => (l <= size file)%N) (reported (net (i + j)))) ->
  StronglySorted N.le (loop_loadeds net i rest base)
  /\ Forall (fun x =>
               (base <= x
                <= fold_left (fun acc file => (acc + size file)%N) rest base)%N)
            (loop_loadeds net i rest base).
Proof.
  induction rest as [|file rest IH]; intros i base Hnet.
  - split; constructor.
  - destruct (Hnet 0 file eq_refl) as [Hsorted Hbound].
    rewrite Nat.add_0_r in Hsorted, Hbound.
    destruct (IH (S i) (base + size file)%N) as [IHsorted IHbound].
    { intros j file' Hj. specialize (Hnet (S j) file' Hj).
      rewrite Nat.add_succ_r in Hnet. exact Hnet. }
    pose proof (fold_sizes_ge rest (base + size file)%N) as Hge.
    cbn [loop_loadeds fold_left]. split.
    + apply StronglySorted_app_2.
      * intros x1 x2 Hx1 Hx2.
        apply list_elem_of_fmap in Hx1 as (l & -> & Hl).
        rewrite Forall_forall in Hbound, IHbound.
        specialize (IHbound x2 Hx2). specialize (Hbound l Hl). lia.
      * apply (StronglySorted_fmap _ N.le); [intros; lia|].
        apply Sorted_StronglySorted; [intros x y z; lia | exact Hsorted].
      * exact IHsorted.
    + apply Forall_app. split.
      * rewrite Forall_fmap. eapply Forall_impl; [exact Hbound|].
        intros l Hl. unfold compose. cbn beta in Hl |- *. lia.
      * eapply Forall_impl; [exact IHbound|].
        intros x Hx. cbn beta in Hx |- *. lia.
Qed.

(** C3. Across all the progress updates of a batch, those of the
    progress events of each file in turn and the final one, the
    percentage shown never decreases, provided the progress events of
    each file report byte counts that do not decrease and do not exceed
    the size of the file. *)
Theorem percent_never_decreases cfg form net protection :
  starts form = true ->
  well_behaved (files form) net ->
  Sorted Z.le
    (percents (trace_of (performUpload fl cfg form net protection))).
Proof.
  intros Hs Hnet. unfold percents.
  rewrite displays_performUpload by exact Hs.
  rewrite fmap_app. fold (percents (loop_trace fl net (targetRoot cfg form)
    (uploadModeFolder form) (uploadFileKey form) (length (files form))
    (grandTotalOf (files form)) 0 (files form) 0)).
  rewrite percents_loop_trace.
  change (overallPercent <$> [final_display fl (files form)])
    with ((fun tl => percent fl tl (grandTotalOf (files form)))
            <$> [grandTotalOf (files form)]).
  rewrite <- fmap_app.
  apply StronglySorted_Sorted.
  apply (StronglySorted_fmap _ N.le); [intros a b; apply percent_monotone|].
  destruct (loop_loadeds_sorted net (files form) 0 0%N) as [Hsorted Hbound].
  { intros j file Hj. exact (Hnet j file Hj). }
  apply StronglySorted_app_2; [|exact Hsorted|repeat constructor].
  intros x1 x2 Hx1 Hx2. apply list_elem_of_singleton in Hx2 as ->.
  rewrite Forall_forall in Hbound. specialize (Hbound x1 Hx1).
  unfold grandTotalOf. lia.
Qed.

(** C8, as the code has it.  Every iteration adds the whole declared
    size of its file to the loaded-bytes counter, whether the transfer
    succeeded or failed, so that after the loop the counter is the grand
    total of the batch; the final progress update shows the grand total
    as loaded, at 100% when the grand total is positive and at 0% when
    it is zero. *)
Theorem loaded_counter_reaches_grand_total cfg form net protection :
  starts form = true ->
  let run := performUpload fl cfg form net protection in
  (forall i file st,
      totalLoaded
        (result_of (uploadStep fl net (targetRoot cfg form)
                      (uploadModeFolder form) (uploadFileKey form)
                      (length (files form)) (grandTotalOf (files form))
                      i file st))
      = (totalLoaded st + size file)%N)
  /\ exists st d,
       result_of run = Some st
       /\ totalLoaded st = grandTotalOf (files form)
       /\ last (displays (trace_of run)) = Some d
       /\ shownLoaded d = grandTotalOf (files form)
       /\ shownGrandTotal d = grandTotalOf (files form)
       /\ overallPercent d
          = if N.ltb 0 (grandTotalOf (files form)) then 100%Z else 0%Z.
Proof.
  intros Hs run. subst run. split.
  - intros i file st. rewrite uploadStep_result. reflexivity.
  - rewrite displays_performUpload by exact Hs.
    rewrite (performUpload_starts fl) by exact Hs.
    eexists. exists (final_display fl (files form)).
    split; [reflexivity|]. split; [reflexivity|].
    split; [apply last_snoc|]. split; [reflexivity|]. split; [reflexivity|].
    cbn [final_display overallPercent].
    destruct (N.ltb 0 (grandTotalOf (files form))) eqn:Hg.
    + apply percent_full, N.ltb_lt, Hg.
    + unfold percent. rewrite Hg. reflexivity.
Qed.

End Progress.

Section ZeroTotal.

Import Upload Observe.

Variable fl : Q -> Q.

Lemma grandTotalOf_empty_files (fs : list File) :
  Forall (fun file => size file = 0%N) fs -> grandTotalOf fs = 0%N.
Proof.
  unfold grandTotalOf. induction 1 as [|file fs Hfile _ IH]; [reflexivity|].
  cbn [fold_left]. rewrite Hfile. exact IH.
Qed.

(** C10. [updateProgressUI] does not divide by a grand total of zero:
    whatever the other arguments and whatever the rounding, it shows 0%.
    So does every progress update of a batch whose files are all empty. *)
Theorem zero_grand_total_shows_zero cfg form net protection :
  Forall (fun file => size file = 0%N) (files form) ->
  starts form = true ->
  (forall current files_length fileName loaded total totalLoaded,
      displays (trace_of (updateProgressUI fl current files_length
                            fileName loaded total totalLoaded 0))
      = [ {| overallPercent := 0;
             shownLoaded := totalLoaded;
             shownGrandTotal := 0;
             labelFile := fileName;
             currentFile := current;
             totalFiles := files_length |} ])
  /\ Forall (fun p => p = 0%Z)
       (percents (trace_of (performUpload fl cfg form net protection))).
Proof.
  intros Hempty Hs. split; [reflexivity|].
  unfold percents. rewrite (displays_performUpload fl) by exact Hs.
  rewrite fmap_app. apply Forall_app. split.
  - fold (percents (loop_trace fl net (targetRoot cfg form)
      (uploadModeFolder form) (uploadFileKey form) (length (files form))
      (grandTotalOf (files form)) 0 (files form) 0)).
    rewrite (percents_loop_trace fl), grandTotalOf_empty_files by exact Hempty.
    apply Forall_fmap, Forall_true. reflexivity.
  - constructor; [|constructor].
    cbn [final_display overallPercent].
    rewrite grandTotalOf_empty_files by exact Hempty. reflexivity.
Qed.

End ZeroTotal.

(** With exact arithmetic the percentage is the integer quotient
    [(200 * totalLoaded + grandTotal) / (2 * grandTotal)]. *)
Lemma percent_exact (tl g : N) :
  (0 < g)%N ->
  Upload.percent Sample.exact tl g
  = ((200 * Z.of_N tl + Z.of_N g) / (2 * Z.of_N g))%Z.
Proof.
  intros Hg. unfold Upload.percent, Sample.exact, Js.Math_round.
  rewrite (proj2 (N.ltb_lt 0 g) Hg).
  destruct g as [|p]; [lia|].
  assert (Heq : (Js.num tl / Js.num (N.pos p) * 100 + (1 # 2)
                 == (200 * Z.of_N tl + Z.pos p) # (2 * p))%Q).
  { unfold Js.num, Qdiv, Qinv, Qeq. cbn [inject_Z Qnum Qden Z.of_N Qmult Qplus].
    lia. }
  rewrite (Qfloor_comp _ _ Heq). reflexivity.
Qed.

(** The percentages of the sample batch: 5 and 10 of 40 bytes, then 25,
    then the final update. *)
Example sample_percents :
  Observe.percents
    (trace_of (Upload.performUpload Sample.exact Sample.cfg Sample.form
                 Sample.net Upload.FetchRejects))
  = [13; 25; 63; 100]%Z.
Proof. reflexivity. Qed.

Lemma sample_net_well_behaved :
  Observe.well_behaved (Upload.files Sample.form) Sample.net.
Proof.
  intros i file Hi.
  destruct i as [|[|[|i]]]; cbn in Hi; try discriminate;
    injection Hi as <-; cbn; split; repeat constructor; lia.
Qed.

Lemma exact_monotone (x y : Q) :
  (x <= y)%Q -> (Sample.exact x <= Sample.exact y)%Q.
Proof. intros H. exact H. Qed.

Lemma exact_integer (z : Z) :
  (Z.abs z <= 2 ^ 53)%Z -> (Sample.exact (inject_Z z) == inject_Z z)%Q.
Proof. intros _. reflexivity. Qed.

Lemma percent_never_decreases_witness :
  Observe.starts Sample.form = true /\
  Observe.well_behaved (Upload.files Sample.form) Sample.net /\
  Sorted Z.le
    (Observe.percents
       (trace_of (Upload.performUpload Sample.exact Sample.cfg Sample.form
                    Sample.net Upload.FetchRejects))).
Proof.
  split; [reflexivity|]. split; [exact sample_net_well_behaved|].
  apply (percent_never_decreases Sample.exact exact_monotone Sample.cfg
           Sample.form Sample.net Upload.FetchRejects).
  - reflexivity.
  - exact sample_net_well_behaved.
Defined.

Lemma loaded_counter_reaches_grand_total_witness :
  Observe.starts Sample.form = true /\
  let run := Upload.performUpload Sample.exact Sample.cfg Sample.form
               Sample.net Upload.FetchRejects in
  (forall i file st,
      Upload.totalLoaded
        (result_of (Upload.uploadStep Sample.exact Sample.net "photos" true
                      "k" 3 40 i file st))
      = (Upload.totalLoaded st + size file)%N)
  /\ exists st d,
       result_of run = Some st
       /\ Upload.totalLoaded st = 40%N
       /\ last (Observe.displays (trace_of run)) = Some d
       /\ shownLoaded d = 40%N
       /\ shownGrandTotal d = 40%N
       /\ overallPercent d = 100%Z.
Proof.
  split; [reflexivity|].
  apply (loaded_counter_reaches_grand_total Sample.exact exact_monotone
           exact_integer Sample.cfg Sample.form Sample.net
           Upload.FetchRejects).
  reflexivity.
Defined.

(** C8, as the specification states it, fails on a batch of one empty
    file: the grand total is zero and the final update shows 0%. *)
Lemma final_update_of_empty_batch_counterexample :
  ~ Observe.final_update_shows_100 Sample.exact Sample.root_cfg
      Sample.empty_form Sample.down Upload.FetchRejects.
Proof.
  unfold Observe.final_update_shows_100. intros H.
  destruct (H eq_refl) as (d & Hlast & Hpercent).
  vm_compute in Hlast. injection Hlast as <-. discriminate Hpercent.
Qed.

Lemma zero_grand_total_shows_zero_witness :
  Forall (fun file => size file = 0%N) (Upload.files Sample.empty_form) /\
  Observe.starts Sample.empty_form = true /\
  (forall current files_length fileName loaded total totalLoaded,
      Observe.displays
        (trace_of (Upload.updateProgressUI Sample.exact current files_length
                     fileName loaded total totalLoaded 0))
      = [ {| overallPercent := 0;
             shownLoaded := totalLoaded;
             shownGrandTotal := 0;
             labelFile := fileName;
             currentFile := current;
             totalFiles := files_length |} ])
  /\ Forall (fun p => p = 0%Z)
       (Observe.percents
          (trace_of (Upload.performUpload Sample.exact Sample.root_cfg
                       Sample.empty_form Sample.fine Upload.FetchRejects))).
Proof.
  assert (Hempty : Forall (fun file => size file = 0%N)
                     (Upload.files Sample.empty_form))
    by (repeat constructor).
  split; [exact Hempty|]. split; [reflexivity|].
  apply (zero_grand_total_shows_zero Sample.exact Sample.root_cfg
           Sample.empty_form Sample.fine Upload.FetchRejects);
    [exact Hempty | reflexivity].
Defined.

(** ** Delete mode *)

Section DeleteFacts.

Import DeleteMode Observe.

Lemma handleAll_app cfg (xs ys : list action) : forall st,
  handleAll cfg (xs ++ ys) st =
  bind (handleAll cfg xs st) (fun st' => handleAll cfg ys st').
Proof.
  induction xs as [|a xs IH]; intros st.
  - cbn [app handleAll]. unfold bind, ret.
    destruct (handleAll cfg ys st) as [st' tr]. reflexivity.
  - cbn [app handleAll]. unfold bind in *.
    destruct (handle cfg a st) as [st1 t1]. rewrite IH.
    destruct (handleAll cfg xs st1) as [st2 t2].
    destruct (handleAll cfg ys st2) as [st3 t3].
    rewrite app_assoc. reflexivity.
Qed.

(** Ticking boxes sends nothing and leaves the entered key alone. *)
Lemma selecting_quiet cfg (sel : list action) : forall st,
  Forall selecting sel ->
  trace_of (handleAll cfg sel st) = []
  /\ enteredDeleteKey (result_of (handleAll cfg sel st)) = enteredDeleteKey st.
Proof.
  induction sel as [|a sel IH]; intros st Hsel; [split; reflexivity|].
  apply Forall_cons in Hsel as [(index & checked & ->) Hsel].
  cbn [handleAll]. rewrite trace_bind, result_bind.
  assert (Hstep : trace_of (handle cfg (ChangeCheckbox index checked) st) = []
                  /\ enteredDeleteKey
                       (result_of (handle cfg (ChangeCheckbox index checked) st))
                     = enteredDeleteKey st).
  { cbn [handle]. destruct (negb (deleteKeyConfigured cfg)); split; reflexivity. }
  destruct Hstep as [Htr Hkey].
  destruct (IH (result_of (handle cfg (ChangeCheckbox index checked) st)) Hsel)
    as [IHtr IHkey].
  rewrite Htr, IHtr, IHkey, Hkey. split; reflexivity.
Qed.

(** The delete button is in step with the boxes: disabled exactly when
    none is ticked. *)
Lemma selecting_in_step cfg (sel : list action) : forall st,
  Forall selecting sel ->
  deleteSelectedDisabled st = negb (existsb snd (checkboxes st)) ->
  deleteSelectedDisabled (result_of (handleAll cfg sel st))
  = negb (existsb snd (checkboxes (result_of (handleAll cfg sel st)))).
Proof.
  induction sel as [|a sel IH]; intros st Hsel Hstep; [exact Hstep|].
  apply Forall_cons in Hsel as [(index & checked & ->) Hsel].
  cbn [handleAll]. rewrite result_bind. apply IH; [exact Hsel|].
  cbn [handle]. destruct (negb (deleteKeyConfigured cfg)); [exact Hstep|].
  reflexivity.
Qed.

Lemma selected_ticked (st : state) :
  selected st <> [] -> existsb snd (checkboxes st) = true.
Proof.
  unfold selected. induction (checkboxes st) as [|[value checked] cbs IH];
    [intros H; exact (False_ind _ (H eq_refl))|].
  intros H. cbn [existsb snd]. destruct checked; [reflexivity|].
  cbn [orb]. apply IH. intros Hnone. apply H.
  rewrite filter_cons_False by (cbn; discriminate). exact Hnone.
Qed.

Lemma truthy_nonempty (s : string) : s <> EmptyString -> Js.truthy s = true.
Proof. destruct s; [congruence | reflexivity]. Qed.

Lemma length_nonempty (s : string) :
  s <> EmptyString -> Nat.ltb 0 (String.length s) = true.
Proof. destruct s; [congruence | reflexivity]. Qed.

(** C9. Delete mode is entered on any non-empty key and on no other
    condition: the listener of the key modal stores the key, puts the
    page in delete mode and sends no request, so nothing has compared
    the key with the configured one; an empty key is refused with a
    message.  The key leaves the page only when the selection is
    submitted, in the [X-Delete-Key] header of the one request to
    [/api/delete-items]. *)
Theorem delete_mode_needs_only_a_nonempty_key cfg st key :
  deleteKeyConfigured cfg = true ->
  key <> EmptyString ->
  let entered := handle cfg (ClickDeleteModalSubmitBtn key) st in
  let refused := handle cfg (ClickDeleteModalSubmitBtn EmptyString) st in
  (enteredDeleteKey (result_of entered) = Some key
   /\ deleteModeClass (result_of entered) = true
   /\ checkboxes (result_of entered) = checkboxes st
   /\ trace_of entered = [])
  /\ (enteredDeleteKey (result_of refused) = enteredDeleteKey st
      /\ deleteModeClass (result_of refused) = deleteModeClass st
      /\ deleteModalError (result_of refused) = "Key cannot be empty."%string
      /\ trace_of refused = [])
  /\ (forall sel network,
        Forall selecting sel ->
        let chosen := result_of (handleAll cfg sel (result_of entered)) in
        selected chosen <> [] ->
        requests
          (trace_of
             (handleAll cfg
                (sel ++ [ClickDeleteSelectedBtn; ClickConfirmBtn network])
                (result_of entered)))
        = [HttpPost "/api/delete-items"
             [("Content-Type"%string, "application/json"%string);
              ("X-Delete-Key"%string, key)]
             (DeleteItemsBody (selected chosen))]).
Proof.
  intros Hcfg Hkey entered refused. subst entered refused.
  cbn [handle]. rewrite Hcfg. cbn [negb].
  rewrite (truthy_nonempty key Hkey), (length_nonempty key Hkey).
  cbn [andb Js.truthy].
  split; [repeat split|]. split; [repeat split|].
  intros sel network Hsel. cbv zeta. intros Hchosen.
  rewrite handleAll_app, trace_bind.
  destruct (selecting_quiet cfg sel
              (enterDeleteMode key (setModalError "" st)) Hsel) as [Htr Hk].
  change (result_of (ret ?x)) with x in *.
  rewrite Htr. cbn [app].
  pose proof (selecting_in_step cfg sel
                (enterDeleteMode key (setModalError "" st)) Hsel eq_refl)
    as Hstep.
  set (chosen := result_of (handleAll cfg sel _)) in *.
  change (enteredDeleteKey (enterDeleteMode key (setModalError "" st)))
    with (Some key) in Hk.
  clearbody chosen. cbn [handleAll]. rewrite trace_bind.
  rewrite (selected_ticked chosen Hchosen) in Hstep. cbn [negb] in Hstep.
  assert (Hclick : handle cfg ClickDeleteSelectedBtn chosen
                   = ret (show "confirmDeleteModal"
                            (setOnConfirm (Some (selected chosen)) chosen))).
  { cbn [handle]. rewrite Hcfg, Hstep. cbn [negb]. fold (selected chosen).
    destruct (selected chosen) as [|item items]; [congruence|].
    cbn [length Nat.eqb]. rewrite Hk, (truthy_nonempty key Hkey).
    reflexivity. }
  rewrite Hclick. eff_simpl. cbn [app]. rewrite app_nil_r.
  cbn [handle show hide setOnConfirm onConfirm enteredDeleteKey].
  rewrite Hk. unfold performDelete. eff_simpl.
  destruct network; reflexivity.
Qed.

End DeleteFacts.

Lemma delete_mode_needs_only_a_nonempty_key_witness :
  deleteKeyConfigured Sample.cfg = true /\
  "wrong"%string <> EmptyString /\
  let entered :=
    DeleteMode.handle Sample.cfg (DeleteMode.ClickDeleteModalSubmitBtn "wrong")
      Sample.page in
  let refused :=
    DeleteMode.handle Sample.cfg (DeleteMode.ClickDeleteModalSubmitBtn EmptyString)
      Sample.page in
  (DeleteMode.enteredDeleteKey (result_of entered) = Some "wrong"%string
   /\ DeleteMode.deleteModeClass (result_of entered) = true
   /\ DeleteMode.checkboxes (result_of entered)
      = DeleteMode.checkboxes Sample.page
   /\ trace_of entered = [])
  /\ (DeleteMode.enteredDeleteKey (result_of refused)
      = DeleteMode.enteredDeleteKey Sample.page
      /\ DeleteMode.deleteModeClass (result_of refused)
         = DeleteMode.deleteModeClass Sample.page
      /\ DeleteMode.deleteModalError (result_of refused)
         = "Key cannot be empty."%string
      /\ trace_of refused = [])
  /\ (forall sel network,
        Forall DeleteMode.selecting sel ->
        let chosen :=
          result_of (DeleteMode.handleAll Sample.cfg sel (result_of entered)) in
        DeleteMode.selected chosen <> [] ->
        Observe.requests
          (trace_of
             (DeleteMode.handleAll Sample.cfg
                (sel ++ [DeleteMode.ClickDeleteSelectedBtn;
                         DeleteMode.ClickConfirmBtn network])
                (result_of entered)))
        = [HttpPost "/api/delete-items"
             [("Content-Type"%string, "application/json"%string);
              ("X-Delete-Key"%string, "wrong"%string)]
             (DeleteItemsBody (DeleteMode.selected chosen))]).
Proof.
  split; [reflexivity|]. split; [discriminate|].
  apply (delete_mode_needs_only_a_nonempty_key Sample.cfg Sample.page "wrong");
    [reflexivity | discriminate].
Defined.

(** ** The server side *)

Section ServerFacts.

Import Server.

(** C6. In the delete orchestrator of the specification, a supplied key
    that is not the configured delete key fails the whole batch before
    anything is removed: the result counts no success, the stored tree
    is what it was and the backend was asked for no mutation. *)
Theorem wrong_delete_key_removes_nothing
    (configured : option string) (supplied : string) (items : list Path)
    (s : storage) :
  configured <> Some supplied ->
  let answer := deleteItems configured supplied items s in
  successCount (fst answer) = 0
  /\ failCount (fst answer) = length items
  /\ snd answer = s
  /\ stored (snd answer) = stored s
  /\ mutations (snd answer) = mutations s.
Proof.
  intros Hkey answer. subst answer. unfold deleteItems.
  destruct (decide (configured = Some supplied)) as [Heq|_]; [contradiction|].
  cbn [fst snd successCount failCount]. repeat split.
Qed.

(** What [descend] returns from a folder [above] with [below] still to
    walk: the key of the deepest entry on the way down, or else the key
    it came with. *)
Lemma descend_spec (reg : gmap (list string) string) (below : Path) :
  forall (above : Path) (nearest : option string),
    match descend reg above below nearest with
    | Some key =>
        (exists q,
            q <> [] /\ q `prefix_of` below
            /\ reg !! (above ++ q) = Some key
            /\ forall q', q' `prefix_of` below -> length q < length q' ->
                          reg !! (above ++ q') = None)
        \/ (nearest = Some key
            /\ forall q', q' <> [] -> q' `prefix_of` below ->
                          reg !! (above ++ q') = None)
    | None =>
        nearest = None
        /\ forall q', q' <> [] -> q' `prefix_of` below ->
                      reg !! (above ++ q') = None
    end.
Proof.
  induction below as [|segment below IH]; intros above nearest.
  - cbn [descend].
    assert (Hnone : forall q' : Path, q' <> [] -> q' `prefix_of` [] ->
                               reg !! (above ++ q') = None).
    { intros q' Hne Hpre. apply prefix_nil_inv in Hpre. congruence. }
    destruct nearest as [key|]; [right|]; split; auto.
  - cbn [descend].
    specialize (IH (above ++ [segment])
                  (match reg !! (above ++ [segment]) with
                   | Some key => Some key
                   | None => nearest
                   end)).
    assert (Hsplit : forall q' : Path,
               q' `prefix_of` segment :: below ->
               q' = [] \/ exists q'', q' = segment :: q'' /\ q'' `prefix_of` below).
    { intros [|x q''] Hpre; [left; reflexivity|right].
      apply prefix_cons_inv_1 in Hpre as Hx. subst x.
      apply prefix_cons_inv_2 in Hpre. eauto. }
    assert (Hassoc : forall q'' : Path,
               above ++ segment :: q'' = (above ++ [segment]) ++ q'').
    { intros q''. rewrite <- app_assoc. reflexivity. }
    destruct (descend reg (above ++ [segment]) below _) as [key|].
    + destruct IH as [(q & Hne & Hpre & Hq & Hdeeper) | [Hnearest Hnone]].
      * left. exists (segment :: q). split; [discriminate|].
        split; [apply prefix_cons, Hpre|]. split; [rewrite Hassoc; exact Hq|].
        intros q' Hq' Hlen.
        destruct (Hsplit q' Hq') as [->|(q'' & -> & Hq'')]; [cbn in Hlen; lia|].
        rewrite Hassoc. apply Hdeeper; [exact Hq''|]. cbn in Hlen. lia.
      * destruct (reg !! (above ++ [segment])) as [key'|] eqn:Hhere.
        -- left. exists [segment]. split; [discriminate|].
           split; [apply prefix_cons, prefix_nil|].
           split; [congruence|].
           intros q' Hq' Hlen.
           destruct (Hsplit q' Hq') as [->|(q'' & -> & Hq'')];
             [cbn in Hlen; lia|].
           rewrite Hassoc. apply Hnone; [|exact Hq''].
           destruct q''; [cbn in Hlen; lia | discriminate].
        -- right. split; [exact Hnearest|].
           intros q' Hne Hq'.
           destruct (Hsplit q' Hq') as [->|(q'' & -> & Hq'')]; [congruence|].
           destruct q'' as [|x q'']; [exact Hhere|].
           rewrite Hassoc. apply Hnone; [discriminate | exact Hq''].
    + destruct IH as [Hnearest Hnone].
      destruct (reg !! (above ++ [segment])) as [key'|] eqn:Hhere;
        [discriminate|].
      split; [exact Hnearest|].
      intros q' Hne Hq'.
      destruct (Hsplit q' Hq') as [->|(q'' & -> & Hq'')]; [congruence|].
      destruct q'' as [|x q'']; [exact Hhere|].
      rewrite Hassoc. apply Hnone; [discriminate | exact Hq''].
Qed.

(** C7. For every registry and every path, [isProtected] returns the
    key of the deepest folder among the path and its ancestors that has
    an entry, and none when none of them has one. *)
Theorem isProtected_nearest_ancestor
    (reg : gmap (list string) string) (path : Path) :
  match isProtected reg path with
  | Some key =>
      exists ancestor,
        ancestor <> []
        /\ ancestor `prefix_of` path
        /\ reg !! ancestor = Some key
        /\ forall deeper,
             deeper `prefix_of` path ->
             length ancestor < length deeper ->
             reg !! deeper = None
  | None =>
      forall ancestor,
        ancestor <> [] -> ancestor `prefix_of` path -> reg !! ancestor = None
  end.
Proof.
  unfold isProtected. pose proof (descend_spec reg path [] None) as H.
  destruct (descend reg [] path None) as [key|].
  - destruct H as [(q & Hne & Hpre & Hq & Hdeeper) | [Hnearest _]];
      [|discriminate].
    exists q. repeat split; auto.
  - destruct H as [_ Hnone]. exact Hnone.
Qed.

End ServerFacts.

Lemma wrong_delete_key_removes_nothing_witness :
  Some "secret"%string <> Some "guess"%string /\
  let answer :=
    Server.deleteItems (Some "secret"%string) "guess"
      [["a.txt"%string]; ["docs"%string]] Sample.tree in
  Server.successCount (fst answer) = 0
  /\ Server.failCount (fst answer) = 2
  /\ snd answer = Sample.tree
  /\ Server.stored (snd answer) = Server.stored Sample.tree
  /\ Server.mutations (snd answer) = Server.mutations Sample.tree.
Proof.
  split; [discriminate|].
  apply (wrong_delete_key_removes_nothing (Some "secret"%string) "guess"
           [["a.txt"%string]; ["docs"%string]] Sample.tree).
  discriminate.
Defined.

(** With the configured key the same batch does remove: the model is not
    one in which nothing is ever deleted. *)
Example right_delete_key_removes :
  let answer :=
    Server.deleteItems (Some "secret"%string) "secret"
      [["a.txt"%string]; ["missing.txt"%string]; ["docs"%string]] Sample.tree in
  Server.successCount (fst answer) = 2
  /\ Server.failCount (fst answer) = 1
  /\ Server.errors (fst answer) = [(["missing.txt"%string], Server.NotFound)]
  /\ Server.mutations (snd answer) = [["a.txt"%string]; ["docs"%string]]
  /\ Server.stored (snd answer) = ∅.
Proof. vm_compute. repeat split. Qed.

(** The nearest entry governs: [a/b/c] is under [a/b], [a/x] under [a],
    [z] under nothing. *)
Example isProtected_sample :
  Server.isProtected Sample.registry ["a"%string; "b"%string; "c"%string]
  = Some "inner"%string
  /\ Server.isProtected Sample.registry ["a"%string; "x"%string]
     = Some "outer"%string
  /\ Server.isProtected Sample.registry ["z"%string] = None
  /\ Server.isProtected Sample.registry [] = None.
Proof. vm_compute. repeat split. Qed.


(** * Further properties of the code *)

(** ** [performUpload]: the checks, the modes, the order of the requests *)

Section UploadMore.

Import Upload Observe Batch.

Variable fl : Q -> Q.

(** X1. A form that fails one of the three checks at the head of
    [performUpload] starts no batch: no request is sent, no progress is
    shown, and the one thing written is the message of the first check
    that fails, the empty file list before the empty key before the
    missing protection password. *)
Theorem upload_checks_send_nothing cfg form net protection :
  files form = []
  \/ uploadFileKey form = EmptyString
  \/ (uploadModeFolder form = true /\ enableProtection form = true
      /\ protectionPassword form = EmptyString) ->
  let run := performUpload fl cfg form net protection in
  result_of run = None
  /\ requests (trace_of run) = []
  /\ displays (trace_of run) = []
  /\ trace_of run
     = [UploadText
          (match files form with
           | [] => if uploadModeFolder form then TxtSelectFolder
                   else TxtSelectFile
           | _ :: _ =>
               if Js.truthy (uploadFileKey form)
               then TxtProtectionPasswordRequired
               else TxtPasswordRequired
           end)].
Proof.
  intros Hbad run. subst run. unfold performUpload.
  destruct (files form) as [|file rest] eqn:Hfiles.
  - cbn [length Nat.eqb]. repeat split.
  - cbn [length Nat.eqb].
    destruct (uploadFileKey form) as [|c key] eqn:Hkey;
      cbn [Js.truthy negb]; [repeat split|].
    destruct Hbad as [Hbad|[Hbad|(Hfm & Hep & Hpwd)]]; try discriminate.
    rewrite Hfm, Hep, Hpwd. cbn [andb Js.truthy_opt Js.truthy negb].
    repeat split.
Qed.

(** X2. In files mode nothing is protected and the folder structure is
    not used: whatever the protection box and password hold and whatever
    relative path a file declares, no protection-set call is issued and
    every file goes to its bare name under the target root. *)
Theorem files_mode_uploads_by_name cfg form net protection :
  starts form = true ->
  uploadModeFolder form = false ->
  let run := performUpload fl cfg form net protection in
  protection_calls (trace_of run) = []
  /\ uploads (trace_of run)
     = (fun file =>
          HttpPost ("/upload/" +:+ under (targetRoot cfg form) (name file))
            [("X-Upload-Key"%string, uploadFileKey form)] (FileBody file))
       <$> files form.
Proof.
  intros Hs Hfm run. subst run. split.
  - rewrite protection_calls_performUpload by exact Hs. rewrite Hfm.
    reflexivity.
  - rewrite uploads_performUpload by exact Hs. rewrite Hfm.
    apply list_fmap_ext. intros _ file _.
    unfold upload_request, relPathOf, under. reflexivity.
Qed.

(** X3. The protection call is deferred: every upload request comes
    before the final progress update and the protection call, if there is
    one, after it; the requests of a batch are its uploads followed by
    its protection calls. *)
Theorem protection_call_follows_every_upload cfg form net protection :
  starts form = true ->
  let run := performUpload fl cfg form net protection in
  (exists before after,
      trace_of run = before ++ ProgressUI (final_display fl (files form)) :: after
      /\ protection_calls before = []
      /\ uploads after = [])
  /\ requests (trace_of run)
     = uploads (trace_of run) ++ protection_calls (trace_of run).
Proof.
  intros Hs run. subst run.
  rewrite (performUpload_starts fl) by exact Hs.
  unfold trace_of. cbn [snd]. split.
  - eexists (UploadText TxtCleared :: _), _. split; [reflexivity|].
    split.
    + change (protection_calls (?e :: ?t)) with (protection_calls t).
      apply protection_calls_loop_trace.
    + unfold uploads. rewrite List.filter_app.
      fold (uploads (protection_trace cfg form net protection)).
      fold (uploads (closing_trace cfg form net)).
      rewrite uploads_protection, uploads_closing. reflexivity.
  - unfold requests, uploads, protection_calls.
    cbn [List.filter is_request is_upload is_protection_call].
    rewrite !List.filter_app.
    cbn [List.filter is_request is_upload is_protection_call].
    rewrite !List.filter_app.
    fold (uploads (protection_trace cfg form net protection)).
    fold (uploads (closing_trace cfg form net)).
    fold (protection_calls (closing_trace cfg form net)).
    fold (protection_calls
            (loop_trace fl net (targetRoot cfg form) (uploadModeFolder form)
               (uploadFileKey form) (length (files form))
               (grandTotalOf (files form)) 0 (files form) 0)).
    fold (uploads
            (loop_trace fl net (targetRoot cfg form) (uploadModeFolder form)
               (uploadFileKey form) (length (files form))
               (grandTotalOf (files form)) 0 (files form) 0)).
    fold (requests
            (loop_trace fl net (targetRoot cfg form) (uploadModeFolder form)
               (uploadFileKey form) (length (files form))
               (grandTotalOf (files form)) 0 (files form) 0)).
    rewrite uploads_protection, uploads_closing, protection_calls_closing,
      protection_calls_loop_trace, uploads_loop_trace.
    rewrite requests_loop_trace, !app_nil_r. cbn [app]. f_equal.
    assert (Hclosing : List.filter is_request (closing_trace cfg form net) = []).
    { unfold closing_trace.
      destruct (Nat.eqb _ 0); [destruct (String.eqb _ _)|]; reflexivity. }
    rewrite Hclosing, app_nil_r.
    unfold protection_trace.
    destruct (_ && _); [destruct protection|]; reflexivity.
Qed.

End UploadMore.

Section UploadClosing.

Import Upload Observe Batch.

Variable fl : Q -> Q.

Lemma timers_loop_trace net tp fm key n g rest : forall i base,
  timers (loop_trace fl net tp fm key n g i rest base) = [].
Proof.
  unfold timers.
  induction rest as [|file rest IH]; intros i base; [reflexivity|].
  cbn [loop_trace List.filter upload_request is_timer].
  rewrite List.filter_app, filter_displays by reflexivity.
  cbn [app]. apply IH.
Qed.

Lemma timers_performUpload cfg form net protection :
  starts form = true ->
  timers (trace_of (performUpload fl cfg form net protection))
  = timers (closing_trace cfg form net).
Proof.
  intros Hs. rewrite (performUpload_starts fl) by exact Hs.
  unfold trace_of. cbn [snd]. unfold timers. cbn [List.filter is_timer].
  rewrite List.filter_app. cbn [List.filter is_timer].
  rewrite List.filter_app.
  fold (timers (loop_trace fl net (targetRoot cfg form)
    (uploadModeFolder form) (uploadFileKey form) (length (files form))
    (grandTotalOf (files form)) 0 (files form) 0)).
  rewrite timers_loop_trace. cbn [app].
  assert (Hprot :
    List.filter is_timer (protection_trace cfg form net protection) = []).
  { unfold protection_trace.
    destruct (_ && _); [destruct protection|]; reflexivity. }
  rewrite Hprot. reflexivity.
Qed.

(** X4. Only a batch without a failure sets a timer: the page is
    reloaded after a second when the target root is the folder on
    display, the modal is closed after two seconds when it is another
    folder.  With any failure no timer is set, so the modal stays open,
    and the last message gives both counts. *)
Theorem closing_depends_on_failures cfg form net protection :
  starts form = true ->
  let run := performUpload fl cfg form net protection in
  let same_folder :=
    String.eqb (targetRoot cfg form) (Js.stripSlashes (currentPath cfg)) in
  exists st,
    result_of run = Some st
    /\ timers (trace_of run)
       = (if Nat.eqb (failCount st) 0
          then if same_folder then [ReloadAfter 1000]
               else [HideModalAfter "uploadFileModal" 2000]
          else [])
    /\ last (texts (trace_of run))
       = Some (if Nat.eqb (failCount st) 0
               then if same_folder then TxtUploadComplete (successCount st)
                    else TxtUploadSuccessful (successCount st)
               else TxtUploadedFailed (successCount st) (failCount st)).
Proof.
  intros Hs run same_folder. subst run same_folder.
  rewrite (performUpload_starts fl) by exact Hs.
  eexists. split; [reflexivity|].
  unfold trace_of. cbn [snd successCount failCount].
  assert (Hprot : timers (protection_trace cfg form net protection) = []
                  /\ texts (protection_trace cfg form net protection) = []).
  { unfold protection_trace.
    destruct (_ && _); [destruct protection|]; split; reflexivity. }
  destruct Hprot as [Hprot_timers Hprot_texts]. split.
  - unfold timers in *. cbn [List.filter is_timer].
    rewrite List.filter_app. cbn [List.filter is_timer].
    rewrite List.filter_app, Hprot_timers.
    fold (timers (loop_trace fl net (targetRoot cfg form)
      (uploadModeFolder form) (uploadFileKey form) (length (files form))
      (grandTotalOf (files form)) 0 (files form) 0)).
    rewrite timers_loop_trace. cbn [app]. unfold closing_trace.
    destruct (Nat.eqb _ 0); [destruct (String.eqb _ _)|]; reflexivity.
  - unfold texts in *.
    change (omap text_of (UploadText TxtCleared :: ?t))
      with (TxtCleared :: omap text_of t).
    rewrite omap_app.
    change (omap text_of (ProgressUI ?d :: ?t)) with (omap text_of t).
    rewrite omap_app, Hprot_texts. cbn [app].
    set (before := omap text_of (loop_trace _ _ _ _ _ _ _ _ _ _)).
    unfold closing_trace.
    destruct (Nat.eqb _ 0); [destruct (String.eqb _ _)|];
      cbn [omap list_omap text_of];
      change (TxtCleared :: before ++ [?t]) with ((TxtCleared :: before) ++ [t]);
      apply last_snoc.
Qed.

End UploadClosing.

Section UploadBounds.

Import Upload Observe Batch.

Variable fl : Q -> Q.

Hypothesis fl_monotone : forall x y : Q, (x <= y)%Q -> (fl x <= fl y)%Q.
Hypothesis fl_integer :
  forall z : Z, (Z.abs z <= 2 ^ 53)%Z -> (fl (inject_Z z) == inject_Z z)%Q.

Lemma percent_nothing (g : N) : percent fl 0 g = 0%Z.
Proof.
  unfold percent. destruct (N.ltb 0 g); [|reflexivity].
  assert (Hzero : (fl (fl (Js.num 0 / Js.num g) * 100) == inject_Z 0)%Q).
  { rewrite <- (fl_integer 0) by (vm_compute; discriminate).
    apply (fl_proper fl fl_monotone).
    assert (Hq : (Js.num 0 / Js.num g == inject_Z 0)%Q).
    { unfold Qdiv. change (Js.num 0) with 0%Q. apply Qmult_0_l. }
    rewrite (fl_proper fl fl_monotone _ _ Hq).
    rewrite fl_integer by (vm_compute; discriminate). reflexivity. }
  unfold Js.Math_round. rewrite Hzero. reflexivity.
Qed.

Lemma percent_bounds (tl g : N) :
  (tl <= g)%N -> (0 <= percent fl tl g <= 100)%Z.
Proof.
  intros Hle. split.
  - rewrite <- (percent_nothing g).
    apply (percent_monotone fl fl_monotone). lia.
  - destruct (N.eq_dec g 0%N) as [->|Hg].
    + unfold percent. cbn. lia.
    + rewrite <- (percent_full fl fl_monotone fl_integer g) by lia.
      apply (percent_monotone fl fl_monotone), Hle.
Qed.

(** What the loop shows from index [i] on: byte counts between what the
    earlier files account for and what the files up to the last account
    for, always against the same grand total. *)
Lemma loop_displays_bounded net tp fm key n g rest : forall i base,
  (forall j file,
      rest !! j = Some file ->
      Forall (fun l => (l <= size file)%N) (reported (net (i + j)))) ->
  Forall (fun d =>
            (base <= shownLoaded d
             <= fold_left (fun acc file => (acc + size file)%N) rest base)%N
            /\ shownGrandTotal d = g
            /\ overallPercent d = percent fl (shownLoaded d) g)
    (displays (loop_trace fl net tp fm key n g i rest base)).
Proof.
  induction rest as [|file rest IH]; intros i base Hnet; [constructor|].
  cbn [loop_trace fold_left].
  change (displays (?e :: ?t)) with (displays ([e] ++ t)).
  rewrite !displays_app, displays_ProgressUI.
  change (displays [upload_request tp fm key file]) with (@nil progress_display).
  cbn [app]. pose proof (fold_sizes_ge rest (base + size file)%N) as Hge.
  apply Forall_app. split.
  - apply Forall_fmap.
    pose proof (Hnet 0 file eq_refl) as Hbound.
    rewrite Nat.add_0_r in Hbound.
    eapply Forall_impl; [exact Hbound|].
    intros l Hl. unfold compose, shown.
    cbn [shownLoaded shownGrandTotal overallPercent]. cbn beta in Hl.
    repeat split; lia.
  - eapply Forall_impl; [apply (IH (S i) (base + size file)%N)|].
    + intros j file' Hj. specialize (Hnet (S j) file' Hj).
      rewrite Nat.add_succ_r in Hnet. exact Hnet.
    + intros d (Hd & Hg & Hp). cbn beta. repeat split; try assumption; lia.
Qed.

(** X5. While the progress events of each file report no more than the
    size of the file, every progress update of a batch shows a byte count
    that does not exceed the grand total, against that grand total, and a
    percentage from 0 to 100. *)
Theorem progress_stays_within_bounds cfg form net protection :
  starts form = true ->
  (forall i file,
      files form !! i = Some file ->
      Forall (fun l => (l <= size file)%N) (reported (net i))) ->
  Forall (fun d =>
            (shownLoaded d <= shownGrandTotal d)%N
            /\ shownGrandTotal d = grandTotalOf (files form)
            /\ (0 <= overallPercent d <= 100)%Z)
    (displays (trace_of (performUpload fl cfg form net protection))).
Proof.
  intros Hs Hnet. rewrite (displays_performUpload fl) by exact Hs.
  apply Forall_app. split.
  - eapply Forall_impl;
      [apply (loop_displays_bounded net _ _ _ _ _ (files form) 0 0%N);
       exact Hnet|].
    intros d (Hd & Hg & Hp). cbn beta. fold (grandTotalOf (files form)) in Hd.
    rewrite Hg, Hp.
    split; [lia | split; [reflexivity | apply percent_bounds; lia]].
  - constructor; [|constructor].
    cbn [final_display shownLoaded shownGrandTotal overallPercent].
    split; [lia | split; [reflexivity | apply percent_bounds; lia]].
Qed.

End UploadBounds.

Section Slashes.

Import Upload Observe Batch.

Lemma dropLeading_first (c : ascii) (s : string) :
  first_char (Js.dropLeading c s) <> Some c.
Proof.
  induction s as [|c' s IH]; [discriminate|].
  cbn [Js.dropLeading]. destruct (Ascii.eqb c' c) eqn:Hc; [exact IH|].
  cbn [first_char]. intros [= ->]. rewrite Ascii.eqb_refl in Hc. discriminate.
Qed.

Lemma dropLeading_id (c : ascii) (s : string) :
  first_char s <> Some c -> Js.dropLeading c s = s.
Proof.
  destruct s as [|c' s]; [reflexivity|]. cbn [first_char Js.dropLeading].
  intros Hne. destruct (Ascii.eqb c' c) eqn:Hc; [|reflexivity].
  apply Ascii.eqb_eq in Hc. congruence.
Qed.

Lemma dropTrailing_cases (c : ascii) (s : string) :
  Js.dropTrailing c s = EmptyString
  \/ first_char (Js.dropTrailing c s) = first_char s.
Proof.
  destruct s as [|c' s]; [left; reflexivity|]. cbn [Js.dropTrailing].
  destruct (Ascii.eqb c' c && negb (Js.truthy (Js.dropTrailing c s)));
    [left|right]; reflexivity.
Qed.

Lemma dropTrailing_last (c : ascii) (s : string) :
  last_char (Js.dropTrailing c s) <> Some c.
Proof.
  induction s as [|c' s IH]; [discriminate|]. cbn [Js.dropTrailing].
  destruct (Js.dropTrailing c s) as [|c'' r] eqn:Hr; cbn [Js.truthy negb].
  - rewrite andb_true_r. destruct (Ascii.eqb c' c) eqn:Hc; [discriminate|].
    cbn [last_char]. intros [= ->]. rewrite Ascii.eqb_refl in Hc. discriminate.
  - rewrite andb_false_r. exact IH.
Qed.

Lemma dropTrailing_id (c : ascii) (s : string) :
  last_char s <> Some c -> Js.dropTrailing c s = s.
Proof.
  induction s as [|c' s IH]; [reflexivity|]. intros Hlast.
  cbn [Js.dropTrailing]. destruct s as [|c'' s'].
  - cbn [Js.dropTrailing Js.truthy negb]. rewrite andb_true_r.
    destruct (Ascii.eqb c' c) eqn:Hc; [|reflexivity].
    apply Ascii.eqb_eq in Hc. cbn in Hlast. congruence.
  - rewrite IH by exact Hlast. cbn [Js.truthy negb]. rewrite andb_false_r.
    reflexivity.
Qed.

(** X6. The target root has no slash at either end: [stripSlashes]
    removes every leading and trailing slash, leaves alone a string that
    has none, and so changes nothing when applied again. *)
Theorem target_root_has_no_outer_slash cfg form (s : string) :
  (first_char (targetRoot cfg form) <> Some "/"%char
   /\ last_char (targetRoot cfg form) <> Some "/"%char)
  /\ (first_char (Js.stripSlashes s) <> Some "/"%char
      /\ last_char (Js.stripSlashes s) <> Some "/"%char)
  /\ (first_char s <> Some "/"%char -> last_char s <> Some "/"%char ->
      Js.stripSlashes s = s)
  /\ Js.stripSlashes (Js.stripSlashes s) = Js.stripSlashes s.
Proof.
  assert (Hnormal : forall t,
             first_char (Js.stripSlashes t) <> Some "/"%char
             /\ last_char (Js.stripSlashes t) <> Some "/"%char).
  { intros t. unfold Js.stripSlashes. split; [|apply dropTrailing_last].
    destruct (dropTrailing_cases "/" (Js.dropLeading "/" t)) as [->| ->];
      [discriminate | apply dropLeading_first]. }
  assert (Hid : forall t,
             first_char t <> Some "/"%char -> last_char t <> Some "/"%char ->
             Js.stripSlashes t = t).
  { intros t Hfirst Hlast. unfold Js.stripSlashes.
    rewrite dropLeading_id by exact Hfirst. apply dropTrailing_id, Hlast. }
  split; [apply Hnormal|]. split; [apply Hnormal|]. split; [apply Hid|].
  apply Hid; apply Hnormal.
Qed.

End Slashes.

Lemma upload_checks_send_nothing_witness :
  (Upload.files Cases.keyless_form = []
   \/ Upload.uploadFileKey Cases.keyless_form = EmptyString
   \/ (Upload.uploadModeFolder Cases.keyless_form = true
       /\ Upload.enableProtection Cases.keyless_form = true
       /\ Upload.protectionPassword Cases.keyless_form = EmptyString)) /\
  let run := Upload.performUpload Sample.exact Sample.cfg Cases.keyless_form
               Sample.fine Upload.FetchRejects in
  result_of run = None
  /\ Observe.requests (trace_of run) = []
  /\ Observe.displays (trace_of run) = []
  /\ trace_of run = [UploadText TxtPasswordRequired].
Proof.
  split; [right; left; reflexivity|].
  apply (upload_checks_send_nothing Sample.exact Sample.cfg Cases.keyless_form
           Sample.fine Upload.FetchRejects).
  right; left; reflexivity.
Defined.

Lemma files_mode_uploads_by_name_witness :
  Observe.starts Cases.loose_form = true /\
  Upload.uploadModeFolder Cases.loose_form = false /\
  let run := Upload.performUpload Sample.exact Sample.cfg Cases.loose_form
               Sample.fine Upload.FetchRejects in
  Observe.protection_calls (trace_of run) = []
  /\ Observe.uploads (trace_of run)
     = [ HttpPost "/upload/inbox/a.jpg" [("X-Upload-Key"%string, "k"%string)]
           (FileBody Sample.a_jpg);
         HttpPost "/upload/inbox/plain.txt" [("X-Upload-Key"%string, "k"%string)]
           (FileBody Sample.plain_txt) ].
Proof.
  split; [reflexivity|]. split; [reflexivity|].
  apply (files_mode_uploads_by_name Sample.exact Sample.cfg Cases.loose_form
           Sample.fine Upload.FetchRejects); reflexivity.
Defined.

Lemma protection_call_follows_every_upload_witness :
  Observe.starts Sample.form = true /\
  let run := Upload.performUpload Sample.exact Sample.cfg Sample.form
               Sample.net Upload.FetchRejects in
  (exists before after,
      trace_of run
      = before
        ++ ProgressUI (Observe.final_display Sample.exact
                         (Upload.files Sample.form)) :: after
      /\ Observe.protection_calls before = []
      /\ Observe.uploads after = [])
  /\ Observe.requests (trace_of run)
     = Observe.uploads (trace_of run)
       ++ Observe.protection_calls (trace_of run).
Proof.
  split; [reflexivity|].
  apply (protection_call_follows_every_upload Sample.exact Sample.cfg
           Sample.form Sample.net Upload.FetchRejects).
  reflexivity.
Defined.

Lemma closing_depends_on_failures_witness :
  Observe.starts Sample.form = true /\
  let run := Upload.performUpload Sample.exact Sample.cfg Sample.form
               Sample.net Upload.FetchRejects in
  exists st,
    result_of run = Some st
    /\ Batch.timers (trace_of run)
       = (if Nat.eqb (Upload.failCount st) 0
          then [ReloadAfter 1000]
          else [])
    /\ last (Batch.texts (trace_of run))
       = Some (if Nat.eqb (Upload.failCount st) 0
               then TxtUploadComplete (Upload.successCount st)
               else TxtUploadedFailed (Upload.successCount st)
                      (Upload.failCount st)).
Proof.
  split; [reflexivity|].
  apply (closing_depends_on_failures Sample.exact Sample.cfg Sample.form
           Sample.net Upload.FetchRejects).
  reflexivity.
Defined.

Lemma progress_stays_within_bounds_witness :
  Observe.starts Sample.form = true /\
  (forall i file,
      Upload.files Sample.form !! i = Some file ->
      Forall (fun l => (l <= size file)%N) (Observe.reported (Sample.net i))) /\
  Forall (fun d =>
            (shownLoaded d <= shownGrandTotal d)%N
            /\ shownGrandTotal d = 40%N
            /\ (0 <= overallPercent d <= 100)%Z)
    (Observe.displays
       (trace_of (Upload.performUpload Sample.exact Sample.cfg Sample.form
                    Sample.net Upload.FetchRejects))).
Proof.
  assert (Hnet : forall i file,
             Upload.files Sample.form !! i = Some file ->
             Forall (fun l => (l <= size file)%N)
               (Observe.reported (Sample.net i))).
  { intros i file Hi. exact (proj2 (sample_net_well_behaved i file Hi)). }
  split; [reflexivity|]. split; [exact Hnet|].
  apply (progress_stays_within_bounds Sample.exact exact_monotone
           exact_integer Sample.cfg Sample.form Sample.net
           Upload.FetchRejects); [reflexivity | exact Hnet].
Defined.

(** ** Delete mode: what is sent, and when *)

Section DeleteMore.

Import DeleteMode Observe DeleteView.

Lemma handleAll_cons cfg a (rest : list action) st :
  handleAll cfg (a :: rest) st =
  bind (handle cfg a st) (fun st' => handleAll cfg rest st').
Proof. reflexivity. Qed.

Lemma selected_cons value checked cbs st :
  checkboxes st = (value, checked) :: cbs ->
  selected st
  = if checked then value :: (fst <$> filter (fun cb => snd cb = true) cbs)
    else fst <$> filter (fun cb => snd cb = true) cbs.
Proof.
  intros H. unfold selected. rewrite H.
  destruct checked.
  - rewrite filter_cons_True by reflexivity. reflexivity.
  - rewrite filter_cons_False by discriminate. reflexivity.
Qed.

(** One action: the requests it sends and the state it leaves. *)
Lemma handle_sound cfg a st :
  sound st ->
  sound (result_of (handle cfg a st))
  /\ Forall (fun e => exists items key,
                 items <> [] /\ key <> Some EmptyString
                 /\ e = delete_request items key)
       (requests (trace_of (handle cfg a st))).
Proof.
  intros [Hkey Hconfirm].
  assert (Hquiet : forall st', sound st' ->
             sound (result_of (ret st'))
             /\ Forall (fun e => exists items key,
                            items <> [] /\ key <> Some EmptyString
                            /\ e = delete_request items key)
                  (requests (trace_of (ret st')))).
  { intros st' Hst'. split; [exact Hst' | constructor]. }
  assert (Hst : sound st) by (split; assumption).
  destruct a as [| |keyAttempt| |index checked| |network| |].
  all: cbn [handle].
  all: try (destruct (negb (deleteKeyConfigured cfg)); [apply Hquiet, Hst|]).
  - apply Hquiet, Hst.
  - apply Hquiet, Hst.
  - destruct keyAttempt as [|c k]; cbn [Js.truthy andb]; [apply Hquiet, Hst|].
    cbn [String.length Nat.ltb Nat.leb]. apply Hquiet.
    split; [discriminate | exact Hconfirm].
  - apply Hquiet. split; [discriminate | exact Hconfirm].
  - apply Hquiet, Hst.
  - destruct (deleteSelectedDisabled st); [apply Hquiet, Hst|].
    destruct (Nat.eqb _ 0) eqn:Hlen; [apply Hquiet, Hst|].
    destruct (enteredDeleteKey st) as [key|] eqn:Hentered; [|apply Hquiet, Hst].
    destruct (Js.truthy key) eqn:Htruthy; [|apply Hquiet, Hst].
    apply Hquiet. split.
    + cbn [show setOnConfirm enteredDeleteKey]. rewrite Hentered. exact Hkey.
    + cbn [show setOnConfirm onConfirm]. intros [= Hnil].
      rewrite Hnil in Hlen. discriminate.
  - destruct (onConfirm st) as [items|] eqn:Hon; [|apply Hquiet, Hst].
    assert (Hitems : items <> []) by (intros ->; exact (Hconfirm eq_refl)).
    unfold performDelete. split.
    + rewrite result_bind.
      destruct network; (split; [exact Hkey|]);
        change (onConfirm st <> Some []); rewrite Hon; exact Hconfirm.
    + rewrite trace_bind.
      destruct network; cbn; (constructor; [|constructor]);
        exists items, (enteredDeleteKey st); repeat split; assumption.
  - destruct (onConfirm st); apply Hquiet, Hst.
  - split; [exact Hst | constructor].
Qed.

(** X7. Whatever the user does, in whatever order, the page sends
    nothing but delete requests to [/api/delete-items], each with a list
    of items that is not empty and, in [X-Delete-Key], a key that was
    entered, never the empty one, or [null] when there is none any
    more; the entered key and the armed selection are never empty. *)
Theorem delete_requests_have_key_and_items cfg (actions : list action) st :
  sound st ->
  Forall (fun e => exists items key,
              items <> [] /\ key <> Some EmptyString
              /\ e = delete_request items key)
    (requests (trace_of (handleAll cfg actions st)))
  /\ sound (result_of (handleAll cfg actions st)).
Proof.
  revert st. induction actions as [|a rest IH]; intros st Hst.
  - split; [constructor | exact Hst].
  - rewrite handleAll_cons, trace_bind, result_bind.
    destruct (handle_sound cfg a st Hst) as [Hnext Hreq].
    destruct (IH _ Hnext) as [IHreq IHsound].
    split; [|exact IHsound].
    unfold requests in *. rewrite List.filter_app. apply Forall_app.
    split; assumption.
Qed.


End DeleteMore.

Section DeleteFlow.

Import DeleteMode Observe DeleteView.

Lemma aside_keeps_dialog cfg a st :
  aside a ->
  onConfirm (result_of (handle cfg a st)) = onConfirm st
  /\ trace_of (handle cfg a st) = [].
Proof.
  intros Ha. destruct a as [| |keyAttempt| |index checked| |network| |];
    try (cbn in Ha; contradiction); cbn [handle];
    try (destruct (negb (deleteKeyConfigured cfg)); [split; reflexivity|]).
  - split; reflexivity.
  - split; reflexivity.
  - destruct (Js.truthy keyAttempt && Nat.ltb 0 (String.length keyAttempt));
      split; reflexivity.
  - split; reflexivity.
  - split; reflexivity.
  - destruct (onConfirm st) eqn:Hon; split; try reflexivity; exact Hon.
Qed.

Lemma asides_keep_dialog cfg (mid : list action) : forall st,
  Forall aside mid ->
  onConfirm (result_of (handleAll cfg mid st)) = onConfirm st
  /\ trace_of (handleAll cfg mid st) = [].
Proof.
  induction mid as [|a mid IH]; intros st Hmid; [split; reflexivity|].
  apply Forall_cons in Hmid as [Ha Hmid].
  rewrite handleAll_cons, trace_bind, result_bind.
  destruct (aside_keeps_dialog cfg a st Ha) as [Hon Htr].
  destruct (IH (result_of (handle cfg a st)) Hmid) as [IHon IHtr].
  rewrite IHon, Hon, Htr, IHtr. split; reflexivity.
Qed.

Lemma click_delete_arms cfg st key :
  deleteKeyConfigured cfg = true ->
  enteredDeleteKey st = Some key ->
  key <> EmptyString ->
  selected st <> [] ->
  deleteSelectedDisabled st = false ->
  handle cfg ClickDeleteSelectedBtn st
  = ret (show "confirmDeleteModal" (setOnConfirm (Some (selected st)) st)).
Proof.
  intros Hcfg Hentered Hkey Hsel Hbtn. cbn [handle].
  rewrite Hcfg, Hbtn. cbn [negb].
  fold (selected st). destruct (selected st) as [|item items]; [congruence|].
  cbn [length Nat.eqb]. rewrite Hentered, (truthy_nonempty key Hkey).
  reflexivity.
Qed.

(** X9. The confirm button deletes what was selected when its dialog was
    opened, with the key held when it is clicked.  Ticking or unticking
    boxes in between does not change the items, and nothing done in
    between sends anything; but the key of the request is the one of
    that later moment: the key entered since, or [null] when delete
    mode was left, in which case the request goes out without any key
    the user entered. *)
Theorem confirm_sends_the_selection_with_the_key_of_the_click
    cfg st key (mid : list action) network :
  deleteKeyConfigured cfg = true ->
  enteredDeleteKey st = Some key ->
  key <> EmptyString ->
  selected st <> [] ->
  deleteSelectedDisabled st = false ->
  Forall aside mid ->
  let armed := handleAll cfg (ClickDeleteSelectedBtn :: mid) st in
  let sent actions :=
    requests
      (trace_of
         (handleAll cfg
            (ClickDeleteSelectedBtn :: actions ++ [ClickConfirmBtn network])
            st)) in
  trace_of armed = []
  /\ sent mid
     = [delete_request (selected st) (enteredDeleteKey (result_of armed))]
  /\ sent [] = [delete_request (selected st) (Some key)]
  /\ sent [ClickCancelDeleteModeBtn] = [delete_request (selected st) None]
  /\ (forall other,
        other <> EmptyString ->
        sent [ClickDeleteModalSubmitBtn other]
        = [delete_request (selected st) (Some other)]).
Proof.
  intros Hcfg Hentered Hkey Hsel Hbtn Hmid armed sent.
  assert (Hsent : forall actions,
    Forall aside actions ->
    trace_of (handleAll cfg (ClickDeleteSelectedBtn :: actions) st) = []
    /\ sent actions
       = [delete_request (selected st)
            (enteredDeleteKey
               (result_of
                  (handleAll cfg (ClickDeleteSelectedBtn :: actions) st)))]).
  { intros actions Hactions. subst sent. cbv beta.
    rewrite !handleAll_cons, (click_delete_arms cfg st key) by assumption.
    rewrite !trace_bind, result_bind, trace_ret, result_ret. cbn [app].
    set (st1 := show "confirmDeleteModal"
                  (setOnConfirm (Some (selected st)) st)).
    destruct (asides_keep_dialog cfg actions st1 Hactions) as [Hon Htr].
    split; [exact Htr|].
    rewrite handleAll_app, trace_bind, Htr. cbn [app].
    rewrite handleAll_cons, trace_bind.
    cbn [handle]. rewrite Hon. cbn [st1 show setOnConfirm onConfirm].
    unfold performDelete. rewrite trace_bind.
    destruct network; reflexivity. }
  destruct (Hsent mid Hmid) as [Htr Hreq].
  split; [exact Htr|]. split; [exact Hreq|].
  split; [|split].
  - rewrite (proj2 (Hsent [] (Forall_nil_2 _))).
    rewrite handleAll_cons, (click_delete_arms cfg st key) by assumption.
    rewrite result_bind, result_ret. cbn [handleAll result_of ret fst].
    cbn [show setOnConfirm enteredDeleteKey]. rewrite Hentered. reflexivity.
  - assert (Ha : Forall aside [ClickCancelDeleteModeBtn])
      by (repeat constructor).
    rewrite (proj2 (Hsent _ Ha)).
    rewrite handleAll_cons, (click_delete_arms cfg st key) by assumption.
    rewrite result_bind, result_ret. cbn [handleAll handle].
    rewrite Hcfg. reflexivity.
  - intros other Hother.
    assert (Ha : Forall aside [ClickDeleteModalSubmitBtn other])
      by (repeat constructor).
    rewrite (proj2 (Hsent _ Ha)).
    rewrite handleAll_cons, (click_delete_arms cfg st key) by assumption.
    rewrite result_bind, result_ret. cbn [handleAll handle].
    rewrite Hcfg. cbn [negb].
    rewrite (truthy_nonempty other Hother), (length_nonempty other Hother).
    reflexivity.
Qed.

Lemma shown_is_active (id : string) (X : gset string) : id ∈ X ∪ {[ id ]}.
Proof. apply elem_of_union_r, elem_of_singleton. reflexivity. Qed.

Lemma hidden_is_inactive (id : string) (X : gset string) : id ∉ X ∖ {[ id ]}.
Proof.
  intros H. apply elem_of_difference in H as [_ H].
  apply H, elem_of_singleton. reflexivity.
Qed.

Lemma hidden_stays_inactive (id other : string) (X : gset string) :
  id <> other -> id ∉ X ∖ {[ id ]} ∪ {[ other ]}.
Proof.
  intros Hne H. apply elem_of_union in H as [H|H].
  - exact (hidden_is_inactive id X H).
  - apply elem_of_singleton in H. contradiction.
Qed.

(** X10. Deleting a selection always takes one request: after Delete and
    Confirm the result modal is open and the confirm dialog closed,
    titled by whether the answer counts a failure (an answer without a
    count reads as none) or as an error when the request throws; closing
    the result reloads the page, and nothing else was sent. *)
Theorem delete_flow_sends_once_then_reloads cfg st key network :
  deleteKeyConfigured cfg = true ->
  enteredDeleteKey st = Some key ->
  key <> EmptyString ->
  selected st <> [] ->
  deleteSelectedDisabled st = false ->
  let answered :=
    handleAll cfg [ClickDeleteSelectedBtn; ClickConfirmBtn network] st in
  let closed :=
    handleAll cfg [ClickDeleteSelectedBtn; ClickConfirmBtn network;
                   ClickDeleteResultCloseBtn] st in
  trace_of closed
  = [delete_request (selected st) (Some key); LocationReload]
  /\ ("deleteResultModal"%string ∈ activeModals (result_of answered))
  /\ ("confirmDeleteModal"%string ∉ activeModals (result_of answered))
  /\ ("deleteResultModal"%string ∉ activeModals (result_of closed))
  /\ deleteResultTitle (result_of answered)
     = match network with
       | DeleteAnswer result =>
           match fail_count result with
           | Some (S _) => "Deletion Complete (with errors)"%string
           | Some 0 | None => "Deletion Successful"%string
           end
       | DeleteThrows _ => "Deletion Error"%string
       end.
Proof.
  intros Hcfg Hentered Hkey Hsel Hbtn answered closed. subst answered closed.
  rewrite !handleAll_cons, (click_delete_arms cfg st key) by assumption.
  cbn [handleAll]. eff_simpl.
  cbn [handle show hide setOnConfirm onConfirm enteredDeleteKey].
  rewrite Hcfg, Hentered. cbn [negb]. unfold performDelete. eff_simpl.
  destruct network as [result|message].
  - cbn [trace_of result_of ret fst snd app show setResult hide activeModals
         deleteResultTitle].
    split; [reflexivity|]. split; [apply shown_is_active|].
    split; [apply hidden_stays_inactive; discriminate|].
    split; [apply hidden_is_inactive|].
    destruct (fail_count result) as [[|n]|]; reflexivity.
  - cbn [trace_of result_of ret fst snd app show setResult hide activeModals
         deleteResultTitle].
    split; [reflexivity|]. split; [apply shown_is_active|].
    split; [apply hidden_stays_inactive; discriminate|].
    split; [apply hidden_is_inactive|]. reflexivity.
Qed.

Lemma selected_unticked (cbs : list (string * bool)) :
  fst <$> filter (fun cb : string * bool => snd cb = true)
            ((fun cb : string * bool => (fst cb, false)) <$> cbs) = [].
Proof.
  induction cbs as [|cb cbs IH]; [reflexivity|].
  rewrite fmap_cons, filter_cons_False by discriminate. exact IH.
Qed.

Lemma disabled_iff_none_selected (cbs : list (string * bool)) :
  negb (existsb snd cbs) = true
  <-> fst <$> filter (fun cb : string * bool => snd cb = true) cbs = [].
Proof.
  induction cbs as [|[value checked] cbs IH]; [split; reflexivity|].
  cbn [existsb snd]. destruct checked.
  - rewrite filter_cons_True by reflexivity. split; discriminate.
  - rewrite filter_cons_False by discriminate. exact IH.
Qed.

(** X11. Leaving delete mode forgets the key and unticks every box, so
    that the delete button then does nothing; the boxes themselves and
    the disabled flag of the button are left as they were.  While in
    delete mode, each change of a box leaves the button disabled exactly
    when no box is ticked. *)
Theorem leaving_delete_mode_disarms cfg st index checked :
  deleteKeyConfigured cfg = true ->
  let left := result_of (handle cfg ClickCancelDeleteModeBtn st) in
  let ticked := result_of (handle cfg (ChangeCheckbox index checked) st) in
  (enteredDeleteKey left = None
   /\ deleteModeClass left = false
   /\ selected left = []
   /\ fst <$> checkboxes left = fst <$> checkboxes st
   /\ deleteSelectedDisabled left = deleteSelectedDisabled st
   /\ handle cfg ClickDeleteSelectedBtn left = ret left)
  /\ (deleteSelectedDisabled ticked = true <-> selected ticked = []).
Proof.
  intros Hcfg left ticked. subst left ticked. cbn [handle].
  rewrite Hcfg. cbn [negb result_of ret fst]. split.
  - assert (Hsel : selected (exitDeleteMode st) = []).
    { unfold selected, exitDeleteMode. cbn [checkboxes].
      apply selected_unticked. }
    split; [reflexivity|]. split; [reflexivity|]. split; [exact Hsel|].
    split.
    { unfold exitDeleteMode. cbn [checkboxes].
      rewrite <- list_fmap_compose. apply list_fmap_ext. reflexivity. }
    split; [reflexivity|].
    destruct (deleteSelectedDisabled (exitDeleteMode st)); [reflexivity|].
    fold (selected (exitDeleteMode st)). rewrite Hsel. reflexivity.
  - unfold checkAnyCheckboxSelected, selected.
    cbn [deleteSelectedDisabled checkboxes setCheckboxes].
    apply disabled_iff_none_selected.
Qed.

End DeleteFlow.

Lemma delete_requests_have_key_and_items_witness :
  DeleteView.sound Sample.page /\
  Forall (fun e => exists items key,
              items <> [] /\ key <> Some EmptyString
              /\ e = DeleteView.delete_request items key)
    (Observe.requests
       (trace_of
          (DeleteMode.handleAll Sample.cfg
             [DeleteMode.ClickDeleteModalSubmitBtn "wrong";
              DeleteMode.ChangeCheckbox 1 true;
              DeleteMode.ClickDeleteSelectedBtn;
              DeleteMode.ClickConfirmBtn (DeleteMode.DeleteThrows "offline")]
             Sample.page)))
  /\ DeleteView.sound
       (result_of
          (DeleteMode.handleAll Sample.cfg
             [DeleteMode.ClickDeleteModalSubmitBtn "wrong";
              DeleteMode.ChangeCheckbox 1 true;
              DeleteMode.ClickDeleteSelectedBtn;
              DeleteMode.ClickConfirmBtn (DeleteMode.DeleteThrows "offline")]
             Sample.page)).
Proof.
  assert (Hsound : DeleteView.sound Sample.page).
  { split; discriminate. }
  split; [exact Hsound|].
  apply (delete_requests_have_key_and_items Sample.cfg _ Sample.page Hsound).
Defined.


Lemma confirm_sends_the_selection_with_the_key_of_the_click_witness :
  deleteKeyConfigured Sample.cfg = true /\
  DeleteMode.enteredDeleteKey Cases.armed_page = Some "wrong"%string /\
  "wrong"%string <> EmptyString /\
  DeleteMode.selected Cases.armed_page <> [] /\
  DeleteMode.deleteSelectedDisabled Cases.armed_page = false /\
  Forall DeleteView.aside
    [DeleteMode.ChangeCheckbox 0 true; DeleteMode.ClickCancelDeleteModeBtn] /\
  let network := DeleteMode.DeleteThrows "offline" in
  let mid :=
    [DeleteMode.ChangeCheckbox 0 true; DeleteMode.ClickCancelDeleteModeBtn] in
  let armed :=
    DeleteMode.handleAll Sample.cfg (DeleteMode.ClickDeleteSelectedBtn :: mid)
      Cases.armed_page in
  let sent actions :=
    Observe.requests
      (trace_of
         (DeleteMode.handleAll Sample.cfg
            (DeleteMode.ClickDeleteSelectedBtn
             :: actions ++ [DeleteMode.ClickConfirmBtn network])
            Cases.armed_page)) in
  trace_of armed = []
  /\ sent mid = [DeleteView.delete_request ["missing.txt"%string] None]
  /\ sent []
     = [DeleteView.delete_request ["missing.txt"%string] (Some "wrong"%string)]
  /\ sent [DeleteMode.ClickCancelDeleteModeBtn]
     = [DeleteView.delete_request ["missing.txt"%string] None]
  /\ (forall other,
        other <> EmptyString ->
        sent [DeleteMode.ClickDeleteModalSubmitBtn other]
        = [DeleteView.delete_request ["missing.txt"%string] (Some other)]).
Proof.
  assert (Hmid : Forall DeleteView.aside
            [DeleteMode.ChangeCheckbox 0 true;
             DeleteMode.ClickCancelDeleteModeBtn])
    by (repeat constructor).
  split; [reflexivity|]. split; [reflexivity|]. split; [discriminate|].
  split; [discriminate|]. split; [reflexivity|]. split; [exact Hmid|].
  apply (confirm_sends_the_selection_with_the_key_of_the_click Sample.cfg
           Cases.armed_page "wrong"
           [DeleteMode.ChangeCheckbox 0 true;
            DeleteMode.ClickCancelDeleteModeBtn]
           (DeleteMode.DeleteThrows "offline"));
    [reflexivity | reflexivity | discriminate | discriminate | reflexivity
    | exact Hmid].
Defined.

Lemma delete_flow_sends_once_then_reloads_witness :
  deleteKeyConfigured Sample.cfg = true /\
  DeleteMode.enteredDeleteKey Cases.armed_page = Some "wrong"%string /\
  "wrong"%string <> EmptyString /\
  DeleteMode.selected Cases.armed_page <> [] /\
  DeleteMode.deleteSelectedDisabled Cases.armed_page = false /\
  let network := DeleteMode.DeleteAnswer (DeleteMode.mkDeleteJson None None None) in
  let answered :=
    DeleteMode.handleAll Sample.cfg
      [DeleteMode.ClickDeleteSelectedBtn; DeleteMode.ClickConfirmBtn network]
      Cases.armed_page in
  let closed :=
    DeleteMode.handleAll Sample.cfg
      [DeleteMode.ClickDeleteSelectedBtn; DeleteMode.ClickConfirmBtn network;
       DeleteMode.ClickDeleteResultCloseBtn] Cases.armed_page in
  trace_of closed
  = [DeleteView.delete_request ["missing.txt"%string] (Some "wrong"%string);
     LocationReload]
  /\ ("deleteResultModal"%string ∈ DeleteMode.activeModals (result_of answered))
  /\ ("confirmDeleteModal"%string ∉ DeleteMode.activeModals (result_of answered))
  /\ ("deleteResultModal"%string ∉ DeleteMode.activeModals (result_of closed))
  /\ DeleteMode.deleteResultTitle (result_of answered)
     = "Deletion Successful"%string.
Proof.
  split; [reflexivity|]. split; [reflexivity|]. split; [discriminate|].
  split; [discriminate|]. split; [reflexivity|].
  apply (delete_flow_sends_once_then_reloads Sample.cfg Cases.armed_page
           "wrong" (DeleteMode.DeleteAnswer (DeleteMode.mkDeleteJson None None None)));
    [reflexivity | reflexivity | discriminate | discriminate | reflexivity].
Defined.

Lemma leaving_delete_mode_disarms_witness :
  deleteKeyConfigured Sample.cfg = true /\
  let left :=
    result_of (DeleteMode.handle Sample.cfg DeleteMode.ClickCancelDeleteModeBtn
                 Cases.armed_page) in
  let ticked :=
    result_of (DeleteMode.handle Sample.cfg (DeleteMode.ChangeCheckbox 1 false)
                 Cases.armed_page) in
  (DeleteMode.enteredDeleteKey left = None
   /\ DeleteMode.deleteModeClass left = false
   /\ DeleteMode.selected left = []
   /\ fst <$> DeleteMode.checkboxes left
      = fst <$> DeleteMode.checkboxes Cases.armed_page
   /\ DeleteMode.deleteSelectedDisabled left
      = DeleteMode.deleteSelectedDisabled Cases.armed_page
   /\ DeleteMode.handle Sample.cfg DeleteMode.ClickDeleteSelectedBtn left
      = ret left)
  /\ (DeleteMode.deleteSelectedDisabled ticked = true
      <-> DeleteMode.selected ticked = []).
Proof.
  split; [reflexivity|].
  apply (leaving_delete_mode_disarms Sample.cfg Cases.armed_page 1 false).
  reflexivity.
Defined.

(** ** [ModalManager] *)

Section ModalFacts.

Import Modal.

Context {S : Type}.

Implicit Types (m : manager S) (s : S) (ms : list (string * modal S)).

Lemma get_assign_eq id (c : modal S) ms : get id (assign id c ms) = Some c.
Proof.
  induction ms as [|[k c'] ms IH]; cbn [assign get].
  - rewrite String.eqb_refl. reflexivity.
  - destruct (String.eqb k id) eqn:Hk; cbn [get]; rewrite Hk; [reflexivity | exact IH].
Qed.

Lemma get_assign_ne id id' (c : modal S) ms :
  id <> id' -> get id' (assign id c ms) = get id' ms.
Proof.
  intros Hne. induction ms as [|[k c'] ms IH]; cbn [assign get].
  - destruct (String.eqb id id') eqn:H; [|reflexivity].
    apply String.eqb_eq in H. contradiction.
  - destruct (String.eqb k id) eqn:Hk; cbn [get].
    + apply String.eqb_eq in Hk as ->.
      destruct (String.eqb id id') eqn:H; [|reflexivity].
      apply String.eqb_eq in H. contradiction.
    + rewrite IH. reflexivity.
Qed.

Lemma get_Some_key id ms (c : modal S) : get id ms = Some c -> id ∈ fst <$> ms.
Proof.
  induction ms as [|[k c'] ms IH]; cbn [get]; [discriminate|].
  rewrite fmap_cons. cbn [fst].
  destruct (String.eqb k id) eqn:Hk.
  - apply String.eqb_eq in Hk as ->. intros _. apply list_elem_of_here.
  - intros H. apply list_elem_of_further, IH, H.
Qed.

Lemma get_None_key id ms : get id ms = None -> id ∉ fst <$> ms.
Proof.
  induction ms as [|[k c'] ms IH]; cbn [get]; [intros _; apply not_elem_of_nil|].
  rewrite fmap_cons. cbn [fst].
  destruct (String.eqb k id) eqn:Hk; [discriminate|].
  intros H Hin. apply elem_of_cons in Hin as [->|Hin].
  - rewrite String.eqb_refl in Hk. discriminate.
  - exact (IH H Hin).
Qed.

Lemma keys_assign id (c : modal S) ms :
  fst <$> assign id c ms
  = match get id ms with
    | Some _ => fst <$> ms
    | None => (fst <$> ms) ++ [id]
    end.
Proof.
  induction ms as [|[k c'] ms IH]; cbn [assign get]; [reflexivity|].
  destruct (String.eqb k id) eqn:Hk; [reflexivity|].
  rewrite !fmap_cons, IH. destruct (get id ms); reflexivity.
Qed.

Lemma register_well_formed id (o : options S) m :
  well_formed m -> well_formed (snd (register id o m)).
Proof.
  intros (Hnodup & Hels & Hactive & Hoverlay). unfold register.
  destruct (decide (id ∈ elements m)) as [Hid|Hid];
    [|repeat split; assumption].
  cbn [snd]. unfold well_formed, keys in *. cbn [modals elements active overlay].
  rewrite keys_assign.
  assert (Hin : forall x, x ∈ fst <$> modals m ->
                     x ∈ match get id (modals m) with
                         | Some _ => fst <$> modals m
                         | None => (fst <$> modals m) ++ [id]
                         end).
  { intros x Hx. destruct (get id (modals m)); [exact Hx|].
    apply elem_of_app. left. exact Hx. }
  assert (Hnew : id ∈ match get id (modals m) with
                       | Some _ => fst <$> modals m
                       | None => (fst <$> modals m) ++ [id]
                       end).
  { destruct (get id (modals m)) eqn:Hget.
    - eapply get_Some_key, Hget.
    - apply elem_of_app. right. apply list_elem_of_here. }
  split; [|split; [|split]].
  - destruct (get id (modals m)) eqn:Hget; [exact Hnodup|].
    apply NoDup_app. split; [exact Hnodup|]. split; [|apply NoDup_singleton].
    intros x Hx Hx'. apply list_elem_of_singleton in Hx' as ->.
    exact (get_None_key _ _ Hget Hx).
  - intros x Hx. destruct (get id (modals m)); [apply Hels, Hx|].
    apply elem_of_app in Hx as [Hx|Hx]; [apply Hels, Hx|].
    apply list_elem_of_singleton in Hx as ->. exact Hid.
  - intros x Hx. apply Hin, Hactive, Hx.
  - intros x Hx. destruct (not_false (opt_closeOnOverlay o)).
    + apply elem_of_app in Hx as [Hx|Hx]; [apply Hin, Hoverlay, Hx|].
      apply list_elem_of_singleton in Hx as ->. exact Hnew.
    + apply Hin, Hoverlay, Hx.
Qed.

Lemma show_well_formed id m : well_formed m -> well_formed (show id m).
Proof.
  intros (Hnodup & Hels & Hactive & Hoverlay). unfold show.
  destruct (get id (modals m)) eqn:Hget; [|repeat split; assumption].
  unfold well_formed, keys in *. cbn [modals elements active overlay].
  repeat split; try assumption.
  intros x Hx. apply elem_of_union in Hx as [Hx|Hx]; [apply Hactive, Hx|].
  apply elem_of_singleton in Hx as ->. eapply get_Some_key, Hget.
Qed.

Lemma hide_well_formed id m s :
  well_formed m -> well_formed (fst (hide id (m, s))).
Proof.
  intros (Hnodup & Hels & Hactive & Hoverlay). unfold hide.
  destruct (get id (modals m)) eqn:Hget; [|repeat split; assumption].
  unfold well_formed, keys in *. cbn [fst modals elements active overlay].
  repeat split; try assumption.
  intros x Hx. apply elem_of_difference in Hx as [Hx _]. apply Hactive, Hx.
Qed.

Lemma hide_modals id m s : modals (fst (hide id (m, s))) = modals m.
Proof. unfold hide. destruct (get id (modals m)); reflexivity. Qed.

Lemma hide_overlay id m s : overlay (fst (hide id (m, s))) = overlay m.
Proof. unfold hide. destruct (get id (modals m)); reflexivity. Qed.

Lemma hides_well_formed {A : Type} (f : A -> string) (xs : list A) :
  forall w : manager S * S,
    well_formed (fst w) ->
    well_formed (fst (fold_left (fun w x => hide (f x) w) xs w)).
Proof.
  induction xs as [|x xs IH]; intros [m s] Hwf; [exact Hwf|].
  cbn [fold_left]. apply IH.
  destruct (hide (f x) (m, s)) as [m' s'] eqn:Hh.
  change m' with (fst (m', s')). rewrite <- Hh. apply hide_well_formed, Hwf.
Qed.

Lemma escape_well_formed (w : manager S * S) :
  well_formed (fst w) -> well_formed (fst (escape w)).
Proof.
  unfold escape. generalize (keys (fst w)). intros ks. revert w.
  induction ks as [|k ks IH]; intros [m s] Hwf; [exact Hwf|].
  cbn [fold_left fst]. apply IH.
  destruct (get k (modals m)) as [config|]; [|exact Hwf].
  destruct (closeOnEscape config && bool_decide (k ∈ active m)); [|exact Hwf].
  apply hide_well_formed, Hwf.
Qed.

Lemma step_well_formed (o : op S) (w : manager S * S) :
  well_formed (fst w) -> well_formed (fst (step o w)).
Proof.
  intros Hwf. destruct w as [m s]. destruct o as [id opts|id|id|id|]; cbn [step fst snd].
  - apply register_well_formed, Hwf.
  - apply show_well_formed, Hwf.
  - apply hide_well_formed, Hwf.
  - unfold overlayClick.
    apply (hides_well_formed (fun _ : string => id)). exact Hwf.
  - apply escape_well_formed, Hwf.
Qed.

Lemma step_elements (o : op S) (w : manager S * S) :
  elements (fst (step o w)) = elements (fst w).
Proof.
  destruct w as [m s]. destruct o as [id opts|id|id|id|]; cbn [step fst snd].
  - unfold register. destruct (decide _); reflexivity.
  - unfold show. destruct (get id (modals m)); reflexivity.
  - unfold hide. destruct (get id (modals m)); reflexivity.
  - unfold overlayClick. cbn [fst].
    generalize (List.filter (String.eqb id) (overlay m)). intros xs.
    revert m s. induction xs as [|x xs IH]; intros m s; [reflexivity|].
    cbn [fold_left]. destruct (hide id (m, s)) as [m' s'] eqn:Hh.
    rewrite IH. change m' with (fst (m', s')). rewrite <- Hh.
    unfold hide. destruct (get id (modals m)); reflexivity.
  - unfold escape. cbn [fst]. generalize (keys m). intros ks.
    revert m s. induction ks as [|k ks IH]; intros m s; [reflexivity|].
    cbn [fold_left fst].
    destruct (get k (modals m)) as [config|] eqn:Hget; [|apply IH].
    destruct (closeOnEscape config && bool_decide (k ∈ active m)); [|apply IH].
    destruct (hide k (m, s)) as [m' s'] eqn:Hh.
    rewrite IH. change m' with (fst (m', s')). rewrite <- Hh.
    unfold hide. rewrite Hget. reflexivity.
Qed.


Lemma hide_spec id m s :
  hide id (m, s)
  = match get id (modals m) with
    | Some _ =>
        ({| elements := elements m;
            modals := modals m;
            active := active m ∖ {[ id ]};
            overlay := overlay m |},
         closed m s id)
    | None => (m, s)
    end.
Proof.
  unfold hide, closed. destruct (get id (modals m)); reflexivity.
Qed.

(** Escape handled for the ids [ks] only. *)
Lemma escape_over (ks : list string) : forall m s,
  NoDup ks ->
  let w' :=
    fold_left
      (fun (w : manager S * S) id =>
         match get id (modals (fst w)) with
         | Some config =>
             if closeOnEscape config && bool_decide (id ∈ active (fst w))
             then hide id w
             else w
         | None => w
         end) ks (m, s) in
  modals (fst w') = modals m
  /\ (forall id,
        id ∈ active (fst w')
        <-> id ∈ active m /\ ~ (id ∈ ks /\ closes m id = true))
  /\ snd w' = fold_left (closed m) (List.filter (closes m) ks) s.
Proof.
  induction ks as [|k ks IH]; intros m s Hnodup.
  - cbn. split; [reflexivity|]. split; [|reflexivity].
    intros id. split; [intros H; split; [exact H|] | intros [H _]; exact H].
    intros [Hin _]. exact (not_elem_of_nil _ Hin).
  - apply NoDup_cons in Hnodup as [Hk Hnodup].
    cbn [fold_left fst List.filter]. fold (closes m k).
    assert (Hstep :
      match get k (modals m) with
      | Some config =>
          if closeOnEscape config && bool_decide (k ∈ active m)
          then hide k (m, s) else (m, s)
      | None => (m, s)
      end = if closes m k then hide k (m, s) else (m, s)).
    { unfold closes. destruct (get k (modals m)); reflexivity. }
    rewrite Hstep. clear Hstep.
    destruct (closes m k) eqn:Hcloses.
    + rewrite hide_spec.
      assert (Hget : exists c, get k (modals m) = Some c).
      { unfold closes in Hcloses. destruct (get k (modals m)); [eauto|discriminate]. }
      destruct Hget as [c Hget]. rewrite Hget.
      set (m1 := {| elements := elements m; modals := modals m;
                    active := active m ∖ {[ k ]}; overlay := overlay m |}).
      destruct (IH m1 (closed m s k) Hnodup) as (Hmodals & Hactive & Hs).
      assert (Hsame : forall id, id ∈ ks -> closes m1 id = closes m id).
      { intros id Hid. unfold closes. cbn [m1 modals active].
        destruct (get id (modals m)); [|reflexivity]. f_equal.
        apply bool_decide_ext. rewrite elem_of_difference, elem_of_singleton.
        split; [intros [H _]; exact H | intros H; split; [exact H|]].
        intros ->. contradiction. }
      assert (Hfilter : List.filter (closes m1) ks = List.filter (closes m) ks).
      { clear -Hsame. induction ks as [|x xs IHxs]; [reflexivity|].
        cbn [List.filter]. rewrite (Hsame x) by apply list_elem_of_here.
        rewrite IHxs; [reflexivity|].
        intros id Hid. apply Hsame, list_elem_of_further, Hid. }
      split; [exact Hmodals|]. split.
      * intros id. rewrite Hactive. cbn [m1 active].
        rewrite elem_of_difference, elem_of_singleton. split.
        -- intros [[Hid Hne] Hnot]. split; [exact Hid|].
           intros [Hin Hc]. apply elem_of_cons in Hin as [->|Hin]; [congruence|].
           apply Hnot. split; [exact Hin|]. rewrite Hsame by exact Hin. exact Hc.
        -- intros [Hid Hnot].
           assert (Hne : id <> k).
           { intros ->. apply Hnot. split; [apply list_elem_of_here | exact Hcloses]. }
           split; [split; assumption|].
           intros [Hin Hc]. apply Hnot. split; [apply list_elem_of_further, Hin|].
           rewrite <- Hsame by exact Hin. exact Hc.
      * rewrite Hs, Hfilter. reflexivity.
    + destruct (IH m s Hnodup) as (Hmodals & Hactive & Hs).
      split; [exact Hmodals|]. split; [|exact Hs].
      intros id. rewrite Hactive. split; intros [Hid Hnot]; (split; [exact Hid|]).
      * intros [Hin Hc]. apply elem_of_cons in Hin as [->|Hin]; [congruence|].
        apply Hnot. split; assumption.
      * intros [Hin Hc]. apply Hnot. split; [apply list_elem_of_further, Hin | exact Hc].
Qed.

(** X13. The Escape key closes exactly the modals that are shown and
    were registered with [closeOnEscape]: those lose the class [active]
    and their [onClose] runs once each, in the order of the registry;
    every other modal stays as it was, and the [onClose] of a modal that
    is not shown does not run. *)
Theorem escape_closes_the_escapable_modals_shown m s :
  NoDup (keys m) ->
  let w' := escape (m, s) in
  modals (fst w') = modals m
  /\ (forall id, id ∈ active (fst w') <-> id ∈ active m /\ closes m id = false)
  /\ snd w' = fold_left (closed m) (List.filter (closes m) (keys m)) s.
Proof.
  intros Hnodup w'. subst w'. unfold escape. cbn [fst].
  destruct (escape_over (keys m) m s Hnodup) as (Hmodals & Hactive & Hs).
  split; [exact Hmodals|]. split; [|exact Hs].
  intros id. rewrite Hactive. split; intros [Hid Hnot]; (split; [exact Hid|]).
  - destruct (closes m id) eqn:Hc; [|reflexivity]. exfalso. apply Hnot.
    split; [|reflexivity]. unfold closes in Hc.
    destruct (get id (modals m)) eqn:Hget; [|discriminate].
    eapply get_Some_key, Hget.
  - intros [_ Hc]. congruence.
Qed.

(** X14. Registering replaces what was registered: after [register], for
    an element of the document, [hide] runs the [onClose] just given,
    once, whether or not the modal is shown, and never one registered
    before; the modal is shown by [show] and not shown after [hide], and
    the other modals are as they were. *)
Theorem hide_runs_the_onClose_last_registered id (o : options S) m s :
  id ∈ elements m ->
  let m1 := snd (register id o m) in
  let after := match opt_onClose o with
               | Some callback => callback s
               | None => s
               end in
  id ∈ active (show id m1)
  /\ (id ∉ active (fst (hide id (show id m1, s))))
  /\ snd (hide id (show id m1, s)) = after
  /\ snd (hide id (m1, s)) = after
  /\ (forall id', id' <> id ->
        get id' (modals m1) = get id' (modals m)
        /\ (id' ∈ active (fst (hide id (show id m1, s))) <-> id' ∈ active m)).
Proof.
  intros Hid m1 after. subst m1 after. unfold register.
  destruct (decide (id ∈ elements m)) as [_|Hno]; [|contradiction].
  cbn [snd]. unfold show, hide. cbn [modals active].
  rewrite !get_assign_eq. cbn [modals active fst snd onClose].
  rewrite !get_assign_eq. cbn [fst snd onClose active].
  split; [apply shown_is_active|]. split; [apply hidden_is_inactive|].
  split; [reflexivity|]. split; [reflexivity|].
  intros id' Hne. split; [apply get_assign_ne; congruence|].
  rewrite elem_of_difference, elem_of_union, !elem_of_singleton.
  split; [intros [[H|H] _]; [exact H | contradiction] | intros H; split; [left; exact H | exact Hne]].
Qed.

End ModalFacts.

(** ** The key modals *)

Section WebRun.

Import Web.

Context {W A : Type} (handle : A -> W -> W * list effect).

Lemma run_from (actions : list A) : forall (w : W) (acc : list effect),
  fold_left
    (fun acc a => let '(w', es) := handle a (fst acc) in (w', snd acc ++ es))
    actions (w, acc)
  = (fst (run handle actions w), acc ++ snd (run handle actions w)).
Proof.
  unfold run. induction actions as [|a rest IH]; intros w acc.
  - cbn. rewrite app_nil_r. reflexivity.
  - cbn [fold_left fst snd]. destruct (handle a w) as [w' es].
    rewrite (IH w' (acc ++ es)), (IH w' ([] ++ es)). cbn [fst snd app].
    rewrite app_assoc. reflexivity.
Qed.

Lemma run_cons (a : A) (rest : list A) (w : W) :
  run handle (a :: rest) w
  = (fst (run handle rest (fst (handle a w))),
     snd (handle a w) ++ snd (run handle rest (fst (handle a w)))).
Proof.
  unfold run at 1. cbn [fold_left fst snd].
  destruct (handle a w) as [w' es]. cbn [app fst snd]. apply run_from.
Qed.

Lemma run_nil (w : W) : run handle [] w = (w, []).
Proof. reflexivity. Qed.

End WebRun.

Section HiddenToggleFacts.

Import Web HiddenToggle.

(** X15. Dismissing the hidden-folder modal, by Cancel, by the Escape
    key or by a click on the overlay, puts the checkbox back to what the
    server reported for the folder, whatever the user had set it to;
    the modal is closed and nothing is sent. *)
Theorem dismissing_reverts_the_hidden_toggle
    cfg (els : gset string) st checked a :
  hiddenKeyConfigured (base cfg) = true ->
  "hiddenKeyModal"%string ∈ els ->
  dismisses a ->
  let opened :=
    fst (handle cfg (ChangeToggle checked) (setup cfg (Modal.start els), st)) in
  let dismissed := handle cfg a opened in
  hiddenToggle (snd opened) = checked
  /\ ("hiddenKeyModal"%string ∈ Modal.active (fst opened))
  /\ hiddenToggle (snd (fst dismissed)) = isCurrentPathHidden (base cfg)
  /\ ("hiddenKeyModal"%string ∉ Modal.active (fst (fst dismissed)))
  /\ snd dismissed = [].
Proof.
  intros Hcfg Hel Ha opened dismissed. subst opened dismissed.
  assert (Hsetup :
    setup cfg (Modal.start els)
    = {| Modal.elements := els;
         Modal.modals :=
           [("hiddenKeyModal"%string,
             {| Modal.onClose := Some (setToggle (isCurrentPathHidden (base cfg)));
                Modal.closeOnEscape := true;
                Modal.closeOnOverlay := true |})];
         Modal.active := ∅;
         Modal.overlay := ["hiddenKeyModal"%string] |}).
  { unfold setup, Modal.register, Modal.start. rewrite Hcfg.
    cbn [negb Modal.elements].
    destruct (decide ("hiddenKeyModal"%string ∈ els)) as [_|Hno];
      [reflexivity | contradiction]. }
  rewrite Hsetup. clear Hsetup.
  cbn [handle]. rewrite Hcfg. cbn [negb fst snd].
  unfold Modal.show. cbn [Modal.modals Modal.get].
  change (String.eqb "hiddenKeyModal" "hiddenKeyModal") with true.
  cbn [Modal.elements Modal.modals Modal.active Modal.overlay].
  split; [reflexivity|]. split; [apply shown_is_active|].
  assert (Hshown : bool_decide ("hiddenKeyModal"%string ∈ (∅ : gset string) ∪ {[ "hiddenKeyModal"%string ]}) = true).
  { apply bool_decide_eq_true, shown_is_active. }
  destruct Ha as [->|[->| ->]]; cbn [handle]; rewrite ?Hcfg; cbn [negb fst snd].
  - unfold Modal.hide. cbn [Modal.modals Modal.get].
    change (String.eqb "hiddenKeyModal" "hiddenKeyModal") with true.
    cbn [fst snd Modal.onClose Modal.active setToggle hiddenToggle].
    split; [reflexivity|]. split; [apply hidden_is_inactive | reflexivity].
  - unfold Modal.escape, Modal.keys.
    cbn [fst Modal.modals fmap list_fmap fold_left Modal.get].
    change (String.eqb "hiddenKeyModal" "hiddenKeyModal") with true.
    cbn [Modal.closeOnEscape Modal.active andb].
    rewrite Hshown. unfold Modal.hide. cbn [Modal.modals Modal.get].
    change (String.eqb "hiddenKeyModal" "hiddenKeyModal") with true.
    cbn [fst snd Modal.onClose Modal.active setToggle hiddenToggle].
    split; [reflexivity|]. split; [apply hidden_is_inactive | reflexivity].
  - unfold Modal.overlayClick. cbn [fst Modal.overlay List.filter].
    change (String.eqb "hiddenKeyModal" "hiddenKeyModal") with true.
    cbn [fold_left].
    unfold Modal.hide. cbn [Modal.modals Modal.get].
    change (String.eqb "hiddenKeyModal" "hiddenKeyModal") with true.
    cbn [fst snd Modal.onClose Modal.active setToggle hiddenToggle].
    split; [reflexivity|]. split; [apply hidden_is_inactive | reflexivity].
Qed.

Lemma handle_change_toggle cfg m st checked :
  hiddenKeyConfigured (base cfg) = true ->
  exists st',
    handle cfg (ChangeToggle checked) (m, st)
    = ((Modal.show "hiddenKeyModal" m, st'), [])
    /\ hiddenToggle st' = checked
    /\ hiddenModalKeyInput st' = EmptyString
    /\ hiddenModalConfirmBtn st' = hiddenModalConfirmBtn st.
Proof.
  intros Hcfg. cbn [handle]. rewrite Hcfg. cbn [negb].
  eexists. split; [reflexivity|]. repeat split.
Qed.

Lemma handle_click_confirm cfg w network :
  hiddenKeyConfigured (base cfg) = true ->
  hiddenModalConfirmBtn (snd w) = false ->
  handle cfg (ClickConfirm network) w = confirm cfg network w.
Proof.
  intros Hcfg Hbtn. destruct w as [m st]. cbn [snd] in Hbtn.
  cbn [handle]. rewrite Hcfg, Hbtn. reflexivity.
Qed.

(** X16. Flipping the checkbox, typing a key and confirming sends one
    request, for the current folder, with that key and with [hide] as the
    checkbox was just set.  Only an answer that is ok navigates, to the
    parent address or to [/] when there is none, and leaves the button
    disabled; any other answer or an exception shows an error (the
    server's, [Request failed], or the exception's), enables the button
    again and leaves the checkbox as the user set it.  Confirming without
    typing sends nothing, the key field being cleared when the modal
    opens. *)
Theorem hidden_toggle_sends_what_was_chosen cfg (w : world) checked key network :
  hiddenKeyConfigured (base cfg) = true ->
  hiddenModalConfirmBtn (snd w) = false ->
  key <> EmptyString ->
  let typed :=
    run (handle cfg) [ChangeToggle checked; TypeKey key; ClickConfirm network] w in
  let untyped :=
    run (handle cfg) [ChangeToggle checked; ClickConfirm network] w in
  let request := toggle_request (currentPath (base cfg)) key checked in
  let after := snd (fst typed) in
  match network with
  | Answers true _ =>
      snd typed = [request; SetHref (Some (field_or (parentUrl cfg) "/"))]
      /\ hiddenModalConfirmBtn after = true
  | Answers false result =>
      snd typed = [request]
      /\ hiddenModalError after = field_or (error result) "Request failed"
      /\ hiddenModalConfirmBtn after = false
      /\ hiddenToggle after = checked
  | Throws message =>
      snd typed = [request]
      /\ hiddenModalError after = message
      /\ hiddenModalConfirmBtn after = false
      /\ hiddenToggle after = checked
  end
  /\ snd untyped = []
  /\ hiddenModalError (snd (fst untyped)) = "Key required."%string.
Proof.
  intros Hcfg Hbtn Hkey typed untyped request after.
  subst typed untyped request after. destruct w as [m st]. cbn [snd] in Hbtn.
  destruct (handle_change_toggle cfg m st checked Hcfg)
    as (st1 & Hchange & Htoggle & Hinput & Hbtn1).
  rewrite Hbtn in Hbtn1.
  rewrite !run_cons, !run_nil, Hchange. cbn [fst snd app].
  change (handle cfg (TypeKey key) (Modal.show "hiddenKeyModal" m, st1))
    with ((Modal.show "hiddenKeyModal" m, setKeyInput key st1), @nil effect).
  cbn [fst snd app].
  rewrite !handle_click_confirm by assumption.
  unfold confirm.
  cbn [hiddenModalKeyInput hiddenToggle setKeyInput].
  rewrite (truthy_nonempty key Hkey), Hinput, Htoggle. cbn [negb Js.truthy].
  split; [|split; reflexivity].
  destruct network as [[|] result|message];
    cbn [negb fst snd app setDisabled setError setKeyInput hiddenModalError
         hiddenModalConfirmBtn hiddenToggle];
    rewrite ?Htoggle; repeat split.
Qed.

End HiddenToggleFacts.

Section ViewHiddenFacts.

Import Web ViewHidden.

(** X17. Opening the view-hidden modal, typing a key and confirming
    sends one request with that key; the page is reloaded only when the
    answer is ok, an answer that is not shows the server's error or
    [Failed.], an exception shows [Network error.], and in every case the
    button is enabled again.  The title tells which way the switch goes.
    Confirming without typing sends nothing, the key field being cleared
    when the modal opens. *)
Theorem view_hidden_reloads_only_when_ok cfg (w : world) key network :
  hiddenKeyConfigured (base cfg) = true ->
  viewHiddenConfirmBtn (snd w) = false ->
  key <> EmptyString ->
  let typed :=
    run (handle cfg) [ClickViewHiddenBtn; TypeKey key; ClickConfirm network] w in
  let untyped :=
    run (handle cfg) [ClickViewHiddenBtn; ClickConfirm network] w in
  let request :=
    Post "/api/toggle-view-hidden" json_headers [("key"%string, JString key)] in
  let after := snd (fst typed) in
  snd typed
  = request :: match network with
               | Answers true _ => [Reload]
               | Answers false _ | Throws _ => []
               end
  /\ viewHiddenConfirmBtn after = false
  /\ viewHiddenError after
     = match network with
       | Answers true _ => EmptyString
       | Answers false result => field_or (error result) "Failed."
       | Throws _ => "Network error."%string
       end
  /\ viewHiddenTitle after
     = (if showHiddenFiles cfg then "Hide Hidden Folders"
        else "View Hidden Folders")%string
  /\ snd untyped = []
  /\ viewHiddenError (snd (fst untyped)) = "Password required."%string.
Proof.
  intros Hcfg Hbtn Hkey typed untyped request after.
  subst typed untyped request after. destruct w as [m st].
  destruct st as [key0 error0 title0 text0 btn0].
  cbn [snd viewHiddenConfirmBtn] in Hbtn. subst btn0.
  rewrite !run_cons, !run_nil.
  pose proof (truthy_nonempty key Hkey) as Htruthy.
  cbn [handle]. rewrite Hcfg. cbn [negb fst snd app].
  destruct (showHiddenFiles cfg);
    repeat (cbn [handle confirm negb fst snd app setTitle setKeyInput setError
                 setDisabled viewHiddenConfirmBtn viewHiddenKeyInput
                 viewHiddenError viewHiddenTitle viewHiddenText Js.truthy];
            rewrite ?Hcfg, ?Htruthy);
    destruct network as [[|] result|message]; cbn; repeat split.
Qed.

End ViewHiddenFacts.

Section TrimFacts.

Import Batch.

Lemma trimStart_first (s : string) (c : ascii) :
  first_char (Js.trimStart s) = Some c -> Js.isWhiteSpace c = false.
Proof.
  induction s as [|c' s IH]; [discriminate|]. cbn [Js.trimStart].
  destruct (Js.isWhiteSpace c') eqn:Hc; [exact IH|].
  intros [= <-]. exact Hc.
Qed.

Lemma trimEnd_cases (s : string) :
  Js.trimEnd s = EmptyString \/ first_char (Js.trimEnd s) = first_char s.
Proof.
  destruct s as [|c s]; [left; reflexivity|]. cbn [Js.trimEnd].
  destruct (Js.isWhiteSpace c && negb (Js.truthy (Js.trimEnd s)));
    [left|right]; reflexivity.
Qed.

Lemma trimEnd_last (s : string) (c : ascii) :
  last_char (Js.trimEnd s) = Some c -> Js.isWhiteSpace c = false.
Proof.
  induction s as [|c' s IH]; [discriminate|]. cbn [Js.trimEnd].
  destruct (Js.trimEnd s) as [|c'' r] eqn:Hr; cbn [Js.truthy negb].
  - rewrite andb_true_r. destruct (Js.isWhiteSpace c') eqn:Hc; [discriminate|].
    intros [= <-]. exact Hc.
  - rewrite andb_false_r. exact IH.
Qed.

(** What [trim] returns neither starts nor ends with white space. *)
Lemma trim_ends (s : string) (c : ascii) :
  first_char (Js.trim s) = Some c \/ last_char (Js.trim s) = Some c ->
  Js.isWhiteSpace c = false.
Proof.
  unfold Js.trim. intros [H|H]; [|eapply trimEnd_last, H].
  destruct (trimEnd_cases (Js.trimStart s)) as [Hempty|Hsame].
  - rewrite Hempty in H. discriminate.
  - rewrite Hsame in H. eapply trimStart_first, H.
Qed.

End TrimFacts.

Section CreateFolderFacts.

Import Web CreateFolder Batch.

Lemma handle_click_create cfg w network :
  createFolderConfirmBtn (snd w) = false ->
  handle cfg (ClickConfirm network) w = confirm cfg network w.
Proof.
  intros Hbtn. destruct w as [m st]. cbn [snd] in Hbtn.
  cbn [handle]. rewrite Hbtn. reflexivity.
Qed.

(** X18. The create-folder request is sent only for a name that is not
    blank, a key that is not empty and, when protection is ticked, a
    password that is not empty; nothing is sent otherwise.  It names the
    current folder as parent and the name without the white space
    around it, and carries the password only when protection is ticked:
    the field is null otherwise, whatever the password field holds. *)
Theorem create_folder_checks_then_sends cfg (w : world) network :
  createFolderConfirmBtn (snd w) = false ->
  let st := snd w in
  let name := Js.trim (newFolderName st) in
  let done := handle cfg (ClickConfirm network) w in
  (name = EmptyString
   \/ createFolderKey st = EmptyString
   \/ (enableFolderProtection st = true
       /\ folderProtectionPassword st = EmptyString) ->
   snd done = [])
  /\ (name <> EmptyString ->
      createFolderKey st <> EmptyString ->
      (enableFolderProtection st = true ->
       folderProtectionPassword st <> EmptyString) ->
      posts (snd done)
      = [create_request (currentPath (base cfg)) name (createFolderKey st)
           (if enableFolderProtection st
            then Some (folderProtectionPassword st) else None)])
  /\ (forall c,
        first_char name = Some c \/ last_char name = Some c ->
        Js.isWhiteSpace c = false).
Proof.
  intros Hbtn st name done. subst st name done.
  rewrite handle_click_create by exact Hbtn. destruct w as [m st].
  cbn [snd]. unfold confirm. split; [|split].
  - intros Hbad.
    destruct (Js.trim (newFolderName st)) as [|c name] eqn:Hname;
      [reflexivity|].
    destruct (createFolderKey st) as [|c' key] eqn:Hk; [reflexivity|].
    cbn [Js.truthy negb orb].
    destruct Hbad as [Hbad|[Hbad|[Hen Hpwd]]]; try discriminate.
    rewrite Hen, Hpwd. reflexivity.
  - intros Hname Hk Hpwd.
    rewrite (truthy_nonempty _ Hname), (truthy_nonempty _ Hk).
    cbn [negb orb].
    destruct (enableFolderProtection st) eqn:Hen; cbn [andb Js.truthy_opt].
    + rewrite (truthy_nonempty _ (Hpwd eq_refl)). cbn [negb].
      destruct network as [[|] result|message]; reflexivity.
    + destruct network as [[|] result|message]; reflexivity.
  - apply trim_ends.
Qed.

(** X19. Unticking protection empties the password field: ticking it
    again and confirming asks for the password and sends nothing, and
    the request of a folder left unprotected carries no password.
    Opening the modal empties the whole form, so that confirming at once
    sends nothing. *)
Theorem unticking_protection_forgets_the_password
    cfg (w : world) name key password network :
  createFolderConfirmBtn (snd w) = false ->
  Js.trim name <> EmptyString ->
  key <> EmptyString ->
  let filled := [TypeName name; TypeKey key; ChangeProtection true;
                 TypePassword password; ChangeProtection false] in
  let reticked :=
    run (handle cfg) (filled ++ [ChangeProtection true; ClickConfirm network]) w in
  let unticked := run (handle cfg) (filled ++ [ClickConfirm network]) w in
  let reopened :=
    run (handle cfg) (filled ++ [ClickCreateFolderBtn; ClickConfirm network]) w in
  (snd reticked = []
   /\ createFolderError (snd (fst reticked))
      = "Protection password required."%string)
  /\ posts (snd unticked)
     = [create_request (currentPath (base cfg)) (Js.trim name) key None]
  /\ (snd reopened = []
      /\ createFolderError (snd (fst reopened))
         = "Name and Password required."%string).
Proof.
  intros Hbtn Hname Hkey filled reticked unticked reopened.
  subst reticked unticked reopened. destruct w as [m st].
  destruct st as [name0 key0 error0 protect0 password0 hidden0 btn0].
  cbn [snd createFolderConfirmBtn] in Hbtn. subst btn0.
  pose proof (truthy_nonempty _ Hname) as Htrim.
  pose proof (truthy_nonempty _ Hkey) as Htruthy.
  assert (Hfilled : forall rest,
            run (handle cfg) (filled ++ rest)
              (m, mkState name0 key0 error0 protect0 password0 hidden0 false)
            = run (handle cfg) rest
                (m, mkState name key error0 false "" true false)).
  { intros rest. subst filled. cbn [app].
    rewrite (run_cons _ (TypeName name)), (run_cons _ (TypeKey key)),
      (run_cons _ (ChangeProtection true)),
      (run_cons _ (TypePassword password)),
      (run_cons _ (ChangeProtection false)).
    cbn [handle fst snd app setName setKey setProtection setPassword
         setContainerHidden newFolderName createFolderKey createFolderError
         enableFolderProtection folderProtectionPassword
         folderProtectionPasswordContainer createFolderConfirmBtn].
    symmetry. apply surjective_pairing. }
  rewrite !Hfilled. clear Hfilled. clearbody filled.
  split; [|split].
  - rewrite (run_cons _ (ChangeProtection true)), run_cons, run_nil.
    change (fst (handle cfg (ChangeProtection true)
                   (m, mkState name key error0 false "" true false)))
      with (m, mkState name key error0 true "" false false).
    change (snd (handle cfg (ChangeProtection true)
                   (m, mkState name key error0 false "" true false)))
      with (@nil effect).
    rewrite handle_click_create by reflexivity. unfold confirm.
    cbn [newFolderName createFolderKey enableFolderProtection
         folderProtectionPassword].
    rewrite Htrim, Htruthy. split; reflexivity.
  - rewrite run_cons, run_nil.
    rewrite handle_click_create by reflexivity. unfold confirm.
    cbn [newFolderName createFolderKey enableFolderProtection
         folderProtectionPassword].
    rewrite Htrim, Htruthy. cbn [negb orb andb fst snd].
    destruct network as [[|] result|message]; reflexivity.
  - rewrite (run_cons _ ClickCreateFolderBtn), run_cons, run_nil.
    change (fst (handle cfg ClickCreateFolderBtn
                   (m, mkState name key error0 false "" true false)))
      with (Modal.show "createFolderModal" m,
            mkState "" "" "" false "" true false).
    change (snd (handle cfg ClickCreateFolderBtn
                   (m, mkState name key error0 false "" true false)))
      with (@nil effect).
    rewrite handle_click_create by reflexivity. split; reflexivity.
Qed.

End CreateFolderFacts.

Section AccessKeyFacts.

Import Web AccessKey.

Lemma submit_harmless network (w : world) : Forall harmless (snd (submit network w)).
Proof.
  destruct w as [m st]. unfold submit.
  destruct (targetPathForModal st) as [target|] eqn:Htarget; [|constructor].
  destruct target as [|c target]; [constructor|].
  destruct (modalKeyInput st) as [|c' key] eqn:Hkey; [constructor|].
  cbn [Js.truthy negb orb].
  assert (Hrequest : harmless (validate_request (String c target) (String c' key))).
  { exists (String c target), (String c' key). repeat split; discriminate. }
  destruct network as [ok result|message].
  - destruct (ok && bool_decide (status result = Some "success"%string)).
    + destruct (hideModal (m, setError "" st)) as [m' st'] eqn:Hhide.
      unfold hideModal in Hhide.
      destruct (Modal.hide "accessKeyModal" (m, setError "" st)) as [m1 st1].
      injection Hhide as <- <-. cbn [snd setTarget targetPathForModal].
      repeat constructor. exact Hrequest.
    + repeat constructor. exact Hrequest.
  - repeat constructor. exact Hrequest.
Qed.

Lemma handle_harmless a (w : world) : Forall harmless (snd (handle a w)).
Proof.
  destruct w as [m st]. destruct a; cbn [handle snd]; try constructor.
  - destruct (modalSubmitBtn st); [constructor | apply submit_harmless].
  - destruct (negb (modalSubmitBtn st)); [apply submit_harmless | constructor].
Qed.

(** X20. The access-key modal never takes the user into the folder:
    whatever is clicked, typed and answered, in whatever order, the only
    requests it sends are validations of a non-empty key for a non-empty
    path, and the only address it assigns is null; it reloads nothing. *)
Theorem access_modal_never_opens_the_folder (actions : list action) (w : world) :
  Forall harmless (snd (run handle actions w)).
Proof.
  revert w. induction actions as [|a rest IH]; intros w; [constructor|].
  rewrite run_cons. cbn [snd]. apply Forall_app.
  split; [apply handle_harmless | apply IH].
Qed.

(** X21. Clicking a protected folder, typing a key and submitting sends
    one validation of that key for the address of the link.  When the
    server accepts it, the modal is closed first, which clears the target
    path, and the address then assigned is that cleared value, null, not
    the address of the link.  When the server does not, its message or
    [Invalid key.] is shown and the target is kept for another try; in
    both cases the button is enabled again. *)
Theorem accepted_key_assigns_the_cleared_target
    (w : world) href key ok result :
  modalSubmitBtn (snd w) = false ->
  href <> EmptyString ->
  key <> EmptyString ->
  let accepted := ok && bool_decide (status result = Some "success"%string) in
  let done :=
    run handle [ClickProtectedLink (Some href); TypeKey key;
                ClickSubmit (Answers ok result)] w in
  let after := snd (fst done) in
  snd done
  = validate_request href key :: (if accepted then [SetHref None] else [])
  /\ targetPathForModal after = (if accepted then None else Some href)
  /\ (accepted = false ->
      modalError after = field_or (message result) "Invalid key.")
  /\ modalSubmitBtn after = false.
Proof.
  intros Hbtn Hhref Hkey accepted done after. subst done after.
  destruct w as [m st]. destruct st as [target0 key0 error0 btn0].
  cbn [snd modalSubmitBtn] in Hbtn. subst btn0.
  rewrite !run_cons, !run_nil.
  pose proof (truthy_nonempty _ Hhref) as Hth.
  pose proof (truthy_nonempty _ Hkey) as Htk.
  repeat (cbn [handle showModal submit fst snd app setTarget setKeyInput
               setError modalSubmitBtn targetPathForModal modalKeyInput
               negb orb];
          rewrite ?Hth, ?Htk).
  fold accepted. destruct accepted.
  - unfold hideModal.
    destruct (Modal.hide "accessKeyModal" _) as [m1 st1].
    cbn [fst snd setDisabled setTarget targetPathForModal modalSubmitBtn].
    repeat split. discriminate.
  - cbn [fst snd setDisabled setError targetPathForModal modalSubmitBtn
         modalError]. repeat split.
Qed.

(** X22. Once the modal has been dismissed, by Cancel, by the Escape key
    or by a click on the overlay, submitting sends nothing, whatever key
    is typed: the target path is cleared with the modal. *)
Theorem dismissed_access_modal_sends_nothing
    (els : gset string) st href key a network :
  "accessKeyModal"%string ∈ els ->
  dismisses a ->
  let done :=
    run handle [ClickProtectedLink href; TypeKey key; a; TypeKey key;
                ClickSubmit network; PressEnter network]
      (setup (Modal.start els), st) in
  snd done = []
  /\ targetPathForModal (snd (fst done)) = None
  /\ ("accessKeyModal"%string ∉ Modal.active (fst (fst done))).
Proof.
  intros Hel Ha done. subst done.
  assert (Hsetup :
    setup (Modal.start els)
    = {| Modal.elements := els;
         Modal.modals :=
           [("accessKeyModal"%string,
             {| Modal.onClose := Some (setTarget None);
                Modal.closeOnEscape := true;
                Modal.closeOnOverlay := true |})];
         Modal.active := ∅;
         Modal.overlay := ["accessKeyModal"%string] |}).
  { unfold setup, Modal.register, Modal.start. cbn [Modal.elements].
    destruct (decide ("accessKeyModal"%string ∈ els)) as [_|Hno];
      [reflexivity | contradiction]. }
  rewrite Hsetup. clear Hsetup.
  assert (Hshown : bool_decide ("accessKeyModal"%string ∈ (∅ : gset string) ∪ {[ "accessKeyModal"%string ]}) = true).
  { apply bool_decide_eq_true, shown_is_active. }
  destruct st as [target0 key0 error0 btn0].
  rewrite !run_cons, !run_nil.
  cbn [handle showModal fst snd app setTarget setKeyInput setError
       modalSubmitBtn targetPathForModal modalKeyInput].
  unfold Modal.show. cbn [Modal.modals Modal.get].
  change (String.eqb "accessKeyModal" "accessKeyModal") with true.
  cbn [Modal.elements Modal.modals Modal.active Modal.overlay].
  destruct Ha as [->|[->| ->]].
  - cbn [handle fst snd app]. unfold hideModal, Modal.hide.
    cbn [Modal.modals Modal.get].
    change (String.eqb "accessKeyModal" "accessKeyModal") with true.
    cbn [fst snd Modal.onClose Modal.active setTarget setKeyInput
         targetPathForModal modalKeyInput modalError modalSubmitBtn handle
         submit app].
    destruct btn0; cbn [negb fst snd app targetPathForModal Modal.active];
      (split; [reflexivity|]; split; [reflexivity | apply hidden_is_inactive]).
  - cbn [handle fst snd app]. unfold Modal.escape, Modal.keys.
    cbn [fst Modal.modals fmap list_fmap fold_left Modal.get].
    change (String.eqb "accessKeyModal" "accessKeyModal") with true.
    cbn [Modal.closeOnEscape Modal.active andb].
    rewrite Hshown. unfold Modal.hide. cbn [Modal.modals Modal.get].
    change (String.eqb "accessKeyModal" "accessKeyModal") with true.
    cbn [fst snd Modal.onClose Modal.active setTarget setKeyInput
         targetPathForModal modalKeyInput modalError modalSubmitBtn handle
         submit app].
    destruct btn0; cbn [negb fst snd app targetPathForModal Modal.active];
      (split; [reflexivity|]; split; [reflexivity | apply hidden_is_inactive]).
  - cbn [handle fst snd app]. unfold Modal.overlayClick.
    cbn [fst Modal.overlay List.filter].
    change (String.eqb "accessKeyModal" "accessKeyModal") with true.
    cbn [fold_left]. unfold Modal.hide. cbn [Modal.modals Modal.get].
    change (String.eqb "accessKeyModal" "accessKeyModal") with true.
    cbn [fst snd Modal.onClose Modal.active setTarget setKeyInput
         targetPathForModal modalKeyInput modalError modalSubmitBtn handle
         submit app].
    destruct btn0; cbn [negb fst snd app targetPathForModal Modal.active];
      (split; [reflexivity|]; split; [reflexivity | apply hidden_is_inactive]).
Qed.

End AccessKeyFacts.

(** ** The search form *)

Section SearchFacts.

Import Search Batch.

Lemma append_assoc (a b c : string) : (a +:+ b) +:+ c = a +:+ (b +:+ c).
Proof.
  induction a as [|x a IH]; [reflexivity|].
  change (String x ((a +:+ b) +:+ c) = String x (a +:+ (b +:+ c))).
  rewrite IH. reflexivity.
Qed.

Lemma append_nonempty_r (a b : string) : b <> EmptyString -> a +:+ b <> EmptyString.
Proof. destruct a; [trivial | discriminate]. Qed.

Lemma serialize_nonempty (params : list (string * string)) :
  params <> [] -> serialize params <> EmptyString.
Proof.
  destruct params as [|[name value] rest]; [congruence|]. intros _.
  cbn [serialize]. destruct rest; apply append_nonempty_r; discriminate.
Qed.

Lemma parameters_nonempty cfg ev : parameters cfg ev <> [].
Proof.
  unfold parameters. destruct (_ && _); [discriminate|].
  destruct (Js.truthy _); discriminate.
Qed.

Lemma or_else_empty (s : string) : Js.or_else s EmptyString = s.
Proof. destruct s; reflexivity. Qed.

Lemma dropFinalSlash_slash (p : string) :
  dropFinalSlash p +:+ "/"
  = if bool_decide (last_char p = Some "/"%char) then p else p +:+ "/".
Proof.
  induction p as [|c p IH]; [reflexivity|].
  destruct p as [|c' p'].
  - cbn [dropFinalSlash last_char]. destruct (Ascii.eqb c "/") eqn:Hc.
    + apply Ascii.eqb_eq in Hc as ->. reflexivity.
    + rewrite bool_decide_eq_false_2; [reflexivity|].
      intros [= ->]. rewrite Ascii.eqb_refl in Hc. discriminate.
  - change (dropFinalSlash (String c (String c' p')))
      with (String c (dropFinalSlash (String c' p'))).
    change (last_char (String c (String c' p')))
      with (last_char (String c' p')).
    change (String c (dropFinalSlash (String c' p')) +:+ "/")
      with (String c (dropFinalSlash (String c' p') +:+ "/")).
    rewrite IH. destruct (bool_decide _); reflexivity.
Qed.

(** X23. Which search runs.  The smart search runs exactly when semantic
    search is enabled, the smart term is not blank and the form was not
    submitted by the filter button; it then carries the trimmed smart
    term alone and drops the file name term.  Otherwise the file name
    search runs: its trimmed term when not blank, and always the
    recursive flag.  The smart button and the Enter key do the same. *)
Theorem smart_search_runs_unless_filtered cfg ev :
  let smartTerm := Js.trim (smartSearchInput ev) in
  let filenameTerm := Js.trim (searchInput ev) in
  let flag := if recursiveCheckbox ev then "true"%string else "false"%string in
  parameters cfg ev
  = if semanticSearchEnabled cfg && Js.truthy smartTerm
       && negb (bool_decide (submitter ev = Some "submit_filter"%string))
    then [("smart_query"%string, smartTerm)]
    else if Js.truthy filenameTerm
         then [("search"%string, filenameTerm); ("recursive"%string, flag)]
         else [("recursive"%string, flag)].
Proof.
  cbv zeta. unfold parameters. rewrite !or_else_empty.
  assert (Hbuttons :
    bool_decide (submitter ev = Some "submit_smart"%string)
    || negb (bool_decide (submitter ev = Some "submit_filter"%string))
    = negb (bool_decide (submitter ev = Some "submit_filter"%string))).
  { destruct (bool_decide (submitter ev = Some "submit_filter"%string)) eqn:Hf;
      [|apply orb_true_r].
    apply bool_decide_eq_true in Hf. rewrite Hf. reflexivity. }
  rewrite Hbuttons.
  destruct (_ && _); [reflexivity|].
  destruct (Js.truthy _); reflexivity.
Qed.


Lemma all_chars_app (p : ascii -> bool) (a b : string) :
  all_chars p (a +:+ b) = all_chars p a && all_chars p b.
Proof.
  induction a as [|c a IH]; [reflexivity|].
  change (String c a +:+ b) with (String c (a +:+ b)).
  cbn [all_chars]. rewrite IH, andb_assoc. reflexivity.
Qed.

Lemma count_char_app (c : ascii) (a b : string) :
  count_char c (a +:+ b) = count_char c a + count_char c b.
Proof.
  induction a as [|c' a IH]; [reflexivity|].
  change (String c' a +:+ b) with (String c' (a +:+ b)).
  cbn [count_char]. rewrite IH. lia.
Qed.

(** What a code unit is encoded as holds no [=] and no [&], and only
    characters of a query. *)
Lemma encode_unit_safe (c : ascii) :
  all_chars query_char (encode_unit c) = true
  /\ count_char "=" (encode_unit c) = 0
  /\ count_char "&" (encode_unit c) = 0.
Proof.
  destruct c as [[] [] [] [] [] [] [] []]; vm_compute; repeat split.
Qed.

Lemma urlencode_safe (s : string) :
  all_chars query_char (urlencode s) = true
  /\ count_char "=" (urlencode s) = 0
  /\ count_char "&" (urlencode s) = 0.
Proof.
  induction s as [|c s (IHall & IHeq & IHamp)]; [repeat split|].
  cbn [urlencode]. destruct (encode_unit_safe c) as (Hall & Heq & Hamp).
  rewrite all_chars_app, !count_char_app, Hall, Heq, Hamp, IHall, IHeq, IHamp.
  repeat split.
Qed.

Lemma serialize_safe (params : list (string * string)) :
  all_chars query_char (serialize params) = true
  /\ count_char "=" (serialize params) = length params
  /\ count_char "&" (serialize params) = length params - 1.
Proof.
  induction params as [|[name value] rest (IHall & IHeq & IHamp)];
    [repeat split|].
  destruct (urlencode_safe name) as (Hn1 & Hn2 & Hn3).
  destruct (urlencode_safe value) as (Hv1 & Hv2 & Hv3).
  destruct rest as [|p rest].
  - cbn [serialize length]. rewrite !all_chars_app, !count_char_app.
    rewrite Hn1, Hn2, Hn3, Hv1, Hv2, Hv3. repeat split.
  - change (serialize ((name, value) :: p :: rest))
      with (urlencode name +:+ "=" +:+ urlencode value +:+ "&"
              +:+ serialize (p :: rest)).
    rewrite !all_chars_app, !count_char_app.
    rewrite Hn1, Hn2, Hn3, Hv1, Hv2, Hv3, IHall, IHeq, IHamp.
    cbn [length all_chars count_char query_char]. repeat split.
    change (Ascii.eqb "=" "&") with false.
    change (Ascii.eqb "&" "&") with true. cbv iota. lia.
Qed.

(** X25. What the user types cannot change the shape of the query: the
    query holds only letters, digits, [*], [-], [.], [_], [+], [%], [=]
    and [&], with one [=] for each parameter the form sets and one [&]
    between two of them, whatever the terms contain. *)
Theorem search_terms_cannot_add_parameters cfg ev :
  let query := serialize (parameters cfg ev) in
  all_chars query_char query = true
  /\ count_char "=" query = length (parameters cfg ev)
  /\ count_char "&" query = length (parameters cfg ev) - 1
  /\ 1 <= length (parameters cfg ev) <= 2.
Proof.
  cbv zeta. destruct (serialize_safe (parameters cfg ev)) as (H1 & H2 & H3).
  split; [exact H1|]. split; [exact H2|]. split; [exact H3|].
  unfold parameters.
  destruct (_ && _); [cbn; lia|]. destruct (Js.truthy _); cbn; lia.
Qed.

End SearchFacts.

(** ** The theme *)

Section ThemeFacts.

Import Theme.

Lemma setTheme_settled b st : settled (setTheme b st) /\ dark (setTheme b st) = b.
Proof.
  destruct b; (split; [split; [reflexivity|] | reflexivity]);
    cbn [setTheme themeIcon dark]; intros text Hicon;
    destruct (themeIcon st); cbn [write] in Hicon; congruence.
Qed.

Lemma step_settled o st : settled (step o st).
Proof. destruct o; apply setTheme_settled. Qed.

Lemma load_settled prefersDark markup st : settled st -> load prefersDark markup st = st.
Proof.
  destruct st as [d icon saved]. intros [Htheme Hicon]. cbn in Htheme, Hicon.
  subst saved. unfold load, init, initial.
  destruct icon as [text|].
  - rewrite (Hicon text eq_refl).
    destruct d; cbn; destruct prefersDark; reflexivity.
  - destruct d; cbn; destruct prefersDark; reflexivity.
Qed.

(** X26. The theme is kept.  Once the page has been loaded or the theme
    toggled, the stored value is [dark] or [light] as the document shows
    and the icon, when the page has one, agrees; loading the page again
    then shows the same theme whatever the system preference and the
    markup, and toggling twice comes back to where it was. *)
Theorem theme_survives_a_reload (ops : list op) st prefersDark markup :
  ops <> [] ->
  let now := run ops st in
  theme now = Some (if dark now then "dark" else "light")%string
  /\ (forall text,
        themeIcon now = Some text ->
        text = Some (if dark now then Sun else Moon))
  /\ load prefersDark markup now = now
  /\ dark (toggle now) = negb (dark now)
  /\ toggle (toggle now) = now.
Proof.
  intros Hops now. subst now.
  assert (Hsettled : settled (run ops st)).
  { destruct ops as [|o ops] using rev_ind; [congruence|].
    unfold run. rewrite fold_left_app. apply step_settled. }
  destruct Hsettled as [Htheme Hicon].
  split; [exact Htheme|]. split; [exact Hicon|].
  split; [apply load_settled; split; assumption|].
  destruct (run ops st) as [d icon saved]. cbn in Htheme, Hicon. subst saved.
  destruct icon as [text|].
  - rewrite (Hicon text eq_refl). destruct d; split; reflexivity.
  - destruct d; split; reflexivity.
Qed.

(** X27. The first theme.  A stored [dark] gives the dark theme; with
    nothing stored, or the empty string, the system preference decides;
    any other stored value gives the light theme even when the system
    prefers dark.  In each case the choice is stored. *)
Theorem first_theme_follows_storage_then_system prefersDark st :
  dark (init prefersDark st)
  = match theme st with
    | None => prefersDark
    | Some saved =>
        if String.eqb saved "dark" then true
        else if String.eqb saved "" then prefersDark
        else false
    end
  /\ theme (init prefersDark st)
     = Some (if dark (init prefersDark st) then "dark" else "light")%string.
Proof.
  split; [|apply setTheme_settled].
  unfold init. rewrite (proj2 (setTheme_settled _ st)). unfold initial.
  destruct (theme st) as [saved|]; [|reflexivity].
  destruct (String.eqb saved "dark") eqn:Hdark.
  - apply String.eqb_eq in Hdark as ->. reflexivity.
  - rewrite bool_decide_eq_false_2.
    2:{ intros [= ->]. discriminate Hdark. }
    destruct saved; reflexivity.
Qed.

End ThemeFacts.

(** ** The upload modal *)

Section QuietModals.

Import Modal.

Context {S : Type}.

Lemma hide_quiet id (m : manager S) s :
  quiet m ->
  snd (hide id (m, s)) = s /\ modals (fst (hide id (m, s))) = modals m.
Proof.
  intros Hq. unfold hide.
  destruct (get id (modals m)) as [config|] eqn:Hget; [|split; reflexivity].
  rewrite (Hq id config Hget). split; reflexivity.
Qed.

Lemma fold_quiet {A : Type} (f : manager S * S -> A -> manager S * S)
    (xs : list A) :
  (forall w x, quiet (fst w) ->
     snd (f w x) = snd w /\ modals (fst (f w x)) = modals (fst w)) ->
  forall w, quiet (fst w) ->
    snd (fold_left f xs w) = snd w
    /\ modals (fst (fold_left f xs w)) = modals (fst w).
Proof.
  intros Hf. induction xs as [|x xs IH]; intros w Hq; [split; reflexivity|].
  cbn [fold_left]. destruct (Hf w x Hq) as [Hs Hm].
  assert (Hq' : quiet (fst (f w x))).
  { unfold quiet. rewrite Hm. exact Hq. }
  destruct (IH (f w x) Hq') as [Hs' Hm'].
  rewrite Hs', Hm', Hs, Hm. split; reflexivity.
Qed.

Lemma overlayClick_quiet id (w : manager S * S) :
  quiet (fst w) ->
  snd (overlayClick id w) = snd w
  /\ modals (fst (overlayClick id w)) = modals (fst w).
Proof.
  intros Hq. unfold overlayClick. apply fold_quiet; [|exact Hq].
  intros [m s] _ Hq'. apply hide_quiet. exact Hq'.
Qed.

Lemma escape_quiet (w : manager S * S) :
  quiet (fst w) ->
  snd (escape w) = snd w /\ modals (fst (escape w)) = modals (fst w).
Proof.
  intros Hq. unfold escape. apply fold_quiet; [|exact Hq].
  intros [m s] id Hq'. cbn [fst] in *.
  destruct (get id (modals m)) as [config|]; [|split; reflexivity].
  destruct (_ && _); [apply hide_quiet; exact Hq' | split; reflexivity].
Qed.

End QuietModals.

Section UploadModalFacts.

Import Upload Observe Batch UploadModal.

Variable fl : Q -> Q.

Lemma unticked_sends_no_protection cfg form net protection :
  enableProtection form = false ->
  protection_calls (trace_of (performUpload fl cfg form net protection)) = [].
Proof.
  intros Hbox. destruct (starts form) eqn:Hs.
  - rewrite protection_calls_performUpload by exact Hs.
    rewrite Hbox, andb_false_r. reflexivity.
  - destruct (performUpload_rejected fl cfg form net protection Hs)
      as [_ [t Ht]].
    rewrite Ht. reflexivity.
Qed.

(** A listener other than the ticking of the box keeps the box unticked
    and the registry without [onClose]. *)
Lemma handle_keeps_unticked cfg a (w : world) :
  Modal.quiet (fst w) ->
  a <> ChangeProtection true ->
  enableProtection (form (snd w)) = false ->
  Modal.quiet (fst (handle cfg a w))
  /\ enableProtection (form (snd (handle cfg a w))) = false.
Proof.
  intros Hq Ha Hbox. destruct w as [m st]. cbn [fst snd] in Hq, Hbox.
  destruct a as [|filesChecked folderChecked|checked|chosen|value|value|value| | |].
  - split; [|unfold handle, toggleUploadMode; reflexivity].
    cbn [handle fst]. unfold Modal.quiet, Modal.show.
    destruct (Modal.get "uploadFileModal" (Modal.modals m)); exact Hq.
  - split; [exact Hq|]. cbn [handle snd]. unfold toggleUploadMode.
    destruct folderChecked; cbn; [exact Hbox | reflexivity].
  - destruct checked; [congruence|]. split; [exact Hq | reflexivity].
  - split; [exact Hq | exact Hbox].
  - split; [exact Hq | exact Hbox].
  - split; [exact Hq | exact Hbox].
  - split; [exact Hq | exact Hbox].
  - cbn [handle]. destruct (hide_quiet "uploadFileModal" m st Hq) as [Hs Hm].
    split; [unfold Modal.quiet; rewrite Hm; exact Hq | rewrite Hs; exact Hbox].
  - cbn [handle]. destruct (escape_quiet (m, st) Hq) as [Hs Hm].
    split; [unfold Modal.quiet; rewrite Hm; exact Hq | rewrite Hs; exact Hbox].
  - cbn [handle].
    destruct (overlayClick_quiet "uploadFileModal" (m, st) Hq) as [Hs Hm].
    split; [unfold Modal.quiet; rewrite Hm; exact Hq | rewrite Hs; exact Hbox].
Qed.

Lemma run_keeps_unticked cfg (actions : list action) : forall w : world,
  Modal.quiet (fst w) ->
  Forall (fun b => b <> ChangeProtection true) actions ->
  enableProtection (form (snd w)) = false ->
  enableProtection (form (snd (run cfg actions w))) = false.
Proof.
  induction actions as [|a actions IH]; intros w Hq Hall Hbox; [exact Hbox|].
  apply Forall_cons in Hall as [Ha Hall].
  destruct (handle_keeps_unticked cfg a w Hq Ha Hbox) as [Hq' Hbox'].
  unfold run. cbn [fold_left]. apply (IH _ Hq' Hall Hbox').
Qed.

(** X28. Opening the upload modal and every change to files mode untick
    the protection box, empty the protection password and hide its
    field.  However the form is used afterwards, as long as the box is
    not ticked again, the box stays unticked and the batch that Upload
    then sends, whatever its mode, its files and the password typed,
    issues no protection-set call. *)
Theorem protection_stays_off_until_ticked_again
    cfg (w : world) a (actions : list action) net protection :
  Modal.quiet (fst w) ->
  unticks a ->
  Forall (fun b => b <> ChangeProtection true) actions ->
  let cleared := handle cfg a w in
  let later := run cfg actions cleared in
  (enableProtection (form (snd cleared)) = false
   /\ protectionPassword (form (snd cleared)) = EmptyString
   /\ protectionPasswordContainer (snd cleared) = true)
  /\ enableProtection (form (snd later)) = false
  /\ protection_calls (trace_of (confirm fl cfg net protection later)) = [].
Proof.
  intros Hq Ha Hall cleared later.
  assert (Hcleared :
    Modal.quiet (fst cleared)
    /\ enableProtection (form (snd cleared)) = false
    /\ protectionPassword (form (snd cleared)) = EmptyString
    /\ protectionPasswordContainer (snd cleared) = true).
  { subst cleared. destruct w as [m st]. cbn [fst] in Hq.
    destruct Ha as [->|[filesChecked ->]].
    - split; [|repeat split].
      cbn [handle fst]. unfold Modal.quiet, Modal.show.
      destruct (Modal.get "uploadFileModal" (Modal.modals m)); exact Hq.
    - split; [exact Hq | repeat split]. }
  destruct Hcleared as (Hq' & Hbox & Hpwd & Hhidden).
  split; [repeat split; assumption|].
  assert (Hlater : enableProtection (form (snd later)) = false).
  { subst later. apply run_keeps_unticked; assumption. }
  split; [exact Hlater|].
  unfold confirm. apply unticked_sends_no_protection. exact Hlater.
Qed.

Lemma or_else_same (s : string) : Js.or_else s s = s.
Proof. destruct s; reflexivity. Qed.

Lemma length_files_nonempty (fs : list File) :
  fs <> [] -> Nat.eqb (length fs) 0 = false.
Proof. destruct fs; [congruence | reflexivity]. Qed.

(** X29. Switching the mode does not empty the file input.  Files chosen
    in files mode, which declare no relative path, are still there after
    a switch to folder mode; with the protection box ticked and a
    password typed the batch passes the checks and uploads every file by
    its bare name, and no protection-set call is issued, whatever the
    outcome of the transfers. *)
Theorem files_chosen_before_folder_mode_go_unprotected
    cfg (w : world) fs key password net protection :
  fs <> [] ->
  key <> EmptyString ->
  password <> EmptyString ->
  Forall (fun file => webkitRelativePath file = EmptyString) fs ->
  let filled :=
    run cfg [ClickUploadFileBtn; ChooseFiles fs; TypeKey key;
             ChangeMode false true; ChangeProtection true;
             TypePassword password] w in
  let batch := confirm fl cfg net protection filled in
  form (snd filled) = mkForm fs key (currentPath cfg) true true password
  /\ (webkitdirectory (snd filled) = true
      /\ folderProtectionContainer (snd filled) = false
      /\ protectionPasswordContainer (snd filled) = false)
  /\ result_of batch
     = Some {| successCount := wins net fs; failCount := losses net fs;
               totalLoaded := grandTotalOf fs |}
  /\ uploads (trace_of batch)
     = (fun file =>
          HttpPost ("/upload/"
                    +:+ under (targetRoot cfg (form (snd filled))) (name file))
            [("X-Upload-Key"%string, key)] (FileBody file))
       <$> fs
  /\ protection_calls (trace_of batch) = [].
Proof.
  intros Hfs Hkey Hpwd Hplain filled batch.
  assert (Hform :
    form (snd filled) = mkForm fs key (currentPath cfg) true true password).
  { subst filled. destruct w as [m st]. reflexivity. }
  assert (Hflags :
    webkitdirectory (snd filled) = true
    /\ folderProtectionContainer (snd filled) = false
    /\ protectionPasswordContainer (snd filled) = false).
  { subst filled. destruct w as [m st]. repeat split. }
  split; [exact Hform|]. split; [exact Hflags|].
  subst batch. unfold confirm. rewrite Hform. clearbody filled.
  set (f := mkForm fs key (currentPath cfg) true true password).
  assert (Hs : starts f = true).
  { unfold starts, f.
    cbn [files uploadFileKey uploadModeFolder enableProtection
         protectionPassword].
    rewrite (length_files_nonempty _ Hfs), (truthy_nonempty _ Hkey),
      (truthy_nonempty _ Hpwd).
    reflexivity. }
  split; [|split].
  - rewrite (performUpload_starts fl) by exact Hs. reflexivity.
  - rewrite uploads_performUpload by exact Hs.
    cbn [files uploadModeFolder uploadFileKey f].
    apply Forall_fmap_ext_1.
    eapply Forall_impl; [exact Hplain|]. intros file Hrel.
    unfold upload_request, relPathOf, under. rewrite Hrel. reflexivity.
  - rewrite protection_calls_performUpload by exact Hs.
    destruct fs as [|file0 rest]; [congruence|].
    apply Forall_cons in Hplain as [Hrel _].
    cbn [files uploadModeFolder enableProtection f folderBasePathOf].
    rewrite Hrel. cbn [Js.truthy andb Js.truthy_opt].
    rewrite !andb_false_r. reflexivity.
Qed.

(** X30. Opening the upload modal resets the form: no file, no key,
    files mode, protection off, and the folder on display as target, so
    that Upload pressed at once only asks for a file.  Once files are
    chosen and a key typed, for a current path without white space
    around it, every file goes by its bare name into the folder on
    display, no protection-set call is issued, and the page is reloaded
    after a second exactly when no file fails. *)
Theorem fresh_upload_modal_sends_to_the_folder_on_display
    cfg (w : world) fs key net protection :
  fs <> [] ->
  key <> EmptyString ->
  Js.trim (currentPath cfg) = currentPath cfg ->
  let opened := handle cfg ClickUploadFileBtn w in
  let filled := run cfg [ChooseFiles fs; TypeKey key] opened in
  let batch := confirm fl cfg net protection filled in
  let root := Js.stripSlashes (currentPath cfg) in
  form (snd opened) = mkForm [] "" (currentPath cfg) false false ""
  /\ confirm fl cfg net protection opened
     = (None, [UploadText TxtSelectFile])
  /\ uploads (trace_of batch)
     = (fun file =>
          HttpPost ("/upload/" +:+ under root (name file))
            [("X-Upload-Key"%string, key)] (FileBody file))
       <$> fs
  /\ protection_calls (trace_of batch) = []
  /\ timers (trace_of batch)
     = (if Nat.eqb (losses net fs) 0 then [ReloadAfter 1000] else []).
Proof.
  intros Hfs Hkey Htrim opened filled batch root.
  assert (Hopened :
    form (snd opened) = mkForm [] "" (currentPath cfg) false false "").
  { subst opened. destruct w as [m st]. reflexivity. }
  assert (Hfilled :
    form (snd filled) = mkForm fs key (currentPath cfg) false false "").
  { subst filled opened. destruct w as [m st]. reflexivity. }
  split; [exact Hopened|].
  subst batch. unfold confirm. rewrite Hopened, Hfilled.
  clearbody filled opened.
  split; [reflexivity|].
  set (f := mkForm fs key (currentPath cfg) false false "").
  assert (Hs : starts f = true).
  { unfold starts, f.
    cbn [files uploadFileKey uploadModeFolder enableProtection
         protectionPassword].
    rewrite (length_files_nonempty _ Hfs), (truthy_nonempty _ Hkey).
    reflexivity. }
  assert (Hroot : targetRoot cfg f = root).
  { unfold targetRoot, f, root. cbn [uploadTargetFolder].
    rewrite Htrim, or_else_same. reflexivity. }
  split; [|split].
  - rewrite uploads_performUpload by exact Hs. rewrite Hroot.
    apply list_fmap_ext. intros _ file _. reflexivity.
  - apply unticked_sends_no_protection. reflexivity.
  - rewrite timers_performUpload by exact Hs.
    unfold closing_trace. rewrite Hroot. unfold root.
    rewrite String.eqb_refl. cbn [files f].
    destruct (Nat.eqb (losses net fs) 0); reflexivity.
Qed.

End UploadModalFacts.

(** ** The properties above on the sample pages *)

Lemma escape_closes_the_escapable_modals_shown_witness :
  NoDup (Modal.keys Scenes.three_modals) /\
  let w' := Modal.escape (Scenes.three_modals, []) in
  Modal.modals (fst w') = Modal.modals Scenes.three_modals
  /\ (forall id,
        id ∈ Modal.active (fst w')
        <-> id ∈ Modal.active Scenes.three_modals
            /\ Modal.closes Scenes.three_modals id = false)
  /\ snd w'
     = fold_left (Modal.closed Scenes.three_modals)
         (List.filter (Modal.closes Scenes.three_modals)
            (Modal.keys Scenes.three_modals)) [].
Proof.
  assert (Hnodup : NoDup (Modal.keys Scenes.three_modals)).
  { apply (bool_decide_unpack _). vm_compute. exact I. }
  split; [exact Hnodup|].
  apply (escape_closes_the_escapable_modals_shown Scenes.three_modals []).
  exact Hnodup.
Defined.

(** On the sample, Escape closes [a] alone and runs its [onClose] alone. *)
Example escape_sample :
  snd (Modal.escape (Scenes.three_modals, [])) = ["a"%string]
  /\ Modal.active (fst (Modal.escape (Scenes.three_modals, [])))
     = {[ "b"%string ]}.
Proof. split; [vm_compute; reflexivity|]. apply (bool_decide_unpack _). vm_compute. exact I. Qed.

Lemma hide_runs_the_onClose_last_registered_witness :
  "a"%string ∈ Modal.elements Scenes.three_modals /\
  let o := Modal.mkOptions (Some (cons "again"%string)) None (Some false) in
  let m1 := snd (Modal.register "a" o Scenes.three_modals) in
  let after := ["again"%string] in
  "a"%string ∈ Modal.active (Modal.show "a" m1)
  /\ ("a"%string ∉ Modal.active (fst (Modal.hide "a" (Modal.show "a" m1, []))))
  /\ snd (Modal.hide "a" (Modal.show "a" m1, [])) = after
  /\ snd (Modal.hide "a" (m1, [])) = after
  /\ (forall id', id' <> "a"%string ->
        Modal.get id' (Modal.modals m1)
        = Modal.get id' (Modal.modals Scenes.three_modals)
        /\ (id' ∈ Modal.active (fst (Modal.hide "a" (Modal.show "a" m1, [])))
            <-> id' ∈ Modal.active Scenes.three_modals)).
Proof.
  assert (Hin : "a"%string ∈ Modal.elements Scenes.three_modals).
  { apply (bool_decide_unpack _). vm_compute. exact I. }
  split; [exact Hin|].
  apply (hide_runs_the_onClose_last_registered "a"
           (Modal.mkOptions (Some (cons "again"%string)) None (Some false))
           Scenes.three_modals []).
  exact Hin.
Defined.

Lemma dismissing_reverts_the_hidden_toggle_witness :
  hiddenKeyConfigured (Web.base Scenes.hidden_site) = true /\
  "hiddenKeyModal"%string ∈ ({[ "hiddenKeyModal"%string ]} : gset string) /\
  HiddenToggle.dismisses HiddenToggle.PressEscape /\
  let opened :=
    fst (HiddenToggle.handle Scenes.hidden_site (HiddenToggle.ChangeToggle false)
           Scenes.toggle_world) in
  let dismissed :=
    HiddenToggle.handle Scenes.hidden_site HiddenToggle.PressEscape opened in
  HiddenToggle.hiddenToggle (snd opened) = false
  /\ ("hiddenKeyModal"%string ∈ Modal.active (fst opened))
  /\ HiddenToggle.hiddenToggle (snd (fst dismissed)) = true
  /\ ("hiddenKeyModal"%string ∉ Modal.active (fst (fst dismissed)))
  /\ snd dismissed = [].
Proof.
  assert (Hin : "hiddenKeyModal"%string ∈ ({[ "hiddenKeyModal"%string ]} : gset string)).
  { apply elem_of_singleton. reflexivity. }
  assert (Ha : HiddenToggle.dismisses HiddenToggle.PressEscape).
  { right. left. reflexivity. }
  split; [reflexivity|]. split; [exact Hin|]. split; [exact Ha|].
  apply (dismissing_reverts_the_hidden_toggle Scenes.hidden_site
           {[ "hiddenKeyModal"%string ]} Scenes.toggle_page false
           HiddenToggle.PressEscape); [reflexivity | exact Hin | exact Ha].
Defined.

Lemma hidden_toggle_sends_what_was_chosen_witness :
  hiddenKeyConfigured (Web.base Scenes.hidden_site) = true /\
  HiddenToggle.hiddenModalConfirmBtn (snd Scenes.toggle_world) = false /\
  "h"%string <> EmptyString /\
  let network := Web.Answers true Scenes.success in
  let typed :=
    Web.run (HiddenToggle.handle Scenes.hidden_site)
      [HiddenToggle.ChangeToggle false; HiddenToggle.TypeKey "h";
       HiddenToggle.ClickConfirm network] Scenes.toggle_world in
  let untyped :=
    Web.run (HiddenToggle.handle Scenes.hidden_site)
      [HiddenToggle.ChangeToggle false; HiddenToggle.ClickConfirm network]
      Scenes.toggle_world in
  (snd typed
   = [HiddenToggle.toggle_request "docs/internal" "h" false;
      Web.SetHref (Some "/"%string)]
   /\ HiddenToggle.hiddenModalConfirmBtn (snd (fst typed)) = true)
  /\ snd untyped = []
  /\ HiddenToggle.hiddenModalError (snd (fst untyped)) = "Key required."%string.
Proof.
  split; [reflexivity|]. split; [reflexivity|]. split; [discriminate|].
  apply (hidden_toggle_sends_what_was_chosen Scenes.hidden_site
           Scenes.toggle_world false "h" (Web.Answers true Scenes.success));
    [reflexivity | reflexivity | discriminate].
Defined.

Lemma view_hidden_reloads_only_when_ok_witness :
  hiddenKeyConfigured (Web.base Scenes.hidden_site) = true /\
  ViewHidden.viewHiddenConfirmBtn (snd Scenes.view_world) = false /\
  "h"%string <> EmptyString /\
  let network := Web.Throws "offline" in
  let typed :=
    Web.run (ViewHidden.handle Scenes.hidden_site)
      [ViewHidden.ClickViewHiddenBtn; ViewHidden.TypeKey "h";
       ViewHidden.ClickConfirm network] Scenes.view_world in
  let untyped :=
    Web.run (ViewHidden.handle Scenes.hidden_site)
      [ViewHidden.ClickViewHiddenBtn; ViewHidden.ClickConfirm network]
      Scenes.view_world in
  snd typed
  = [Web.Post "/api/toggle-view-hidden" Web.json_headers
       [("key"%string, Web.JString "h")]]
  /\ ViewHidden.viewHiddenConfirmBtn (snd (fst typed)) = false
  /\ ViewHidden.viewHiddenError (snd (fst typed)) = "Network error."%string
  /\ ViewHidden.viewHiddenTitle (snd (fst typed)) = "Hide Hidden Folders"%string
  /\ snd untyped = []
  /\ ViewHidden.viewHiddenError (snd (fst untyped)) = "Password required."%string.
Proof.
  split; [reflexivity|]. split; [reflexivity|]. split; [discriminate|].
  apply (view_hidden_reloads_only_when_ok Scenes.hidden_site Scenes.view_world
           "h" (Web.Throws "offline"));
    [reflexivity | reflexivity | discriminate].
Defined.

Lemma create_folder_checks_then_sends_witness :
  CreateFolder.createFolderConfirmBtn (snd Scenes.folder_world) = false /\
  let network := Web.Answers true Scenes.success in
  let st := snd Scenes.folder_world in
  let name := Js.trim (CreateFolder.newFolderName st) in
  let done :=
    CreateFolder.handle Scenes.hidden_site (CreateFolder.ClickConfirm network)
      Scenes.folder_world in
  (name = EmptyString
   \/ CreateFolder.createFolderKey st = EmptyString
   \/ (CreateFolder.enableFolderProtection st = true
       /\ CreateFolder.folderProtectionPassword st = EmptyString) ->
   snd done = [])
  /\ (name <> EmptyString ->
      CreateFolder.createFolderKey st <> EmptyString ->
      (CreateFolder.enableFolderProtection st = true ->
       CreateFolder.folderProtectionPassword st <> EmptyString) ->
      Web.posts (snd done)
      = [CreateFolder.create_request "docs/internal" "reports" "k" None])
  /\ (forall c,
        Batch.first_char name = Some c \/ Batch.last_char name = Some c ->
        Js.isWhiteSpace c = false).
Proof.
  split; [reflexivity|].
  apply (create_folder_checks_then_sends Scenes.hidden_site Scenes.folder_world
           (Web.Answers true Scenes.success)).
  reflexivity.
Defined.

Lemma unticking_protection_forgets_the_password_witness :
  CreateFolder.createFolderConfirmBtn (snd Scenes.folder_world) = false /\
  Js.trim " plans " <> EmptyString /\
  "k"%string <> EmptyString /\
  let network := Web.Answers true Scenes.success in
  let filled :=
    [CreateFolder.TypeName " plans "; CreateFolder.TypeKey "k";
     CreateFolder.ChangeProtection true; CreateFolder.TypePassword "pw";
     CreateFolder.ChangeProtection false] in
  let reticked :=
    Web.run (CreateFolder.handle Scenes.hidden_site)
      (filled ++ [CreateFolder.ChangeProtection true;
                  CreateFolder.ClickConfirm network]) Scenes.folder_world in
  let unticked :=
    Web.run (CreateFolder.handle Scenes.hidden_site)
      (filled ++ [CreateFolder.ClickConfirm network]) Scenes.folder_world in
  let reopened :=
    Web.run (CreateFolder.handle Scenes.hidden_site)
      (filled ++ [CreateFolder.ClickCreateFolderBtn;
                  CreateFolder.ClickConfirm network]) Scenes.folder_world in
  (snd reticked = []
   /\ CreateFolder.createFolderError (snd (fst reticked))
      = "Protection password required."%string)
  /\ Web.posts (snd unticked)
     = [CreateFolder.create_request "docs/internal" "plans" "k" None]
  /\ (snd reopened = []
      /\ CreateFolder.createFolderError (snd (fst reopened))
         = "Name and Password required."%string).
Proof.
  split; [reflexivity|]. split; [discriminate|]. split; [discriminate|].
  apply (unticking_protection_forgets_the_password Scenes.hidden_site
           Scenes.folder_world " plans " "k" "pw"
           (Web.Answers true Scenes.success));
    [reflexivity | discriminate | discriminate].
Defined.

Lemma accepted_key_assigns_the_cleared_target_witness :
  AccessKey.modalSubmitBtn (snd Scenes.access_world) = false /\
  "/private/"%string <> EmptyString /\
  "secret123"%string <> EmptyString /\
  let done :=
    Web.run AccessKey.handle
      [AccessKey.ClickProtectedLink (Some "/private/"%string);
       AccessKey.TypeKey "secret123";
       AccessKey.ClickSubmit (Web.Answers true Scenes.success)]
      Scenes.access_world in
  let after := snd (fst done) in
  snd done
  = [AccessKey.validate_request "/private/" "secret123"; Web.SetHref None]
  /\ AccessKey.targetPathForModal after = None
  /\ (true = false ->
      AccessKey.modalError after
      = Web.field_or (Web.message Scenes.success) "Invalid key.")
  /\ AccessKey.modalSubmitBtn after = false.
Proof.
  split; [reflexivity|]. split; [discriminate|]. split; [discriminate|].
  apply (accepted_key_assigns_the_cleared_target Scenes.access_world
           "/private/" "secret123" true Scenes.success);
    [reflexivity | discriminate | discriminate].
Defined.

Lemma dismissed_access_modal_sends_nothing_witness :
  "accessKeyModal"%string ∈ ({[ "accessKeyModal"%string ]} : gset string) /\
  AccessKey.dismisses AccessKey.ClickOverlay /\
  let network := Web.Answers true Scenes.success in
  let done :=
    Web.run AccessKey.handle
      [AccessKey.ClickProtectedLink (Some "/private/"%string);
       AccessKey.TypeKey "secret123"; AccessKey.ClickOverlay;
       AccessKey.TypeKey "secret123"; AccessKey.ClickSubmit network;
       AccessKey.PressEnter network]
      (AccessKey.setup (Modal.start {[ "accessKeyModal"%string ]}),
       Scenes.access_page) in
  snd done = []
  /\ AccessKey.targetPathForModal (snd (fst done)) = None
  /\ ("accessKeyModal"%string ∉ Modal.active (fst (fst done))).
Proof.
  assert (Hin : "accessKeyModal"%string ∈ ({[ "accessKeyModal"%string ]} : gset string)).
  { apply elem_of_singleton. reflexivity. }
  assert (Ha : AccessKey.dismisses AccessKey.ClickOverlay).
  { right. right. reflexivity. }
  split; [exact Hin|]. split; [exact Ha|].
  apply (dismissed_access_modal_sends_nothing {[ "accessKeyModal"%string ]}
           Scenes.access_page (Some "/private/"%string) "secret123"
           AccessKey.ClickOverlay (Web.Answers true Scenes.success));
    [exact Hin | exact Ha].
Defined.

Lemma theme_survives_a_reload_witness :
  [Theme.Load false false; Theme.Toggle] <> [] /\
  let now := Theme.run [Theme.Load false false; Theme.Toggle] Scenes.dark_visitor in
  Theme.theme now = Some (if Theme.dark now then "dark" else "light")%string
  /\ (forall text,
        Theme.themeIcon now = Some text ->
        text = Some (if Theme.dark now then Theme.Sun else Theme.Moon))
  /\ Theme.load true true now = now
  /\ Theme.dark (Theme.toggle now) = negb (Theme.dark now)
  /\ Theme.toggle (Theme.toggle now) = now.
Proof.
  split; [discriminate|].
  apply (theme_survives_a_reload [Theme.Load false false; Theme.Toggle]
           Scenes.dark_visitor true true).
  discriminate.
Defined.

Lemma protection_stays_off_until_ticked_again_witness :
  Modal.quiet (fst Scenes.upload_world) /\
  UploadModal.unticks (UploadModal.ChangeMode true false) /\
  Forall (fun b => b <> UploadModal.ChangeProtection true)
    [UploadModal.ChangeMode false true; UploadModal.TypePassword "x";
     UploadModal.PressEscape] /\
  let cleared :=
    UploadModal.handle Sample.cfg (UploadModal.ChangeMode true false)
      Scenes.upload_world in
  let later :=
    UploadModal.run Sample.cfg
      [UploadModal.ChangeMode false true; UploadModal.TypePassword "x";
       UploadModal.PressEscape] cleared in
  (Upload.enableProtection (UploadModal.form (snd cleared)) = false
   /\ Upload.protectionPassword (UploadModal.form (snd cleared)) = EmptyString
   /\ UploadModal.protectionPasswordContainer (snd cleared) = true)
  /\ Upload.enableProtection (UploadModal.form (snd later)) = false
  /\ Observe.protection_calls
       (trace_of
          (UploadModal.confirm Sample.exact Sample.cfg Sample.fine
             (Upload.FetchResponse 200) later)) = [].
Proof.
  assert (Hquiet : Modal.quiet (fst Scenes.upload_world)).
  { intros id config Hget. unfold Scenes.upload_world in Hget.
    cbn [fst] in Hget.
    unfold UploadModal.setup, Modal.register, Modal.start in Hget.
    cbn [Modal.elements] in Hget.
    destruct (decide ("uploadFileModal"%string
                      ∈ ({[ "uploadFileModal"%string ]} : gset string)))
      as [_|Hno];
      cbn [snd Modal.modals Modal.assign Modal.get] in Hget.
    - destruct (String.eqb "uploadFileModal" id); [|discriminate].
      injection Hget as <-. reflexivity.
    - discriminate. }
  assert (Hunticks : UploadModal.unticks (UploadModal.ChangeMode true false)).
  { right. exists true. reflexivity. }
  assert (Hall :
    Forall (fun b => b <> UploadModal.ChangeProtection true)
      [UploadModal.ChangeMode false true; UploadModal.TypePassword "x";
       UploadModal.PressEscape]).
  { repeat constructor; discriminate. }
  split; [exact Hquiet|]. split; [exact Hunticks|]. split; [exact Hall|].
  apply (protection_stays_off_until_ticked_again Sample.exact Sample.cfg
           Scenes.upload_world (UploadModal.ChangeMode true false)
           [UploadModal.ChangeMode false true; UploadModal.TypePassword "x";
            UploadModal.PressEscape]
           Sample.fine (Upload.FetchResponse 200));
    [exact Hquiet | exact Hunticks | exact Hall].
Defined.

Lemma files_chosen_before_folder_mode_go_unprotected_witness :
  [Sample.plain_txt; Sample.empty_txt] <> [] /\
  "k"%string <> EmptyString /\
  "x"%string <> EmptyString /\
  Forall (fun file => webkitRelativePath file = EmptyString)
    [Sample.plain_txt; Sample.empty_txt] /\
  let fs := [Sample.plain_txt; Sample.empty_txt] in
  let filled :=
    UploadModal.run Sample.cfg
      [UploadModal.ClickUploadFileBtn; UploadModal.ChooseFiles fs;
       UploadModal.TypeKey "k"; UploadModal.ChangeMode false true;
       UploadModal.ChangeProtection true; UploadModal.TypePassword "x"]
      Scenes.upload_world in
  let batch :=
    UploadModal.confirm Sample.exact Sample.cfg Sample.fine
      (Upload.FetchResponse 200) filled in
  UploadModal.form (snd filled)
  = Upload.mkForm fs "k" (currentPath Sample.cfg) true true "x"
  /\ (UploadModal.webkitdirectory (snd filled) = true
      /\ UploadModal.folderProtectionContainer (snd filled) = false
      /\ UploadModal.protectionPasswordContainer (snd filled) = false)
  /\ result_of batch
     = Some {| Upload.successCount := Observe.wins Sample.fine fs;
               Upload.failCount := Observe.losses Sample.fine fs;
               Upload.totalLoaded := Upload.grandTotalOf fs |}
  /\ Observe.uploads (trace_of batch)
     = (fun file =>
          HttpPost ("/upload/"
                    +:+ Observe.under
                          (Observe.targetRoot Sample.cfg
                             (UploadModal.form (snd filled))) (name file))
            [("X-Upload-Key"%string, "k"%string)] (FileBody file))
       <$> fs
  /\ Observe.protection_calls (trace_of batch) = [].
Proof.
  assert (Hplain :
    Forall (fun file => webkitRelativePath file = EmptyString)
      [Sample.plain_txt; Sample.empty_txt]).
  { repeat constructor. }
  split; [discriminate|]. split; [discriminate|]. split; [discriminate|].
  split; [exact Hplain|].
  apply (files_chosen_before_folder_mode_go_unprotected Sample.exact
           Sample.cfg Scenes.upload_world
           [Sample.plain_txt; Sample.empty_txt] "k" "x" Sample.fine
           (Upload.FetchResponse 200));
    [discriminate | discriminate | discriminate | exact Hplain].
Defined.

Lemma fresh_upload_modal_sends_to_the_folder_on_display_witness :
  [Sample.plain_txt] <> [] /\
  "k"%string <> EmptyString /\
  Js.trim (currentPath Sample.cfg) = currentPath Sample.cfg /\
  let fs := [Sample.plain_txt] in
  let opened :=
    UploadModal.handle Sample.cfg UploadModal.ClickUploadFileBtn
      Scenes.upload_world in
  let filled :=
    UploadModal.run Sample.cfg
      [UploadModal.ChooseFiles fs; UploadModal.TypeKey "k"] opened in
  let batch :=
    UploadModal.confirm Sample.exact Sample.cfg Sample.down
      Upload.FetchRejects filled in
  let root := Js.stripSlashes (currentPath Sample.cfg) in
  UploadModal.form (snd opened)
  = Upload.mkForm [] "" (currentPath Sample.cfg) false false ""
  /\ UploadModal.confirm Sample.exact Sample.cfg Sample.down
       Upload.FetchRejects opened
     = (None, [UploadText TxtSelectFile])
  /\ Observe.uploads (trace_of batch)
     = (fun file =>
          HttpPost ("/upload/" +:+ Observe.under root (name file))
            [("X-Upload-Key"%string, "k"%string)] (FileBody file))
       <$> fs
  /\ Observe.protection_calls (trace_of batch) = []
  /\ Batch.timers (trace_of batch)
     = (if Nat.eqb (Observe.losses Sample.down fs) 0
        then [ReloadAfter 1000] else []).
Proof.
  split; [discriminate|]. split; [discriminate|]. split; [reflexivity|].
  apply (fresh_upload_modal_sends_to_the_folder_on_display Sample.exact
           Sample.cfg Scenes.upload_world [Sample.plain_txt] "k" Sample.down
           Upload.FetchRejects);
    [discriminate | discriminate | reflexivity].
Defined.
